(** * FP_Quantize: a shallow embedding of deepspeed/ops/fp_quantizer/quantize.py

    The Python class [FP_Quantize] is embedded as a record of its instance
    attributes together with a state-and-exception monad: every method is a
    computation that reads and writes the attributes of [self], may raise,
    and leaves a trace of the calls it makes to its external collaborators
    (the tensor allocator, the backend kernels, the garbage collector).

    A raised exception does not roll the attributes back, exactly as in
    Python: the state reached when the exception was raised is the state the
    caller observes afterwards.

    Tensors carry a shape, an element type, their elements in row-major
    order of the indices, and their memory layout, on which [Tensor.view]
    depends.  32-bit floating point arithmetic is the IEEE-754 specification
    of [SpecFloat] at precision 24 and maximal exponent 128.  Devices are not
    modelled, so the method [to], which only moves the buffers between
    devices, has no counterpart. *)

From Stdlib Require Import ZArith List Bool Lia.
From Stdlib Require Import Floats.SpecFloat.
Import ListNotations.

Local Open Scope Z_scope.

(** ** Exceptions *)

(** One constructor per assertion family of the source, named after the
    error taxonomy of the specification, followed by the exceptions that
    Python and torch raise on their own. *)
Inductive error : Type :=
| InvalidInputDtype     (* assert input.dtype == torch.bfloat16 *)
| MetaTensorPrecision   (* assert q_bits == 8, "meta tensor is only supported with q_bit=8" *)
| UnsupportedPrecision  (* assert (0), "Missing {q_bits}-(de)quantization ..." *)
| SequenceError         (* assert (self.orig_dtype is not None) *)
| ShapeMismatch         (* the rank-3 assertion and the numel assertion *)
| NotImplemented        (* the assertions of the fallback functions *)
| Gaudi2Dtype           (* assert q_range_dtype == torch.float8_e4m3fnuz *)
| ZeroDivisionError     (* integer // 0 *)
| ValueError            (* tuple unpacking with the wrong arity *)
| TypeError             (* arithmetic on None, finfo of an integer type *)
| AttributeError        (* attribute access on None or a missing attribute *)
| TorchRuntimeError     (* shape and index errors raised inside torch operators *)
| BackendError.         (* an exception raised by an opaque backend kernel *)

Inductive outcome (A : Type) : Type :=
| Ok (a : A)
| Raise (e : error).

Arguments Ok {A} a.
Arguments Raise {A} e.

Definition is_ok {A} (o : outcome A) : bool :=
  match o with Ok _ => true | Raise _ => false end.

(** ** Element types and tensors *)

Inductive dtype : Type :=
| bfloat16 | float16 | float32
| uint8 | int64
| float8_e4m3fn | float8_e4m3fnuz | float8_e5m2 | float8_e5m2fnuz.

Definition dtype_eqb (a b : dtype) : bool :=
  match a, b with
  | bfloat16, bfloat16 | float16, float16 | float32, float32
  | uint8, uint8 | int64, int64
  | float8_e4m3fn, float8_e4m3fn | float8_e4m3fnuz, float8_e4m3fnuz
  | float8_e5m2, float8_e5m2 | float8_e5m2fnuz, float8_e5m2fnuz => true
  | _, _ => false
  end.

Definition is_float8 (d : dtype) : bool :=
  match d with
  | float8_e4m3fn | float8_e4m3fnuz | float8_e5m2 | float8_e5m2fnuz => true
  | _ => false
  end.

Definition is_integral (d : dtype) : bool :=
  match d with uint8 | int64 => true | _ => false end.

(** 32-bit floats. *)
Definition f32_prec : Z := 24.
Definition f32_emax : Z := 128.

Definition f32_of_Z (z : Z) : spec_float := binary_normalize f32_prec f32_emax z 0 false.
Definition f32_div (x y : spec_float) : spec_float := SFdiv f32_prec f32_emax x y.
Definition f32_mul (x y : spec_float) : spec_float := SFmul f32_prec f32_emax x y.
Definition f32_one : spec_float := f32_of_Z 1.

(** [torch.finfo(d).max]: the largest finite value of a floating type, as a
    mantissa and an exponent; [finfo] of an integer type raises. *)
Definition finfo_max (d : dtype) : outcome spec_float :=
  match d with
  | float8_e4m3fn   => Ok (f32_of_Z 448)
  | float8_e4m3fnuz => Ok (f32_of_Z 240)
  | float8_e5m2     => Ok (f32_of_Z 57344)
  | float8_e5m2fnuz => Ok (f32_of_Z 57344)
  | float16         => Ok (f32_of_Z 65504)
  | bfloat16        => Ok (binary_normalize f32_prec f32_emax 255 120 false)
  | float32         => Ok (binary_normalize f32_prec f32_emax 16777215 104 false)
  | uint8 | int64   => Raise TypeError
  end.

(** An element is a floating-point value or an integer (a byte of a [uint8]
    buffer, an index). *)
Inductive scalar : Type :=
| Flt (x : spec_float)
| Int (n : Z).

(** How the elements of a tensor lie in memory, as far as [view] can tell: in
    row-major order without gaps, or at the given strides (a transposed
    tensor, a slice). *)
Inductive memory_layout : Type :=
| Contiguous
| Strided (strides : list Z).

(** A tensor: its shape, its element type, its elements in row-major order
    of the indices (whatever the memory layout), and the layout. *)
Record tensor : Type := mkTensorL {
  shape  : list Z;
  elt    : dtype;
  data   : list scalar;
  layout : memory_layout
}.

(** A contiguous tensor. *)
Abbreviation mkTensor s d l := (mkTensorL s d l Contiguous).

Definition prod_shape (s : list Z) : Z := fold_right Z.mul 1 s.

(** [t.numel()] *)
Definition numel (t : tensor) : Z := prod_shape (shape t).

Definition shape_eqb (a b : list Z) : bool :=
  (Nat.eqb (length a) (length b)) && forallb (fun p => fst p =? snd p) (combine a b).

Definition one_of (d : dtype) : scalar :=
  if is_integral d then Int 1 else Flt f32_one.

Definition zero_of (d : dtype) : scalar :=
  if is_integral d then Int 0 else Flt (S754_zero false).

(** [x.float()] on one element: every bfloat16, float16 and float8 value is a
    32-bit float, so widening keeps the value; integers are converted. *)
Definition to_f32 (x : scalar) : spec_float :=
  match x with
  | Flt f => f
  | Int n => f32_of_Z n
  end.

(** ** Rows of a row-major buffer *)

(** The first [r] rows of width [c] of a flat list. *)
Fixpoint rows_of {A} (r c : nat) (l : list A) : list (list A) :=
  match r with
  | O => []
  | S r' => firstn c l :: rows_of r' c (skipn c l)
  end.

(** ** The engine and its collaborators *)

(** [QuantizationConfig]: the three fields the quantizer reads. *)
Record QuantizationConfig : Type := mkConfig {
  group_size    : Z;
  q_dtype       : dtype;
  q_range_dtype : dtype
}.

(** A Python attribute that can be deleted ([del self.input_q]), hold [None]
    or hold a value. *)
Inductive attr (A : Type) : Type :=
| Missing
| IsNone
| Has (a : A).

Arguments Missing {A}.
Arguments IsNone {A}.
Arguments Has {A} a.

(** The instance attributes of [FP_Quantize].  [orig_shape] is not assigned
    by [__init__]: [None] stands for the attribute being absent. *)
Record FP_Quantize : Type := mkEngine {
  is_fallback : bool;
  q_config    : QuantizationConfig;
  orig_dtype  : option dtype;
  orig_shape  : option (list Z);
  num_groups  : option Z;
  input_q     : attr tensor;
  scale       : option tensor
}.

(** Calls that leave the quantizer, in the order they are made.  [EvAlloc]
    records a call of [torch.ones] or [torch.empty]; the tensors that other
    operators create on the way (a concatenation, a quotient, a cast) leave
    no event. *)
Inductive event : Type :=
| EvAlloc (s : list Z) (d : dtype)                      (* torch.ones / torch.empty *)
| EvQuantize (gs : Z) (stochastic : bool) (q_bits m : Z)  (* self.quantize_func *)
| EvDequantize (gs m e : Z)                             (* self.dequantize_func *)
| EvSelectiveDequantize (idx : list Z) (gs m e : Z)     (* self.selective_dequantize_func *)
| EvGcCollect                                           (* gc.collect() *)
| EvEmptyCache.                                         (* get_accelerator().empty_cache() *)

Definition is_alloc (e : event) : bool :=
  match e with EvAlloc _ _ => true | _ => false end.

Record world : Type := mkWorld {
  self  : FP_Quantize;
  trace : list event
}.

(** The kernels behind [fp_quant_module] and [torch.ops.hpu], and the device
    the process runs on.  They are opaque: each one maps its arguments to the
    elements it writes, or fails.  The shape of what they write into is fixed
    by the caller. *)
Record kernels : Type := mkKernels {
  acc_quantize : tensor -> tensor -> Z -> bool -> Z -> Z -> option (list scalar);
  acc_dequantize : tensor -> tensor -> Z -> Z -> Z -> option (list scalar);
  acc_selective_dequantize :
    tensor -> tensor -> list Z -> Z -> Z -> Z -> option (list scalar);
  acc_get_scales : option tensor -> option Z -> option tensor;
  hpu_cast_to_fp8_v2 : tensor -> tensor -> bool -> dtype -> option (list scalar);
  hpu_cast_from_fp8 : tensor -> tensor -> dtype -> option (list scalar);
  device_is_gaudi2 : bool
}.

(** ** The state and exception monad *)

Definition M (A : Type) : Type := world -> outcome A * world.

Definition ret {A} (a : A) : M A := fun w => (Ok a, w).

Definition raise {A} (e : error) : M A := fun w => (Raise e, w).

Definition bind {A B} (c : M A) (k : A -> M B) : M B :=
  fun w =>
    match c w with
    | (Ok a, w') => k a w'
    | (Raise e, w') => (Raise e, w')
    end.

Declare Scope py_scope.
Delimit Scope py_scope with py.

Notation "x <- c1 ;; c2" := (bind c1 (fun x => c2))
  (at level 61, c1 at next level, right associativity) : py_scope.
Notation "c1 ;; c2" := (bind c1 (fun _ => c2))
  (at level 61, right associativity) : py_scope.

Local Open Scope py_scope.

(** [assert b, ...] *)
Definition assert (b : bool) (e : error) : M unit :=
  if b then ret tt else raise e.

Definition lift {A} (o : outcome A) : M A := fun w => (o, w).

Definition of_kernel {A} (o : option A) : M A :=
  match o with
  | Some a => ret a
  | None => raise BackendError
  end.

Definition get {A} (f : FP_Quantize -> A) : M A := fun w => (Ok (f (self w)), w).

Definition modify (f : FP_Quantize -> FP_Quantize) : M unit :=
  fun w => (Ok tt, mkWorld (f (self w)) (trace w)).

Definition emit (e : event) : M unit :=
  fun w => (Ok tt, mkWorld (self w) (trace w ++ [e])).

Definition set_orig_dtype (v : option dtype) (e : FP_Quantize) : FP_Quantize :=
  mkEngine (is_fallback e) (q_config e) v (orig_shape e) (num_groups e) (input_q e) (scale e).

Definition set_orig_shape (v : option (list Z)) (e : FP_Quantize) : FP_Quantize :=
  mkEngine (is_fallback e) (q_config e) (orig_dtype e) v (num_groups e) (input_q e) (scale e).

Definition set_num_groups (v : option Z) (e : FP_Quantize) : FP_Quantize :=
  mkEngine (is_fallback e) (q_config e) (orig_dtype e) (orig_shape e) v (input_q e) (scale e).

Definition set_input_q (v : attr tensor) (e : FP_Quantize) : FP_Quantize :=
  mkEngine (is_fallback e) (q_config e) (orig_dtype e) (orig_shape e) (num_groups e) v (scale e).

Definition set_scale (v : option tensor) (e : FP_Quantize) : FP_Quantize :=
  mkEngine (is_fallback e) (q_config e) (orig_dtype e) (orig_shape e) (num_groups e) (input_q e) v.

(** ** torch operators *)

Definition nonneg_shape (s : list Z) : bool := forallb (fun d => 0 <=? d) s.

(** [torch.ones] at the dimensions [s] and element type [d] *)
Definition torch_ones (s : list Z) (d : dtype) : M tensor :=
  assert (nonneg_shape s) TorchRuntimeError ;;
  emit (EvAlloc s d) ;;
  ret (mkTensor s d (repeat (one_of d) (Z.to_nat (prod_shape s)))).

(** [torch.empty(s, dtype=d)]; the contents are unspecified and every caller
    overwrites them before they are read. *)
Definition torch_empty (s : list Z) (d : dtype) : M tensor :=
  assert (nonneg_shape s) TorchRuntimeError ;;
  emit (EvAlloc s d) ;;
  ret (mkTensor s d (repeat (zero_of d) (Z.to_nat (prod_shape s)))).

(** The strides of a contiguous tensor of shape [s]: 1 for the last
    dimension, and for every other one the stride of the next dimension
    times its size (a size of 0 counts as 1). *)
Fixpoint contiguous_strides (s : list Z) : list Z :=
  match s with
  | [] => []
  | _ :: r =>
    match r with
    | [] => [1]
    | d :: _ => hd 1 (contiguous_strides r) * Z.max d 1 :: contiguous_strides r
    end
  end.

(** The strides under which torch reads a tensor of the given layout. *)
Definition strides_of (t : tensor) : list Z :=
  match layout t with
  | Contiguous => contiguous_strides (shape t)
  | Strided st => st
  end.

(** The inner loop of torch's stride computation for a view: the dimensions
    of the new shape, the last one first, are given strides inside the
    current chunk of memory for as long as the chunk is not filled or the
    dimension has size 1.  [tn] is the number of elements of the chunk,
    [base] its stride, [vn] the number of elements covered so far; the
    result is the final [vn], the dimensions left and the strides so far. *)
Fixpoint fill_chunk (tn base vn : Z) (new_rev acc : list Z) : Z * list Z * list Z :=
  match new_rev with
  | d :: rest =>
    if (vn <? tn) || (d =? 1)
    then fill_chunk tn base (vn * d) rest (vn * base :: acc)
    else (vn, new_rev, acc)
  | [] => (vn, [], acc)
  end.

(** The outer loop: the dimensions of the tensor, the last one first with
    their strides, are merged into chunks that lie evenly in memory; a chunk
    ends at the first dimension or where the next stride does not continue
    it, and the new shape must cover every chunk exactly. *)
Fixpoint view_chunks (old_rev : list (Z * Z)) (base tn : Z) (new_rev acc : list Z)
  : option (list Z) :=
  match old_rev with
  | [] => None
  | (sz, _) :: rest =>
    let tn' := tn * sz in
    let ends := match rest with
                | [] => true
                | (sz', st') :: _ => negb (sz' =? 1) && negb (st' =? tn' * base)
                end in
    if ends then
      let '(vn, new_rev', acc') := fill_chunk tn' base 1 new_rev acc in
      if vn =? tn' then
        match rest with
        | [] => match new_rev' with [] => Some acc' | _ :: _ => None end
        | (_, st') :: _ => view_chunks rest st' 1 new_rev' acc'
        end
      else None
    else view_chunks rest base tn' new_rev acc
  end.

(** The strides of a view in shape [newshape] of a tensor of shape
    [oldshape] and strides [oldstride] with as many elements, or [None] when
    the strides admit no such view (torch's [computeStride]). *)
Definition view_strides (oldshape oldstride newshape : list Z) : option (list Z) :=
  match oldshape with
  | [] => Some (repeat 1 (length newshape))
  | _ :: _ =>
    if prod_shape oldshape =? 0 then
      if shape_eqb oldshape newshape then Some oldstride
      else Some (contiguous_strides newshape)
    else view_chunks (rev (combine oldshape oldstride)) (last oldstride 1) 1
                     (rev newshape) []
  end.

(** [t.view] towards a shape [s] without [-1]: the sizes must agree and the
    strides must admit the view, which those of a contiguous tensor always
    do.  The view shows the same elements in the same order. *)
Definition view (t : tensor) (s : list Z) : outcome tensor :=
  if nonneg_shape s && (prod_shape s =? numel t) then
    match layout t with
    | Contiguous => Ok (mkTensor s (elt t) (data t))
    | Strided st =>
      match view_strides (shape t) st s with
      | Some st' => Ok (mkTensorL s (elt t) (data t) (Strided st'))
      | None => Raise TorchRuntimeError
      end
    end
  else Raise TorchRuntimeError.

(** [t.reshape] towards a shape [s] without [-1]: a view where the strides
    admit one, and a contiguous copy otherwise. *)
Definition reshape (t : tensor) (s : list Z) : outcome tensor :=
  if nonneg_shape s && (prod_shape s =? numel t) then
    match view t s with
    | Ok v => Ok v
    | Raise _ => Ok (mkTensor s (elt t) (data t))
    end
  else Raise TorchRuntimeError.

(** [t.reshape(-1, k)] *)
Definition reshape_rows (t : tensor) (k : Z) : outcome tensor :=
  if (0 <? k) && (numel t mod k =? 0) then
    match view t [numel t / k; k] with
    | Ok v => Ok v
    | Raise _ => Ok (mkTensor [numel t / k; k] (elt t) (data t))
    end
  else Raise TorchRuntimeError.

(** The last dimension and the product of the leading ones. *)
Definition last_dim (s : list Z) : Z := last s 1.
Definition lead_dims (s : list Z) : list Z := removelast s.

(** Columns [a, a+n) of every row. *)
Definition columns (rows : list (list scalar)) (a n : nat) : list scalar :=
  concat (map (fun r => firstn n (skipn a r)) rows).

Definition tensor_rows (t : tensor) : list (list scalar) :=
  rows_of (Z.to_nat (prod_shape (lead_dims (shape t))))
          (Z.to_nat (last_dim (shape t))) (data t).

(** [t.split(sz, dim=-1)]: chunks of [sz] columns, the last one shorter when
    [sz] does not divide the width; at least one chunk.  A chunk is a
    window on [t]: it keeps the strides of [t], and a single chunk is [t]
    itself. *)
Definition split_last (t : tensor) (sz : Z) : outcome (list tensor) :=
  match shape t with
  | [] => Raise TorchRuntimeError
  | _ :: _ =>
    let w := last_dim (shape t) in
    if sz <? 0 then Raise TorchRuntimeError
    else if (sz =? 0) && negb (w =? 0) then Raise TorchRuntimeError
    else
      let n := if sz =? 0 then 1 else Z.max ((w + sz - 1) / sz) 1 in
      let rows := tensor_rows t in
      Ok (map (fun j =>
                 let a := Z.of_nat j * sz in
                 let len := if Z.of_nat j =? n - 1 then w - sz * (n - 1) else sz in
                 mkTensorL (lead_dims (shape t) ++ [len]) (elt t)
                           (columns rows (Z.to_nat a) (Z.to_nat len))
                           (if n =? 1 then layout t else Strided (strides_of t)))
              (seq 0 (Z.to_nat n)))
  end.

(** [torch.promote_types]: the element type of a concatenation. *)
Definition promote_types (a b : dtype) : outcome dtype :=
  if dtype_eqb a b then Ok a
  else if is_float8 a || is_float8 b then Raise TorchRuntimeError
  else match a, b with
       | uint8, int64 | int64, uint8 => Ok int64
       | (uint8 | int64), f | f, (uint8 | int64) => Ok f
       | _, _ => Ok float32
       end.

(** [t.contiguous()]: the same elements, in row-major order in memory. *)
Definition contiguous (t : tensor) : tensor := mkTensor (shape t) (elt t) (data t).

(** [torch.cat([a, b], dim=-1)]: a new tensor. *)
Definition cat_last (a b : tensor) : outcome tensor :=
  match shape a, shape b with
  | [], _ | _, [] => Raise TorchRuntimeError
  | _, [0] => Ok (contiguous a)
  | [0], _ => Ok (contiguous b)
  | _, _ =>
    if shape_eqb (lead_dims (shape a)) (lead_dims (shape b)) then
      match promote_types (elt a) (elt b) with
      | Raise e => Raise e
      | Ok d =>
        Ok (mkTensor (lead_dims (shape a) ++ [last_dim (shape a) + last_dim (shape b)]) d
                     (concat (map (fun p => fst p ++ snd p)
                                  (combine (tensor_rows a) (tensor_rows b)))))
      end
    else Raise TorchRuntimeError
  end.

Fixpoint sequence_opt {A} (l : list (option A)) : option (list A) :=
  match l with
  | [] => Some []
  | None :: _ => None
  | Some a :: r =>
    match sequence_opt r with
    | Some r' => Some (a :: r')
    | None => None
    end
  end.

(** Broadcasting of the elements of a tensor of shape [ss] to the shape [ds]
    of the same rank: a dimension is kept when the sizes agree and repeated
    when the source size is 1. *)
Fixpoint broadcast (ss ds : list Z) (l : list scalar) : option (list scalar) :=
  match ss, ds with
  | [], [] => Some l
  | a :: ss', b :: ds' =>
    if a =? b then
      match sequence_opt
              (map (broadcast ss' ds')
                   (rows_of (Z.to_nat a) (Z.to_nat (prod_shape ss')) l)) with
      | Some rs => Some (concat rs)
      | None => None
      end
    else if a =? 1 then
      match broadcast ss' ds' l with
      | Some r => Some (concat (repeat r (Z.to_nat b)))
      | None => None
      end
    else None
  | _, _ => None
  end.

(** [dst.copy_(src)]: [src] is broadcast to the shape of [dst], which keeps
    its shape and element type.  The conversion of each element to the
    element type of [dst] is not modelled: the values are carried over. *)
Definition copy_ (dst src : tensor) : outcome tensor :=
  if (length (shape src) <=? length (shape dst))%nat then
    match broadcast (repeat 1 (length (shape dst) - length (shape src)) ++ shape src)
                    (shape dst) (data src) with
    | Some l => Ok (mkTensorL (shape dst) (elt dst) l (layout dst))
    | None => Raise TorchRuntimeError
    end
  else Raise TorchRuntimeError.

(** The larger of two floats; a NaN wins, as in [torch.max]. *)
Definition f32_max (x y : spec_float) : spec_float :=
  match x, y with
  | S754_nan, _ => S754_nan
  | _, S754_nan => S754_nan
  | _, _ => if SFltb x y then y else x
  end.

(** [max(|v|)] over one row; there is no maximum of an empty row. *)
Definition max_abs (row : list scalar) : option spec_float :=
  match map (fun v => SFabs (to_f32 v)) row with
  | [] => None
  | x :: r => Some (fold_left f32_max r x)
  end.

(** [t.float()]: the elements as 32-bit floats.  The strides torch gives
    the converted copy are not modelled: it is given the layout of [t], and
    no operator that is applied to it here depends on the layout. *)
Definition float_ (t : tensor) : tensor :=
  mkTensorL (shape t) float32 (map (fun v => Flt (to_f32 v)) (data t)) (layout t).

(** [t.abs().max(dim=1, keepdim=True)[0]] on a two-dimensional tensor; torch
    refuses to reduce a dimension of size 0. *)
Definition abs_max_dim1 (t : tensor) : outcome tensor :=
  match shape t with
  | [r; c] =>
    if c =? 0 then Raise TorchRuntimeError
    else
      match sequence_opt (map max_abs (rows_of (Z.to_nat r) (Z.to_nat c) (data t))) with
      | Some ms => Ok (mkTensor [r; 1] (elt t) (map Flt ms))
      | None => Raise TorchRuntimeError
      end
  | _ => Raise TorchRuntimeError
  end.

(** [x / v] for a Python float [x] and an element [v] of a 32-bit float
    tensor.  With a number on the left torch evaluates the quotient through
    [Tensor.__rtruediv__], that is [t.reciprocal() * x]: the reciprocal is
    rounded, and then the product. *)
Definition rtruediv (x v : spec_float) : spec_float :=
  f32_mul (f32_div f32_one v) x.

(** [x / t] for a Python float [x] and a 32-bit float tensor [t],
    element by element. *)
Definition rdiv (x : spec_float) (t : tensor) : tensor :=
  mkTensorL (shape t) (elt t) (map (fun v => Flt (rtruediv x (to_f32 v))) (data t))
            (layout t).

(** ** Precision resolution *)

(** The [if q_bits == 8 ... elif ... else assert (0)] chain that opens
    [quantize], [dequantize] and [selective_dequantize]: the mantissa width
    that is handed to the backend. *)
Definition resolve_q_mantisa_bits (q_bits q_mantisa_bits : Z) : M Z :=
  if q_bits =? 8 then ret q_mantisa_bits
  else if q_bits =? 12 then ret 4
  else if q_bits =? 6 then ret 2
  else if q_bits =? 4 then ret 1
  else raise UnsupportedPrecision.

Definition supported_q_bits (q_bits : Z) : bool :=
  (q_bits =? 8) || (q_bits =? 12) || (q_bits =? 6) || (q_bits =? 4).

(** Python's [a // b] on integers. *)
Definition floordiv (a b : Z) : M Z :=
  if b =? 0 then raise ZeroDivisionError else ret (a / b).

(** [FP_Quantize.__init__]; [loaded] tells whether [FPQuantizerBuilder().load()]
    produced a kernel module. *)
Definition init (quantization_config : QuantizationConfig) (loaded : bool) : FP_Quantize :=
  mkEngine (negb loaded) quantization_config None None None IsNone None.

Definition fresh (quantization_config : QuantizationConfig) (loaded : bool) : world :=
  mkWorld (init quantization_config loaded) [].

(** ** The methods of [FP_Quantize] *)

(** What [quantize] returns: the packed buffer, or the pair [(data, scale)]
    when [return_meta_tensor] is set. *)
Inductive quantized : Type :=
| Packed (out : tensor)
| Meta (data_q : tensor) (scale_q : tensor).

Section Methods.

Variable K : kernels.

(** [quantize_fallback(self, out, val, group_size, stochastic_rounding, q_bits, q_mantisa_bits)] *)
Definition quantize_fallback (out val : tensor) (group_size : Z)
    (stochastic_rounding : bool) (q_bits q_mantisa_bits : Z) : M tensor :=
  assert (q_bits =? 8) NotImplemented ;;
  assert (q_mantisa_bits =? 3) NotImplemented ;;
  cfg <- get q_config ;;
  (if device_is_gaudi2 K
   then assert (dtype_eqb (q_range_dtype cfg) float8_e4m3fnuz) Gaudi2Dtype
   else ret tt) ;;
  ng <- get num_groups ;;
  ng <- match ng with Some n => ret n | None => raise TypeError end ;;
  v <- lift (view val [ng; group_size]) ;;
  let val_reshaped := float_ v in
  max_vals <- lift (abs_max_dim1 val_reshaped) ;;
  q_range <- lift (finfo_max (q_range_dtype cfg)) ;;
  let sc := rdiv q_range max_vals in
  modify (set_scale (Some sc)) ;;
  quant <- of_kernel (hpu_cast_to_fp8_v2 K val_reshaped sc stochastic_rounding (q_dtype cfg)) ;;
  lift (copy_ out (mkTensor (shape val_reshaped) (q_dtype cfg) quant)).

(** [self.quantize_func]: the handle chosen by [__init__].  The accelerated
    kernel writes into [out] and returns it. *)
Definition quantize_func (out val : tensor) (group_size : Z)
    (stochastic_mode : bool) (q_bits q_mantisa_bits : Z) : M tensor :=
  fb <- get is_fallback ;;
  emit (EvQuantize group_size stochastic_mode q_bits q_mantisa_bits) ;;
  if fb then quantize_fallback out val group_size stochastic_mode q_bits q_mantisa_bits
  else
    d <- of_kernel (acc_quantize K out val group_size stochastic_mode q_bits q_mantisa_bits) ;;
    ret (mkTensorL (shape out) (elt out) d (layout out)).

(** [data, self.scale = chunks]: unpacking into exactly two targets. *)
Definition unpack2 {A} (chunks : list A) : M (A * A) :=
  match chunks with
  | [a; b] => ret (a, b)
  | _ => raise ValueError
  end.

(** [quantize(self, input, q_bits=8, q_mantisa_bits=3, stochastic_mode=False,
    return_meta_tensor=False)].  The buffer handed to the backend is the
    object stored in [self.input_q], so what the backend writes is visible
    through that attribute too. *)
Definition quantize (input : tensor) (q_bits q_mantisa_bits : Z)
    (stochastic_mode return_meta_tensor : bool) : M quantized :=
  assert (dtype_eqb (elt input) bfloat16) InvalidInputDtype ;;
  (if return_meta_tensor then assert (q_bits =? 8) MetaTensorPrecision else ret tt) ;;
  modify (set_orig_dtype (Some (elt input))) ;;
  modify (set_orig_shape (Some (shape input))) ;;
  q_mantisa_bits <- resolve_q_mantisa_bits q_bits q_mantisa_bits ;;
  cfg <- get q_config ;;
  ng <- floordiv (numel input + group_size cfg - 1) (group_size cfg) ;;
  modify (set_num_groups (Some ng)) ;;
  let group_size0 := (Z.min (group_size cfg) (numel input) * q_bits) / 8 in
  fb <- get is_fallback ;;
  let group_size := if negb fb then group_size0 + 4 else group_size0 in
  buf <- torch_ones [ng; group_size] (q_dtype cfg) ;;
  modify (set_input_q (Has buf)) ;;
  out <- quantize_func buf input group_size stochastic_mode q_bits q_mantisa_bits ;;
  modify (set_input_q (Has out)) ;;
  if return_meta_tensor then
    data_q <- (if negb fb then
                 chunks <- lift (split_last out group_size) ;;
                 p <- unpack2 chunks ;;
                 modify (set_scale (Some (snd p))) ;;
                 lift (reshape (contiguous (fst p)) (shape input))
               else lift (reshape (contiguous out) (shape input))) ;;
    sc <- get scale ;;
    sc <- match sc with Some s => ret (contiguous s) | None => raise AttributeError end ;;
    modify (set_scale (Some sc)) ;;
    modify (set_input_q Missing) ;;
    emit EvGcCollect ;;
    emit EvEmptyCache ;;
    ret (Meta data_q sc)
  else ret (Packed out).

(** [get_scales_fallback(self, out, num_groups)] *)
Definition get_scales_fallback (out : option tensor) (ng : option Z) : M (option tensor) :=
  get scale.

(** [get_scales(self)] *)
Definition get_scales : M (option tensor) :=
  sc <- get scale ;;
  ng <- get num_groups ;;
  fb <- get is_fallback ;;
  if fb then get_scales_fallback sc ng
  else t <- of_kernel (acc_get_scales K sc ng) ;; ret (Some t).

(** [dequantize_fallback(self, fp_out, input_q, group_size, q_mantisa_bits, q_exponent_bits)] *)
Definition dequantize_fallback (fp_out input_q : tensor)
    (group_size q_mantisa_bits q_exponent_bits : Z) : M tensor :=
  sc <- get scale ;;
  sc <- match sc with Some s => ret s | None => raise TypeError end ;;
  od <- get orig_dtype ;;
  od <- match od with Some d => ret d | None => raise TypeError end ;;
  d <- of_kernel (hpu_cast_from_fp8 K input_q (rdiv f32_one sc) od) ;;
  os <- get orig_shape ;;
  os <- match os with Some s => ret s | None => raise AttributeError end ;;
  dequant_out <- lift (view (mkTensor (shape input_q) od d) os) ;;
  lift (copy_ fp_out dequant_out).

(** [self.dequantize_func] *)
Definition dequantize_func (fp_out input_q : tensor)
    (group_size q_mantisa_bits q_exponent_bits : Z) : M tensor :=
  fb <- get is_fallback ;;
  emit (EvDequantize group_size q_mantisa_bits q_exponent_bits) ;;
  if fb then dequantize_fallback fp_out input_q group_size q_mantisa_bits q_exponent_bits
  else
    d <- of_kernel (acc_dequantize K fp_out input_q group_size q_mantisa_bits q_exponent_bits) ;;
    ret (mkTensorL (shape fp_out) (elt fp_out) d (layout fp_out)).

(** [dequantize(self, input_q, fp_out=None, q_bits=8, q_mantisa_bits=3, scale=None)] *)
Definition dequantize (input_q : tensor) (fp_out : option tensor)
    (q_bits q_mantisa_bits : Z) (scale_arg : option tensor) : M tensor :=
  od <- get orig_dtype ;;
  od <- match od with Some d => ret d | None => raise SequenceError end ;;
  fp_out <- match fp_out with
            | Some t => ret t
            | None =>
              os <- get orig_shape ;;
              os <- match os with Some s => ret s | None => raise AttributeError end ;;
              torch_empty os od
            end ;;
  q_mantisa_bits <- resolve_q_mantisa_bits q_bits q_mantisa_bits ;;
  fb <- get is_fallback ;;
  cfg <- get q_config ;;
  input_q <- match scale_arg with
             | Some sc =>
               if negb fb then
                 assert (numel input_q =? numel fp_out) ShapeMismatch ;;
                 r <- lift (reshape_rows input_q (group_size cfg)) ;;
                 lift (cat_last r sc)
               else
                 let group_size := (Z.min (group_size cfg) (numel input_q) * q_bits) / 8 in
                 lift (reshape_rows input_q group_size)
             | None => ret input_q
             end ;;
  dequantize_func fp_out input_q (group_size cfg) q_mantisa_bits (q_bits - q_mantisa_bits - 1).

(** [selective_dequantize_fallback(self, val_q, scales, indexes, group_size,
    q_mantisa_bits, q_exponent_bits)] *)
Definition selective_dequantize_fallback (val_q scales : tensor) (indexes : list Z)
    (group_size q_mantisa_bits q_exponent_bits : Z) : M tensor :=
  raise NotImplemented.

(** [self.selective_dequantize_func] *)
Definition selective_dequantize_func (fp_out input_q : tensor) (indexes : list Z)
    (group_size q_mantisa_bits q_exponent_bits : Z) : M tensor :=
  fb <- get is_fallback ;;
  emit (EvSelectiveDequantize indexes group_size q_mantisa_bits q_exponent_bits) ;;
  if fb then
    selective_dequantize_fallback fp_out input_q indexes group_size q_mantisa_bits q_exponent_bits
  else
    d <- of_kernel (acc_selective_dequantize K fp_out input_q indexes group_size
                                             q_mantisa_bits q_exponent_bits) ;;
    ret (mkTensorL (shape fp_out) (elt fp_out) d (layout fp_out)).

(** [selective_dequantize(self, input_q, indexes, fp_out=None, q_bits=8,
    q_mantisa_bits=3, scale=None)]; [indexes] is a one-dimensional index
    tensor, so [indexes.shape[0]] is its length. *)
Definition selective_dequantize (input_q : tensor) (indexes : list Z)
    (fp_out : option tensor) (q_bits q_mantisa_bits : Z)
    (scale_arg : option tensor) : M tensor :=
  os <- get orig_shape ;;
  assert (match os with None => true | Some s => Nat.eqb (length s) 3 end) ShapeMismatch ;;
  od <- get orig_dtype ;;
  od <- match od with Some d => ret d | None => raise SequenceError end ;;
  fp_out <- match fp_out with
            | Some t => ret t
            | None =>
              match os with
              | Some s => torch_empty (Z.of_nat (length indexes) :: tl s) od
              | None => raise AttributeError
              end
            end ;;
  q_mantisa_bits <- resolve_q_mantisa_bits q_bits q_mantisa_bits ;;
  fb <- get is_fallback ;;
  cfg <- get q_config ;;
  input_q <- match scale_arg with
             | Some sc =>
               if negb fb then
                 assert (numel input_q =? numel fp_out) ShapeMismatch ;;
                 r <- lift (reshape_rows input_q (group_size cfg)) ;;
                 lift (cat_last r sc)
               else ret input_q
             | None => ret input_q
             end ;;
  selective_dequantize_func fp_out input_q indexes (group_size cfg) q_mantisa_bits
                            (q_bits - q_mantisa_bits - 1).

End Methods.

(** ** Concrete data for evaluating the model *)

(** A test double for the backends: every kernel hands back the elements of
    its first tensor argument, and the device is not a Gaudi2. *)
Definition echo_kernels : kernels :=
  mkKernels
    (fun out _ _ _ _ _ => Some (data out))
    (fun out _ _ _ _ => Some (data out))
    (fun out _ _ _ _ _ => Some (data out))
    (fun s _ => s)
    (fun v _ _ _ => Some (data v))
    (fun v _ _ => Some (data v))
    false.

Definition cfg2 : QuantizationConfig := mkConfig 2 float8_e4m3fn float8_e4m3fn.

(** A 2 x 2 bfloat16 tensor holding 1, -3, 0, 7. *)
Definition t22 : tensor :=
  mkTensor [2; 2] bfloat16
           [Flt (f32_of_Z 1); Flt (f32_of_Z (-3)); Flt (f32_of_Z 0); Flt (f32_of_Z 7)].

(** A 3 x 2 x 2 bfloat16 tensor of ones. *)
Definition t322 : tensor :=
  mkTensor [3; 2; 2] bfloat16 (repeat (Flt f32_one) 12).

(** ** Running computations *)

Definition result_of {A} (c : M A) (w : world) : outcome A := fst (c w).
Definition state_after {A} (c : M A) (w : world) : world := snd (c w).

(** The events a computation adds to the trace. *)
Definition new_events {A} (c : M A) (w : world) : list event :=
  skipn (length (trace w)) (trace (state_after c w)).

(** The engine after [quantize(t22)] with the defaults, on the accelerated
    backend ([loaded = true]) or on the fallback. *)
Definition after_quantize (loaded : bool) : world :=
  state_after (quantize echo_kernels t22 8 3 false false) (fresh cfg2 loaded).

(** The session fields [quantize] assigns before it resolves the precision. *)
Definition record_input (input : tensor) (w : world) : world :=
  mkWorld (set_orig_shape (Some (shape input))
                          (set_orig_dtype (Some (elt input)) (self w)))
          (trace w).

(** The precision table as the specification words it: 12, 6 and 4 bits
    force 4, 2 and 1 mantissa bits, 8 bits keep the caller's count. *)
Definition spec_mantissa_bits (q_bits q_mantisa_bits : Z) : Z :=
  if q_bits =? 12 then 4
  else if q_bits =? 6 then 2
  else if q_bits =? 4 then 1
  else q_mantisa_bits.

(** [c] raises [bad] from no state. *)
Definition never_raises {A} (bad : error) (c : M A) : Prop :=
  forall w, result_of c w <> Raise bad.

(** The two attributes no method assigns after construction. *)
Definition configured (cfg : QuantizationConfig) (fb : bool) (e : FP_Quantize) : Prop :=
  q_config e = cfg /\ is_fallback e = fb.

(** A specification of a computation that runs on an engine satisfying the
    invariant [I]: the invariant is kept, the trace only grows, every added
    event satisfies [P], and a returned value satisfies [Q]. *)
Definition obeys {A} (I : FP_Quantize -> Prop)
    (P : event -> Prop) (Q : A -> Prop) (c : M A) : Prop :=
  forall w, I (self w) ->
    I (self (state_after c w))
    /\ (exists l, trace (state_after c w) = trace w ++ l /\ Forall P l)
    /\ (forall a, result_of c w = Ok a -> Q a).

Definition anything {A} (a : A) : Prop := True.

(** The events of [dequantize]: allocations, and backend calls that carry
    the configured group size, the resolved mantissa width and the exponent
    width [q_bits - mantissa - 1]. *)
Definition dequantize_event (cfg : QuantizationConfig) (q_bits m : Z) (ev : event) : Prop :=
  is_alloc ev = true
  \/ ev = EvDequantize (group_size cfg) (spec_mantissa_bits q_bits m)
                       (q_bits - spec_mantissa_bits q_bits m - 1).

Definition selective_event (cfg : QuantizationConfig) (idx : list Z) (q_bits m : Z) (ev : event) : Prop :=
  is_alloc ev = true
  \/ ev = EvSelectiveDequantize idx (group_size cfg) (spec_mantissa_bits q_bits m)
                                (q_bits - spec_mantissa_bits q_bits m - 1).

Definition quantize_event (st : bool) (q_bits m : Z) (ev : event) : Prop :=
  is_alloc ev = true \/ ev = EvGcCollect \/ ev = EvEmptyCache
  \/ exists gs, ev = EvQuantize gs st q_bits (spec_mantissa_bits q_bits m).

(** The event predicate that holds of every event. *)
Definition no_event (ev : event) : Prop := True.

(** The element count of the tensor a dequantizer writes into: the caller's
    [fp_out], or the tensor allocated at the shape [s]. *)
Definition output_numel (fp_out : option tensor) (s : list Z) : Z :=
  match fp_out with
  | Some t => numel t
  | None => prod_shape s
  end.

(** A quantized 2 x 2 tensor, its scale, and an output tensor of 8 elements. *)
Definition q22 : tensor := mkTensor [2; 2] float8_e4m3fn (data t22).

Definition scale21 : tensor :=
  mkTensor [2; 1] float32 [Flt (f32_of_Z 2); Flt (f32_of_Z 4)].

Definition out222 : tensor :=
  mkTensor [2; 2; 2] bfloat16 (repeat (Flt (S754_zero false)) 8).

(** Group [i] of a flat buffer cut into groups of [gs] elements. *)
Definition group_of (gs : nat) (l : list scalar) (i : nat) : list scalar :=
  firstn gs (skipn (i * gs) l).

(** The maximum of a row that is known not to be empty. *)
Definition max_abs_or_nan (row : list scalar) : spec_float :=
  match max_abs row with
  | Some x => x
  | None => S754_nan
  end.

(** Events that are not requests to the garbage collector or to the cache
    of the accelerator. *)
Definition not_reclaim (ev : event) : Prop :=
  ev <> EvGcCollect /\ ev <> EvEmptyCache.

(** The scale tensor of the fallback for [ng] groups of [gs] elements of a
    buffer: [qmax / max_vals], where row [i] of [max_vals] holds the largest
    absolute value of group [i]. *)
Definition fallback_scale (qmax : spec_float) (ng gs : Z) (l : list scalar) : tensor :=
  rdiv qmax (mkTensor [ng; 1] float32
                      (map Flt (map max_abs_or_nan
                                    (rows_of (Z.to_nat ng) (Z.to_nat gs) l)))).

(** A float whose sign bit is clear, or a NaN. *)
Definition sign_clear (x : spec_float) : Prop :=
  match x with
  | S754_zero s | S754_infinity s | S754_finite s _ _ => s = false
  | S754_nan => True
  end.

(** An element that is a zero of either sign. *)
Definition is_zero (v : scalar) : Prop := exists s, to_f32 v = S754_zero s.

Definition is_nan (x : spec_float) : bool :=
  match x with S754_nan => true | _ => false end.

(** An absolute value: a float that is no NaN and whose sign bit is clear. *)
Definition magnitude (x : spec_float) : Prop :=
  match x with
  | S754_zero s | S754_infinity s | S754_finite s _ _ => s = false
  | S754_nan => False
  end.

(** The order of the absolute values, read off the representation: zero,
    then the finite values by exponent and mantissa, then infinity. *)
Definition float_key (x : spec_float) : Z * Z * Z :=
  match x with
  | S754_zero _ => (0, 0, 0)
  | S754_finite _ m e => (1, e, Z.pos m)
  | S754_infinity _ => (2, 0, 0)
  | S754_nan => (3, 0, 0)
  end.

Definition key_le (a b : Z * Z * Z) : Prop :=
  let '(a1, a2, a3) := a in
  let '(b1, b2, b3) := b in
  a1 < b1 \/ (a1 = b1 /\ (a2 < b2 \/ (a2 = b2 /\ a3 <= b3))).

(** [mx] is the largest absolute value of a row: a NaN when the row holds
    one; otherwise the absolute value of one of its elements, which the
    absolute value of no element exceeds. *)
Definition is_max_abs (row : list scalar) (mx : spec_float) : bool :=
  if existsb (fun v => is_nan (to_f32 v)) row then is_nan mx
  else existsb (fun v => SFeqb (SFabs (to_f32 v)) mx) row
       && forallb (fun v => SFleb (SFabs (to_f32 v)) mx) row.

(** * Properties *)

Lemma dtype_eqb_eq a b : dtype_eqb a b = true <-> a = b.
Proof. destruct a, b; simpl; split; intros H; congruence. Qed.

Lemma bind_ok {A B} (c : M A) (k : A -> M B) w a w' :
  c w = (Ok a, w') -> bind c k w = k a w'.
Proof. intros H. unfold bind. rewrite H. reflexivity. Qed.

Lemma bind_raise {A B} (c : M A) (k : A -> M B) w e w' :
  c w = (Raise e, w') -> bind c k w = (Raise e, w').
Proof. intros H. unfold bind. rewrite H. reflexivity. Qed.

Lemma run_get {A B} (f : FP_Quantize -> A) (k : A -> M B) w :
  bind (get f) k w = k (f (self w)) w.
Proof. reflexivity. Qed.

Lemma run_ret {A B} (a : A) (k : A -> M B) w : bind (ret a) k w = k a w.
Proof. reflexivity. Qed.

Lemma run_raise {A B} e (k : A -> M B) w : bind (raise e) k w = (Raise e, w).
Proof. reflexivity. Qed.

Lemma run_modify {B} f (k : unit -> M B) w :
  bind (modify f) k w = k tt (mkWorld (f (self w)) (trace w)).
Proof. reflexivity. Qed.

Lemma run_emit {B} ev (k : unit -> M B) w :
  bind (emit ev) k w = k tt (mkWorld (self w) (trace w ++ [ev])).
Proof. reflexivity. Qed.

Lemma run_assoc {A B C} (c : M A) (k1 : A -> M B) (k2 : B -> M C) w :
  bind (bind c k1) k2 w = bind c (fun a => bind (k1 a) k2) w.
Proof. unfold bind. destruct (c w) as [[a|e] w']; reflexivity. Qed.

Lemma run_lift_ok {A B} (a : A) (k : A -> M B) w : bind (lift (Ok a)) k w = k a w.
Proof. reflexivity. Qed.

Lemma run_lift_raise {A B} e (k : A -> M B) w :
  bind (lift (Raise e)) k w = (Raise e, w).
Proof. reflexivity. Qed.

Lemma run_kernel_some {A B} (a : A) (k : A -> M B) w : bind (of_kernel (Some a)) k w = k a w.
Proof. reflexivity. Qed.

Lemma run_kernel_none {A B} (k : A -> M B) w :
  bind (of_kernel None) k w = (Raise BackendError, w).
Proof. reflexivity. Qed.

Lemma run_assert_true {B} e (k : unit -> M B) w : bind (assert true e) k w = k tt w.
Proof. reflexivity. Qed.

Lemma run_assert_false {B} e (k : unit -> M B) w :
  bind (assert false e) k w = (Raise e, w).
Proof. reflexivity. Qed.

Lemma run_torch_empty {B} s d (k : tensor -> M B) w :
  nonneg_shape s = true ->
  bind (torch_empty s d) k w
  = k (mkTensor s d (repeat (zero_of d) (Z.to_nat (prod_shape s))))
      (mkWorld (self w) (trace w ++ [EvAlloc s d])).
Proof. intros H. unfold torch_empty. rewrite H. reflexivity. Qed.

Lemma run_torch_ones {B} s d (k : tensor -> M B) w :
  nonneg_shape s = true ->
  bind (torch_ones s d) k w
  = k (mkTensor s d (repeat (one_of d) (Z.to_nat (prod_shape s))))
      (mkWorld (self w) (trace w ++ [EvAlloc s d])).
Proof. intros H. unfold torch_ones. rewrite H. reflexivity. Qed.

Create Rewrite HintDb run.

#[local] Hint Rewrite @run_get @run_ret @run_raise @run_modify @run_emit @run_assoc
  @run_lift_ok @run_lift_raise @run_kernel_some @run_kernel_none
  @run_assert_true @run_assert_false : run.

(** Run the statements of a block up to the first one that depends on an
    unknown. *)
Ltac run := repeat (autorewrite with run; cbn [self trace negb fst snd]).

(** Read an attribute through the setters. *)
Ltac attrs :=
  cbn [self trace q_config is_fallback orig_dtype orig_shape num_groups input_q scale
       set_orig_dtype set_orig_shape set_num_groups set_input_q set_scale].

Ltac unfold_monad :=
  unfold bind, assert, get, modify, emit, ret, raise, lift, of_kernel, floordiv in *.

(** ** Dequantizing before quantizing *)

Lemma dequantize_needs_quantize K input_q fp_out q_bits q_mantisa_bits scale_arg w :
  orig_dtype (self w) = None ->
  dequantize K input_q fp_out q_bits q_mantisa_bits scale_arg w = (Raise SequenceError, w).
Proof.
  intros H. unfold dequantize. unfold_monad. simpl. rewrite H. reflexivity.
Qed.

Lemma selective_dequantize_needs_quantize K input_q indexes fp_out q_bits q_mantisa_bits
      scale_arg w :
  orig_shape (self w) = None ->
  orig_dtype (self w) = None ->
  selective_dequantize K input_q indexes fp_out q_bits q_mantisa_bits scale_arg w
  = (Raise SequenceError, w).
Proof.
  intros Hs Hd. unfold selective_dequantize. unfold_monad. simpl.
  rewrite Hs, Hd. reflexivity.
Qed.

(** C8. On an engine that has just been constructed, on either backend,
    every call of [dequantize] and every call of [selective_dequantize]
    raises the sequence error and leaves the engine as it was; for
    [selective_dequantize] the rank check comes first and passes because no
    original shape has been recorded. *)
Theorem fresh_engine_sequence_error :
  forall K cfg loaded input_q indexes fp_out q_bits q_mantisa_bits scale_arg,
    dequantize K input_q fp_out q_bits q_mantisa_bits scale_arg (fresh cfg loaded)
    = (Raise SequenceError, fresh cfg loaded)
    /\ selective_dequantize K input_q indexes fp_out q_bits q_mantisa_bits scale_arg
                            (fresh cfg loaded)
       = (Raise SequenceError, fresh cfg loaded).
Proof.
  intros. split.
  - apply dequantize_needs_quantize. reflexivity.
  - apply selective_dequantize_needs_quantize; reflexivity.
Qed.

(** ** What a failing [quantize] leaves behind *)

Lemma resolve_unsupported q_bits q_mantisa_bits w :
  supported_q_bits q_bits = false ->
  resolve_q_mantisa_bits q_bits q_mantisa_bits w = (Raise UnsupportedPrecision, w).
Proof.
  unfold supported_q_bits, resolve_q_mantisa_bits. intros H.
  destruct (q_bits =? 8); [discriminate|].
  destruct (q_bits =? 12); [discriminate|].
  destruct (q_bits =? 6); [discriminate|].
  destruct (q_bits =? 4); [discriminate|]. reflexivity.
Qed.

Lemma resolve_supported q_bits q_mantisa_bits w :
  supported_q_bits q_bits = true ->
  resolve_q_mantisa_bits q_bits q_mantisa_bits w
  = (Ok (spec_mantissa_bits q_bits q_mantisa_bits), w).
Proof.
  unfold supported_q_bits, resolve_q_mantisa_bits, spec_mantissa_bits. intros H.
  destruct (q_bits =? 8) eqn:E8.
  - apply Z.eqb_eq in E8. subst. reflexivity.
  - destruct (q_bits =? 12); [reflexivity|].
    destruct (q_bits =? 6); [reflexivity|].
    destruct (q_bits =? 4); [reflexivity|discriminate].
Qed.

Lemma quantize_rejects_dtype K input q_bits q_mantisa_bits st meta w :
  elt input <> bfloat16 ->
  quantize K input q_bits q_mantisa_bits st meta w = (Raise InvalidInputDtype, w).
Proof.
  intros H. unfold quantize. unfold_monad.
  destruct (dtype_eqb (elt input) bfloat16) eqn:E.
  - apply dtype_eqb_eq in E. contradiction.
  - reflexivity.
Qed.

Lemma quantize_rejects_meta K input q_bits q_mantisa_bits st w :
  elt input = bfloat16 -> q_bits <> 8 ->
  quantize K input q_bits q_mantisa_bits st true w = (Raise MetaTensorPrecision, w).
Proof.
  intros H H8. unfold quantize. unfold_monad. rewrite H. simpl.
  destruct (q_bits =? 8) eqn:E.
  - apply Z.eqb_eq in E. contradiction.
  - reflexivity.
Qed.

Lemma quantize_rejects_q_bits K input q_bits q_mantisa_bits st w :
  elt input = bfloat16 -> supported_q_bits q_bits = false ->
  quantize K input q_bits q_mantisa_bits st false w
  = (Raise UnsupportedPrecision, record_input input w).
Proof.
  intros H Hq. unfold quantize.
  unfold bind at 1. unfold assert. rewrite H. simpl.
  unfold bind at 1. simpl. unfold bind at 1. simpl. unfold bind at 1. simpl.
  unfold bind at 1. rewrite resolve_unsupported by assumption.
  unfold record_input. rewrite H. reflexivity.
Qed.

(** Once a dtype is recorded, [dequantize] no longer raises the sequence error. *)
Lemma view_raises t s e : view t s = Raise e -> e = TorchRuntimeError.
Proof.
  unfold view. destruct (_ && _); [|congruence].
  destruct (layout t); [congruence|]. destruct (view_strides _ _ _); congruence.
Qed.

Lemma reshape_raises t s e : reshape t s = Raise e -> e = TorchRuntimeError.
Proof.
  unfold reshape. destruct (_ && _); [|congruence]. destruct (view t s); congruence.
Qed.

Lemma reshape_rows_raises t k e : reshape_rows t k = Raise e -> e = TorchRuntimeError.
Proof.
  unfold reshape_rows. destruct (_ && _); [|congruence]. destruct (view t _); congruence.
Qed.

Lemma promote_types_raises a b e : promote_types a b = Raise e -> e = TorchRuntimeError.
Proof.
  unfold promote_types. destruct (dtype_eqb a b); [congruence|].
  destruct (is_float8 a || is_float8 b); [congruence|].
  destruct a, b; simpl; congruence.
Qed.

Lemma cat_last_raises a b e : cat_last a b = Raise e -> e = TorchRuntimeError.
Proof.
  unfold cat_last. intros H.
  repeat match type of H with
         | context [match ?z with _ => _ end] =>
           match z with
           | promote_types _ _ => destruct z eqn:Ep; [|apply promote_types_raises in Ep]
           | _ => destruct z
           end
         end; congruence.
Qed.

Lemma copy_raises d s e : copy_ d s = Raise e -> e = TorchRuntimeError.
Proof.
  unfold copy_. destruct (_ <=? _)%nat; [|congruence].
  destruct (broadcast _ _ _); congruence.
Qed.

Section NeverRaises.

Variable bad : error.

Lemma nr_ret {A} (a : A) : never_raises bad (ret a).
Proof. intros w. cbv. discriminate. Qed.

Lemma nr_raise {A} e : e <> bad -> never_raises bad (@raise A e).
Proof. intros H w. cbv. congruence. Qed.

Lemma nr_bind {A B} (c : M A) (k : A -> M B) :
  never_raises bad c -> (forall a, never_raises bad (k a)) -> never_raises bad (bind c k).
Proof.
  intros Hc Hk w. unfold result_of, bind. specialize (Hc w). unfold result_of in Hc.
  destruct (c w) as [[a|e] w']; simpl in *.
  - apply Hk.
  - intros E. apply Hc. congruence.
Qed.

Lemma nr_get {A} (f : FP_Quantize -> A) : never_raises bad (get f).
Proof. intros w. cbv. discriminate. Qed.

Lemma nr_modify f : never_raises bad (modify f).
Proof. intros w. cbv. discriminate. Qed.

Lemma nr_emit e : never_raises bad (emit e).
Proof. intros w. cbv. discriminate. Qed.

Lemma nr_assert b e : e <> bad -> never_raises bad (assert b e).
Proof. intros H w. destruct b; cbv; congruence. Qed.

Lemma nr_of_kernel {A} (o : option A) : bad <> BackendError -> never_raises bad (of_kernel o).
Proof. intros H w. destruct o; cbv; congruence. Qed.

Lemma nr_lift {A} (o : outcome A) : o <> Raise bad -> never_raises bad (lift o).
Proof. intros H w. exact H. Qed.

Lemma nr_torch_empty s d : bad <> TorchRuntimeError -> never_raises bad (torch_empty s d).
Proof.
  intros H. unfold torch_empty.
  repeat (apply nr_bind; [|intros]);
    auto using nr_assert, nr_emit, nr_ret.
Qed.

Lemma nr_resolve q_bits m :
  bad <> UnsupportedPrecision -> never_raises bad (resolve_q_mantisa_bits q_bits m).
Proof.
  intros H. unfold resolve_q_mantisa_bits.
  repeat match goal with |- context [if ?b then _ else _] => destruct b end;
    auto using nr_ret, nr_raise.
Qed.

End NeverRaises.

Ltac nr_torch :=
  apply nr_lift; intros E;
  first [ apply view_raises in E | apply reshape_raises in E
        | apply reshape_rows_raises in E
        | apply cat_last_raises in E | apply copy_raises in E ];
  discriminate.

Ltac nr_step :=
  first
    [ apply nr_bind; [|intros]
    | apply nr_ret | apply nr_get | apply nr_modify | apply nr_emit
    | apply nr_assert; discriminate
    | apply nr_raise; discriminate
    | apply nr_of_kernel; discriminate
    | apply nr_torch_empty; discriminate
    | apply nr_resolve; discriminate
    | nr_torch
    | match goal with
      | |- never_raises _ (match ?x with _ => _ end) => destruct x
      end ].

Lemma dequantize_func_no_sequence_error K fp_out input_q gs m e :
  never_raises SequenceError (dequantize_func K fp_out input_q gs m e).
Proof.
  unfold dequantize_func, dequantize_fallback. repeat nr_step.
Qed.

Lemma dequantize_after_record K input_q fp_out q_bits q_mantisa_bits scale_arg w d :
  orig_dtype (self w) = Some d ->
  result_of (dequantize K input_q fp_out q_bits q_mantisa_bits scale_arg) w
  <> Raise SequenceError.
Proof.
  intros H. unfold result_of, dequantize.
  unfold bind at 1. unfold get at 1. unfold bind at 1. rewrite H.
  unfold ret at 1.
  match goal with |- fst (?c w) <> _ => enough (never_raises SequenceError c) as N by apply N end.
  repeat nr_step.
Qed.

(** C3, as the code has it.  A [quantize] call that fails on the element
    type of its input, or on the 8-bit requirement of the meta-tensor mode,
    leaves the engine untouched, so that on an engine that was fresh a later
    [dequantize] still raises the sequence error.  A call that fails on an
    unsupported [q_bits] has already recorded the element type and the shape
    of its input: the group count, the scale, the buffer and the trace are
    as before, and a later [dequantize] is past the sequence check. *)
Theorem quantize_failure_state :
  forall K input q_bits q_mantisa_bits st meta w,
    (elt input <> bfloat16 ->
     quantize K input q_bits q_mantisa_bits st meta w = (Raise InvalidInputDtype, w))
    /\ (elt input = bfloat16 -> meta = true -> q_bits <> 8 ->
        quantize K input q_bits q_mantisa_bits st meta w = (Raise MetaTensorPrecision, w))
    /\ (elt input = bfloat16 -> meta = false -> supported_q_bits q_bits = false ->
        quantize K input q_bits q_mantisa_bits st meta w
        = (Raise UnsupportedPrecision, record_input input w)
        /\ num_groups (self (record_input input w)) = num_groups (self w)
        /\ scale (self (record_input input w)) = scale (self w)
        /\ input_q (self (record_input input w)) = input_q (self w)
        /\ orig_dtype (self (record_input input w)) = Some bfloat16
        /\ orig_shape (self (record_input input w)) = Some (shape input)
        /\ forall x fo qb m sc,
            result_of (dequantize K x fo qb m sc) (record_input input w)
            <> Raise SequenceError)
    /\ (forall cfg loaded x fo qb m sc,
           w = fresh cfg loaded ->
           elt input <> bfloat16 \/ (meta = true /\ q_bits <> 8) ->
           result_of (dequantize K x fo qb m sc)
                     (state_after (quantize K input q_bits q_mantisa_bits st meta) w)
           = Raise SequenceError).
Proof.
  intros K input q_bits q_mantisa_bits st meta w.
  split; [apply quantize_rejects_dtype|].
  split; [intros H -> H8; now apply quantize_rejects_meta|].
  split.
  - intros H -> Hq. split; [now apply quantize_rejects_q_bits|].
    repeat split.
    + simpl. now rewrite H.
    + intros x fo qb m sc.
      apply (dequantize_after_record _ _ _ _ _ _ _ (elt input)). reflexivity.
  - intros cfg loaded x fo qb m sc -> H. unfold state_after, result_of.
    destruct (dtype_eqb (elt input) bfloat16) eqn:E.
    + apply dtype_eqb_eq in E. destruct H as [H|[-> H]]; [contradiction|].
      rewrite quantize_rejects_meta by assumption.
      cbn [snd]. now rewrite dequantize_needs_quantize.
    + assert (elt input <> bfloat16) as N.
      { intros C. apply dtype_eqb_eq in C. congruence. }
      rewrite quantize_rejects_dtype by assumption.
      cbn [snd]. now rewrite dequantize_needs_quantize.
Qed.

Lemma quantize_failure_state_witness :
  quantize echo_kernels (mkTensor [2; 2] float32 []) 8 3 false false (fresh cfg2 false)
  = (Raise InvalidInputDtype, fresh cfg2 false)
  /\ quantize echo_kernels t22 4 3 false true (fresh cfg2 false)
     = (Raise MetaTensorPrecision, fresh cfg2 false)
  /\ quantize echo_kernels t22 5 3 false false (fresh cfg2 false)
     = (Raise UnsupportedPrecision, record_input t22 (fresh cfg2 false))
  /\ result_of (dequantize echo_kernels t22 None 8 3 None)
               (state_after (quantize echo_kernels (mkTensor [2; 2] float32 []) 8 3 false false)
                            (fresh cfg2 false))
     = Raise SequenceError.
Proof.
  pose proof (quantize_failure_state echo_kernels (mkTensor [2; 2] float32 []) 8 3 false false
                                     (fresh cfg2 false)) as [A [_ [_ D]]].
  pose proof (quantize_failure_state echo_kernels t22 4 3 false true
                                     (fresh cfg2 false)) as [_ [B _]].
  pose proof (quantize_failure_state echo_kernels t22 5 3 false false
                                     (fresh cfg2 false)) as [_ [_ [C _]]].
  split; [apply A; discriminate|].
  split; [apply B; [reflexivity|reflexivity|discriminate]|].
  split; [apply C; reflexivity|].
  apply (D cfg2 false); [reflexivity|left; discriminate].
Defined.

(** C3, as the claim words it, fails: [quantize] with [q_bits = 5] raises on
    a fresh engine and yet leaves the element type and the shape recorded; the
    next [dequantize] does not raise the sequence error.  On the fallback it
    trips over the scale that was never computed, on the accelerated backend
    it reaches the kernel and returns. *)
Lemma quantize_q_bits_5_leaves_state :
  result_of (quantize echo_kernels t22 5 3 false false) (fresh cfg2 false)
  = Raise UnsupportedPrecision
  /\ orig_dtype (self (state_after (quantize echo_kernels t22 5 3 false false)
                                   (fresh cfg2 false))) = Some bfloat16
  /\ orig_shape (self (state_after (quantize echo_kernels t22 5 3 false false)
                                   (fresh cfg2 false))) = Some [2; 2]
  /\ orig_dtype (self (fresh cfg2 false)) = None
  /\ result_of (dequantize echo_kernels t22 None 8 3 None)
               (state_after (quantize echo_kernels t22 5 3 false false) (fresh cfg2 false))
     = Raise TypeError
  /\ is_ok (result_of (dequantize echo_kernels t22 None 8 3 None)
                      (state_after (quantize echo_kernels t22 5 3 false false)
                                   (fresh cfg2 true))) = true.
Proof. repeat split; reflexivity. Qed.

(** ** A small program logic for the trace *)

Lemma new_events_app {A} (c : M A) w l :
  trace (state_after c w) = trace w ++ l -> new_events c w = l.
Proof.
  intros H. unfold new_events. rewrite H.
  rewrite skipn_app, skipn_all, Nat.sub_diag. reflexivity.
Qed.

Section Obeys.

Variable Inv : FP_Quantize -> Prop.
Variable P : event -> Prop.

Lemma obeys_ret {A} (Q : A -> Prop) a : Q a -> obeys Inv P Q (ret a).
Proof.
  intros Ha w Hw. repeat split; try apply Hw.
  - exists []. simpl. rewrite app_nil_r. auto.
  - intros b E. cbv in E. congruence.
Qed.

Lemma obeys_raise {A} (Q : A -> Prop) e : obeys Inv P Q (raise e).
Proof.
  intros w Hw. repeat split; try apply Hw.
  - exists []. simpl. rewrite app_nil_r. auto.
  - intros b E. cbv in E. congruence.
Qed.

Lemma obeys_bind {A B} (Q : A -> Prop) (R : B -> Prop) (c : M A) (k : A -> M B) :
  obeys Inv P Q c -> (forall a, Q a -> obeys Inv P R (k a)) ->
  obeys Inv P R (bind c k).
Proof.
  intros Hc Hk w Hw. destruct (Hc w Hw) as [Hi [[l [Hl Pl]] Hq]].
  unfold state_after, result_of, bind in *.
  destruct (c w) as [[a|e] w'] eqn:E; simpl in *.
  - destruct (Hk a (Hq a eq_refl) w' Hi) as [Hi' [[l' [Hl' Pl']] Hq']].
    unfold state_after, result_of in *.
    split; [exact Hi'|]. split; [|exact Hq'].
    exists (l ++ l'). rewrite Hl', Hl, app_assoc. split; [reflexivity|].
    apply Forall_app. auto.
  - split; [exact Hi|]. split; [|intros b Eb; discriminate].
    exists l. auto.
Qed.

Lemma obeys_weaken {A} (Q Q' : A -> Prop) (c : M A) :
  obeys Inv P Q c -> (forall a, Q a -> Q' a) -> obeys Inv P Q' c.
Proof.
  intros Hc HQ w Hw. destruct (Hc w Hw) as [Hi [Hl Hq]]. auto.
Qed.

Lemma obeys_get {A} (f : FP_Quantize -> A) :
  obeys Inv P (fun a => exists e, Inv e /\ a = f e) (get f).
Proof.
  intros w Hw. repeat split; try apply Hw.
  - exists []. simpl. rewrite app_nil_r. auto.
  - intros a E. cbv in E. injection E as <-. exists (self w). auto.
Qed.

Lemma obeys_modify f :
  (forall e, Inv e -> Inv (f e)) ->
  obeys Inv P anything (modify f).
Proof.
  intros Hf w Hw. split; [apply Hf, Hw|]. split; [|intros; exact Logic.I].
  exists []. simpl. rewrite app_nil_r. auto.
Qed.

Lemma obeys_emit ev : P ev -> obeys Inv P anything (emit ev).
Proof.
  intros Hev w Hw. split; [apply Hw|]. split; [|intros; exact Logic.I].
  exists [ev]. simpl. auto.
Qed.

Lemma obeys_assert b e : obeys Inv P (fun _ => b = true) (assert b e).
Proof.
  destruct b.
  - apply obeys_ret. reflexivity.
  - apply obeys_raise.
Qed.

Lemma obeys_lift {A} (o : outcome A) : obeys Inv P (fun a => o = Ok a) (lift o).
Proof.
  intros w Hw. repeat split; try apply Hw.
  - exists []. simpl. rewrite app_nil_r. auto.
  - intros a E. exact E.
Qed.

Lemma obeys_of_kernel {A} (o : option A) : obeys Inv P (fun a => o = Some a) (of_kernel o).
Proof.
  destruct o.
  - apply obeys_ret. reflexivity.
  - apply obeys_raise.
Qed.

Lemma obeys_get_bind {A B} (R : B -> Prop) (f : FP_Quantize -> A) (k : A -> M B) :
  (forall e, Inv e -> obeys Inv P R (k (f e))) ->
  obeys Inv P R (bind (get f) k).
Proof.
  intros H. eapply obeys_bind; [apply obeys_get|].
  intros a [e [He ->]]. auto.
Qed.

Lemma obeys_then {A B} (Q : A -> Prop) (R : B -> Prop) (c : M A) (k : A -> M B) :
  obeys Inv P Q c -> (forall a, obeys Inv P R (k a)) -> obeys Inv P R (bind c k).
Proof. intros Hc Hk. eapply obeys_bind; [exact Hc|]. intros a _. apply Hk. Qed.

Lemma obeys_ret_bind {A B} (R : B -> Prop) (a : A) (k : A -> M B) :
  obeys Inv P R (k a) -> obeys Inv P R (bind (ret a) k).
Proof. intros H w Hw. exact (H w Hw). Qed.

Lemma obeys_raise_bind {A B} (R : B -> Prop) e (k : A -> M B) :
  obeys Inv P R (bind (raise e) k).
Proof. intros w Hw. exact (obeys_raise R e w Hw). Qed.

Lemma obeys_assoc {A B C} (R : C -> Prop) (c : M A) (k1 : A -> M B) (k2 : B -> M C) :
  obeys Inv P R (bind c (fun a => bind (k1 a) k2)) ->
  obeys Inv P R (bind (bind c k1) k2).
Proof.
  intros H w Hw. specialize (H w Hw).
  unfold state_after, result_of, bind in *.
  destruct (c w) as [[a|e] w']; exact H.
Qed.

Lemma obeys_torch_ones s d :
  P (EvAlloc s d) ->
  obeys Inv P (fun t => t = mkTensor s d (repeat (one_of d) (Z.to_nat (prod_shape s)))
                        /\ nonneg_shape s = true) (torch_ones s d).
Proof.
  intros HP. unfold torch_ones.
  eapply obeys_bind; [apply obeys_assert|intros ? Hn].
  eapply obeys_then; [apply obeys_emit, HP|intros ?].
  apply obeys_ret. auto.
Qed.

Lemma obeys_torch_empty s d :
  P (EvAlloc s d) ->
  obeys Inv P (fun t => shape t = s /\ elt t = d) (torch_empty s d).
Proof.
  intros HP. unfold torch_empty.
  eapply obeys_then; [apply obeys_assert|intros ?].
  eapply obeys_then; [apply obeys_emit, HP|intros ?].
  apply obeys_ret. auto.
Qed.

Lemma obeys_resolve q_bits m :
  obeys Inv P (fun a => a = spec_mantissa_bits q_bits m /\ supported_q_bits q_bits = true)
        (resolve_q_mantisa_bits q_bits m).
Proof.
  unfold resolve_q_mantisa_bits, spec_mantissa_bits, supported_q_bits.
  destruct (q_bits =? 8) eqn:E8.
  - apply Z.eqb_eq in E8. subst. apply obeys_ret. auto.
  - destruct (q_bits =? 12); [apply obeys_ret; auto|].
    destruct (q_bits =? 6); [apply obeys_ret; auto|].
    destruct (q_bits =? 4); [apply obeys_ret; auto|].
    apply obeys_raise.
Qed.

End Obeys.

(** One step of a proof of [obeys]: peel the first statement of a block. *)
Ltac obeys_step :=
  lazymatch goal with
  | |- obeys _ _ _ (bind (get _) _) =>
    apply obeys_get_bind;
    let e := fresh "e" in
    let He := fresh in
    intros e He; cbv beta;
    try (let Hc := fresh in
         let Hf := fresh in
         pose proof (He : configured _ _ _) as [Hc Hf];
         rewrite ?Hc, ?Hf; clear Hc Hf);
    cbn [negb]; cbv iota
  | |- obeys _ _ _ (bind (modify _) _) =>
    eapply obeys_then; [apply obeys_modify; intros ? ?; assumption|intros ?]
  | |- obeys _ _ _ (bind (emit _) _) =>
    eapply obeys_then; [apply obeys_emit|intros ?]
  | |- obeys _ _ _ (bind (assert _ _) _) =>
    eapply obeys_bind; [apply obeys_assert|intros ? ?]
  | |- obeys _ _ _ (bind (lift _) _) =>
    eapply obeys_bind; [apply obeys_lift|intros ? ?]
  | |- obeys _ _ _ (bind (of_kernel _) _) =>
    eapply obeys_bind; [apply obeys_of_kernel|intros ? ?]
  | |- obeys _ _ _ (bind (bind _ _) _) => apply obeys_assoc
  | |- obeys _ _ _ (bind (torch_empty _ _) _) =>
    eapply obeys_bind; [apply obeys_torch_empty|intros ? [? ?]]
  | |- obeys _ _ _ (bind (torch_ones _ _) _) =>
    eapply obeys_bind; [apply obeys_torch_ones|intros ? [? ?]]
  | |- obeys _ _ _ (bind (resolve_q_mantisa_bits _ _) _) =>
    eapply obeys_bind; [apply obeys_resolve|intros ? [-> ?]]
  | |- obeys _ _ _ (bind (if ?x then _ else _) _) => destruct x eqn:?
  | |- obeys _ _ _ (if ?x then _ else _) => destruct x eqn:?
  | |- obeys _ _ _ (bind (ret _) _) => apply obeys_ret_bind
  | |- obeys _ _ _ (bind (raise _) _) => apply obeys_raise_bind
  | |- obeys _ _ _ (bind (match ?x with _ => _ end) _) => destruct x eqn:?
  | |- obeys _ _ _ (match ?x with _ => _ end) => destruct x eqn:?
  | |- obeys _ _ _ (ret _) => apply obeys_ret
  | |- obeys _ _ _ (raise _) => apply obeys_raise
  | |- obeys _ _ _ (lift _) => eapply obeys_weaken; [apply obeys_lift|]
  | |- obeys _ _ _ (get _) => eapply obeys_weaken; [apply obeys_get|]
  end.

Section Events.

Variable K : kernels.
Variable cfg : QuantizationConfig.
Variable fb : bool.

Lemma obeys_dequantize_func (P : event -> Prop) fp_out input_q gs m e :
  P (EvDequantize gs m e) ->
  obeys (configured cfg fb) P (fun t => shape t = shape fp_out /\ elt t = elt fp_out)
        (dequantize_func K fp_out input_q gs m e).
Proof.
  intros HP. unfold dequantize_func, dequantize_fallback.
  obeys_step. obeys_step; [exact HP|].
  obeys_step.
  - repeat obeys_step.
    intros r Hr. unfold copy_ in Hr.
    destruct (_ <=? _)%nat; [|discriminate].
    destruct (broadcast _ _ _); [|discriminate].
    injection Hr as <-. auto.
  - repeat obeys_step. auto.
Qed.

Lemma obeys_dequantize input_q fp_out q_bits m scale_arg :
  obeys (configured cfg fb) (dequantize_event cfg q_bits m) anything
        (dequantize K input_q fp_out q_bits m scale_arg).
Proof.
  unfold dequantize. repeat obeys_step.
  all: try (left; reflexivity).
  all: (eapply obeys_weaken;
               [apply obeys_dequantize_func; right; reflexivity|intros; exact I]).
Qed.

Lemma obeys_selective_dequantize input_q idx fp_out q_bits m scale_arg :
  obeys (configured cfg fb) (selective_event cfg idx q_bits m) anything
        (selective_dequantize K input_q idx fp_out q_bits m scale_arg).
Proof.
  unfold selective_dequantize, selective_dequantize_func, selective_dequantize_fallback.
  repeat obeys_step.
  all: try (left; reflexivity).
  all: try (right; reflexivity).
  all: exact I.
Qed.

Lemma obeys_quantize input q_bits m st meta :
  obeys (configured cfg fb) (quantize_event st q_bits m) anything
        (quantize K input q_bits m st meta).
Proof.
  unfold quantize, quantize_func, quantize_fallback, floordiv, unpack2.
  repeat obeys_step.
  all: try (left; reflexivity).
  all: try (right; left; reflexivity).
  all: try (right; right; left; reflexivity).
  all: try (right; right; right; eexists; reflexivity).
  all: try exact I.
Qed.

End Events.

(** ** Precision resolution *)

Lemma obeys_new_events {A} Inv P (Q : A -> Prop) (c : M A) w :
  obeys Inv P Q c -> Inv (self w) ->
  forall ev, In ev (new_events c w) -> P ev.
Proof.
  intros H Hw ev Hin. destruct (H w Hw) as [_ [[l [Hl Pl]] _]].
  rewrite (new_events_app _ _ _ Hl) in Hin.
  rewrite Forall_forall in Pl. auto.
Qed.

Lemma dequantize_unsupported K input_q fp_out q_bits m scale_arg w d s :
  orig_dtype (self w) = Some d ->
  orig_shape (self w) = Some s ->
  nonneg_shape s = true ->
  supported_q_bits q_bits = false ->
  dequantize K input_q fp_out q_bits m scale_arg w
  = (Raise UnsupportedPrecision,
     mkWorld (self w)
             (trace w ++ match fp_out with Some _ => [] | None => [EvAlloc s d] end)).
Proof.
  intros Hd Hs Hn Hq. unfold dequantize.
  unfold bind at 1. unfold get at 1. unfold bind at 1. rewrite Hd. unfold ret at 1.
  destruct fp_out as [t|].
  - unfold bind at 1. unfold ret at 1.
    unfold bind at 1. rewrite resolve_unsupported by assumption.
    rewrite app_nil_r. destruct w; reflexivity.
  - unfold bind at 1. unfold bind at 1. unfold get at 1.
    unfold bind at 1. rewrite Hs. unfold ret at 1.
    unfold torch_empty, bind at 1, bind at 1, assert. rewrite Hn.
    unfold ret at 1. unfold bind at 1, emit at 1, ret at 1.
    unfold bind at 1. rewrite resolve_unsupported by assumption.
    reflexivity.
Qed.

Lemma selective_dequantize_unsupported K input_q idx fp_out q_bits m scale_arg w d s :
  orig_dtype (self w) = Some d ->
  orig_shape (self w) = Some s ->
  length s = 3%nat ->
  nonneg_shape (tl s) = true ->
  supported_q_bits q_bits = false ->
  selective_dequantize K input_q idx fp_out q_bits m scale_arg w
  = (Raise UnsupportedPrecision,
     mkWorld (self w)
             (trace w ++ match fp_out with
                         | Some _ => []
                         | None => [EvAlloc (Z.of_nat (length idx) :: tl s) d]
                         end)).
Proof.
  intros Hd Hs Hl Hn Hq. unfold selective_dequantize.
  unfold bind at 1. unfold get at 1. unfold bind at 1. rewrite Hs, Hl.
  unfold assert, Nat.eqb, ret at 1.
  unfold bind at 1. unfold get at 1. unfold bind at 1. rewrite Hd. unfold ret at 1.
  destruct fp_out as [t|].
  - unfold bind at 1. unfold ret at 1.
    unfold bind at 1. rewrite resolve_unsupported by assumption.
    rewrite app_nil_r. destruct w; reflexivity.
  - unfold bind at 1.
    unfold torch_empty, bind at 1, bind at 1, assert.
    assert (nonneg_shape (Z.of_nat (length idx) :: tl s) = true) as ->.
    { simpl. rewrite Hn. destruct (0 <=? Z.of_nat (length idx)) eqn:E; [reflexivity|].
      apply Z.leb_gt in E. lia. }
    unfold ret at 1. unfold bind at 1, emit at 1, ret at 1.
    unfold bind at 1. rewrite resolve_unsupported by assumption.
    reflexivity.
Qed.

Lemma supported_q_bits_table q_bits :
  supported_q_bits q_bits = true <-> In q_bits [4; 6; 8; 12].
Proof.
  unfold supported_q_bits. simpl. rewrite !orb_true_iff, !Z.eqb_eq. intuition.
Qed.

Lemma configured_self w : configured (q_config (self w)) (is_fallback (self w)) (self w).
Proof. split; reflexivity. Qed.

(** C6, as the code has it.  The precision chain is a table over 4, 6, 8
    and 12 bits: 12, 6 and 4 bits force 4, 2 and 1 mantissa bits whatever the
    caller passed, 8 bits keep the caller's count.  Every call that reaches a
    backend carries the resolved mantissa width, and for the two
    dequantizers the exponent width [q_bits - mantissa - 1].  Any other
    [q_bits] makes [quantize], on a bfloat16 input and without the
    meta-tensor mode, raise the precision error before any allocation and
    any backend call; it makes [dequantize] and [selective_dequantize] raise
    the precision error once their session checks have passed, and by then
    the output tensor has been allocated when the caller supplied none. *)
Theorem precision_resolution :
  forall K w input input_q idx fp_out q_bits m st meta scale_arg,
    (spec_mantissa_bits 12 m = 4 /\ spec_mantissa_bits 6 m = 2
     /\ spec_mantissa_bits 4 m = 1 /\ spec_mantissa_bits 8 m = m)
    /\ (supported_q_bits q_bits = true <-> In q_bits [4; 6; 8; 12])
    /\ (supported_q_bits q_bits = true ->
        resolve_q_mantisa_bits q_bits m w = (Ok (spec_mantissa_bits q_bits m), w))
    /\ (forall ev, In ev (new_events (quantize K input q_bits m st meta) w) ->
                   quantize_event st q_bits m ev)
    /\ (forall ev, In ev (new_events (dequantize K input_q fp_out q_bits m scale_arg) w) ->
                   dequantize_event (q_config (self w)) q_bits m ev)
    /\ (forall ev,
           In ev (new_events (selective_dequantize K input_q idx fp_out q_bits m scale_arg) w) ->
           selective_event (q_config (self w)) idx q_bits m ev)
    /\ (supported_q_bits q_bits = false -> elt input = bfloat16 ->
        quantize K input q_bits m st false w
        = (Raise UnsupportedPrecision, record_input input w)
        /\ new_events (quantize K input q_bits m st false) w = [])
    /\ (supported_q_bits q_bits = false ->
        forall d s, orig_dtype (self w) = Some d -> orig_shape (self w) = Some s ->
                    nonneg_shape s = true ->
        result_of (dequantize K input_q fp_out q_bits m scale_arg) w
        = Raise UnsupportedPrecision
        /\ new_events (dequantize K input_q fp_out q_bits m scale_arg) w
           = match fp_out with Some _ => [] | None => [EvAlloc s d] end)
    /\ (supported_q_bits q_bits = false ->
        forall d s, orig_dtype (self w) = Some d -> orig_shape (self w) = Some s ->
                    length s = 3%nat -> nonneg_shape (tl s) = true ->
        result_of (selective_dequantize K input_q idx fp_out q_bits m scale_arg) w
        = Raise UnsupportedPrecision
        /\ new_events (selective_dequantize K input_q idx fp_out q_bits m scale_arg) w
           = match fp_out with
             | Some _ => []
             | None => [EvAlloc (Z.of_nat (length idx) :: tl s) d]
             end).
Proof.
  intros K w input input_q idx fp_out q_bits m st meta scale_arg.
  split; [repeat split|].
  split; [apply supported_q_bits_table|].
  split; [apply resolve_supported|].
  split; [eapply obeys_new_events; [apply obeys_quantize|apply configured_self]|].
  split; [eapply obeys_new_events; [apply obeys_dequantize|apply configured_self]|].
  split; [eapply obeys_new_events;
          [apply obeys_selective_dequantize|apply configured_self]|].
  split; [|split].
  - intros Hq Hb. split; [now apply quantize_rejects_q_bits|].
    apply new_events_app. unfold state_after.
    rewrite quantize_rejects_q_bits by assumption.
    simpl. now rewrite app_nil_r.
  - intros Hq d s Hd Hs Hn. unfold result_of.
    split; [now rewrite (dequantize_unsupported _ _ _ _ _ _ _ d s)|].
    apply new_events_app. unfold state_after.
    now rewrite (dequantize_unsupported _ _ _ _ _ _ _ d s).
  - intros Hq d s Hd Hs Hl Hn. unfold result_of.
    split; [now rewrite (selective_dequantize_unsupported _ _ _ _ _ _ _ _ d s)|].
    apply new_events_app. unfold state_after.
    now rewrite (selective_dequantize_unsupported _ _ _ _ _ _ _ _ d s).
Qed.

Lemma precision_resolution_witness :
  resolve_q_mantisa_bits 12 3 (after_quantize true) = (Ok 4, after_quantize true)
  /\ dequantize_event cfg2 12 3 (EvDequantize 2 4 7)
  /\ quantize echo_kernels t22 5 3 false false (fresh cfg2 true)
     = (Raise UnsupportedPrecision, record_input t22 (fresh cfg2 true))
  /\ new_events (dequantize echo_kernels t22 None 5 3 None) (after_quantize true)
     = [EvAlloc [2; 2] bfloat16]
  /\ new_events (selective_dequantize echo_kernels t322 [0; 2] None 5 3 None)
                (state_after (quantize echo_kernels t322 8 3 false false) (fresh cfg2 true))
     = [EvAlloc [2; 2; 2] bfloat16].
Proof.
  pose proof (precision_resolution echo_kernels (after_quantize true) t22 t22 [0; 2] None
                                   12 3 false false None)
    as [_ [_ [R [_ [D _]]]]].
  pose proof (precision_resolution echo_kernels (fresh cfg2 true) t22 t22 [0; 2] None
                                   5 3 false false None)
    as [_ [_ [_ [_ [_ [_ [Q _]]]]]]].
  pose proof (precision_resolution echo_kernels (after_quantize true) t22 t22 [0; 2] None
                                   5 3 false false None)
    as [_ [_ [_ [_ [_ [_ [_ [U _]]]]]]]].
  pose proof (precision_resolution echo_kernels
                (state_after (quantize echo_kernels t322 8 3 false false) (fresh cfg2 true))
                t22 t22 [0; 2] None 5 3 false false None)
    as [_ [_ [_ [_ [_ [_ [_ [_ S]]]]]]]].
  split; [apply R; reflexivity|].
  split; [apply D; vm_compute; auto|].
  split; [apply Q; reflexivity|].
  split; [apply (U eq_refl bfloat16 [2; 2]); reflexivity|].
  apply (S eq_refl bfloat16 [3; 2; 2]); reflexivity.
Defined.

(** C6, as the claim words it, fails for the dequantizers: with [q_bits = 5]
    after a successful [quantize], [dequantize] raises the precision error
    only after it has allocated its output tensor; on a fresh engine it
    raises the sequence error instead, and [quantize] on a 32-bit float input
    raises the input-type error. *)
Lemma dequantize_allocates_before_rejecting :
  result_of (dequantize echo_kernels t22 None 5 3 None) (after_quantize true)
  = Raise UnsupportedPrecision
  /\ new_events (dequantize echo_kernels t22 None 5 3 None) (after_quantize true)
     = [EvAlloc [2; 2] bfloat16]
  /\ result_of (dequantize echo_kernels t22 None 5 3 None) (fresh cfg2 true)
     = Raise SequenceError
  /\ result_of (quantize echo_kernels (mkTensor [2; 2] float32 []) 5 3 false false)
               (fresh cfg2 true)
     = Raise InvalidInputDtype.
Proof. repeat split; reflexivity. Qed.

(** The calls that do reach a backend carry the resolved widths. *)
Example dequantize_12_bits_events :
  new_events (dequantize echo_kernels t22 None 12 3 None) (after_quantize true)
  = [EvAlloc [2; 2] bfloat16; EvDequantize 2 4 7]
  /\ new_events (quantize echo_kernels t22 6 3 true false) (fresh cfg2 true)
     = [EvAlloc [2; 5] float8_e4m3fn; EvQuantize 5 true 6 2].
Proof. split; reflexivity. Qed.

(** ** The paths the fallback does not implement *)

Lemma obeys_not_ok {A} Inv P (c : M A) w :
  obeys Inv P (fun _ => False) c -> Inv (self w) ->
  is_ok (result_of c w) = false.
Proof.
  intros H Hw. destruct (H w Hw) as [_ [_ Hq]].
  destruct (result_of c w) as [a|e]; [|reflexivity].
  destruct (Hq a eq_refl).
Qed.

Lemma selective_dequantize_fallback_raises val_q scales idx gs m e w :
  selective_dequantize_fallback val_q scales idx gs m e w = (Raise NotImplemented, w).
Proof. reflexivity. Qed.

Lemma quantize_fallback_raises K out val gs st q_bits m w :
  q_bits <> 8 \/ m <> 3 ->
  quantize_fallback K out val gs st q_bits m w = (Raise NotImplemented, w).
Proof.
  intros H. unfold quantize_fallback. unfold bind at 1. unfold assert.
  destruct (q_bits =? 8) eqn:E8; [|reflexivity].
  unfold ret at 1. unfold bind at 1.
  destruct (m =? 3) eqn:E3; [|reflexivity].
  apply Z.eqb_eq in E8, E3. lia.
Qed.

Lemma selective_dequantize_never_returns_on_fallback K cfg input_q idx fp_out q_bits m sc :
  obeys (configured cfg true) no_event (fun _ => False)
        (selective_dequantize K input_q idx fp_out q_bits m sc).
Proof.
  unfold selective_dequantize, selective_dequantize_func, selective_dequantize_fallback.
  repeat obeys_step.
  all: exact I.
Qed.

Lemma quantize_never_returns_on_fallback K cfg input q_bits m st meta :
  q_bits <> 8 \/ m <> 3 ->
  obeys (configured cfg true) no_event (fun _ => False) (quantize K input q_bits m st meta).
Proof.
  intros Hne.
  unfold quantize, quantize_func, quantize_fallback, floordiv, unpack2.
  repeat obeys_step.
  all: try exact I.
  all: exfalso; cbv beta in *;
    repeat match goal with
           | H : (_ =? _) = true |- _ => apply Z.eqb_eq in H
           end;
    subst; unfold spec_mantissa_bits in *; simpl in *; lia.
Qed.

Lemma selective_dequantize_func_on_fallback K fp_out input_q idx gs m e w :
  is_fallback (self w) = true ->
  fst (selective_dequantize_func K fp_out input_q idx gs m e w) = Raise NotImplemented.
Proof.
  intros Hf. unfold selective_dequantize_func. unfold_monad. simpl.
  rewrite Hf. reflexivity.
Qed.

Lemma nonneg_cons_length {A} (l : list A) s :
  nonneg_shape s = true -> nonneg_shape (Z.of_nat (length l) :: s) = true.
Proof.
  intros H. simpl. rewrite H. destruct (0 <=? Z.of_nat (length l)) eqn:E; [reflexivity|].
  apply Z.leb_gt in E. lia.
Qed.

Lemma selective_dequantize_on_fallback K input_q idx fp_out q_bits m sc w d s :
  is_fallback (self w) = true ->
  orig_dtype (self w) = Some d ->
  orig_shape (self w) = Some s ->
  length s = 3%nat ->
  nonneg_shape (tl s) = true ->
  supported_q_bits q_bits = true ->
  result_of (selective_dequantize K input_q idx fp_out q_bits m sc) w = Raise NotImplemented.
Proof.
  intros Hf Hd Hs Hl Hn Hq. unfold result_of, selective_dequantize.
  rewrite run_get, Hs, Hl. cbn [Nat.eqb]. run. rewrite Hd. run.
  destruct fp_out as [t|]; run.
  - rewrite (bind_ok _ _ _ _ _ (resolve_supported _ _ _ Hq)). run. rewrite Hf.
    destruct sc; run; now apply selective_dequantize_func_on_fallback.
  - rewrite run_torch_empty by now apply nonneg_cons_length.
    rewrite (bind_ok _ _ _ _ _ (resolve_supported _ _ _ Hq)). run. rewrite Hf.
    destruct sc; run; now apply selective_dequantize_func_on_fallback.
Qed.

(** C10. The fallback's selective dequantization raises [NotImplemented]
    for every input and touches nothing, and the fallback's quantization
    raises [NotImplemented] for every precision other than 8 bits with 3
    mantissa bits.  Seen through the engine: on the fallback backend
    [selective_dequantize] never returns a tensor, and raises
    [NotImplemented] as soon as its own checks pass; [quantize] never returns
    for a precision other than 8 bits with 3 mantissa bits. *)
Theorem fallback_unimplemented_paths :
  forall K w out val val_q scales input input_q idx fp_out gs e q_bits m st meta sc,
    selective_dequantize_fallback val_q scales idx gs m e w = (Raise NotImplemented, w)
    /\ (is_fallback (self w) = true ->
        is_ok (result_of (selective_dequantize K input_q idx fp_out q_bits m sc) w) = false)
    /\ (is_fallback (self w) = true ->
        forall d s, orig_dtype (self w) = Some d -> orig_shape (self w) = Some s ->
                    length s = 3%nat -> nonneg_shape (tl s) = true ->
                    supported_q_bits q_bits = true ->
        result_of (selective_dequantize K input_q idx fp_out q_bits m sc) w
        = Raise NotImplemented)
    /\ (q_bits <> 8 \/ m <> 3 ->
        quantize_fallback K out val gs st q_bits m w = (Raise NotImplemented, w))
    /\ (is_fallback (self w) = true -> q_bits <> 8 \/ m <> 3 ->
        is_ok (result_of (quantize K input q_bits m st meta) w) = false).
Proof.
  intros. split; [reflexivity|].
  split.
  { intros Hf. eapply obeys_not_ok.
    - apply selective_dequantize_never_returns_on_fallback.
    - rewrite <- Hf. apply configured_self. }
  split.
  { intros Hf d s Hd Hs Hl Hn Hq.
    now apply (selective_dequantize_on_fallback _ _ _ _ _ _ _ _ d s). }
  split; [apply quantize_fallback_raises|].
  intros Hf Hne. eapply obeys_not_ok.
  - now apply quantize_never_returns_on_fallback.
  - rewrite <- Hf. apply configured_self.
Qed.

Lemma fallback_unimplemented_paths_witness :
  is_ok (result_of (selective_dequantize echo_kernels t322 [0; 2] None 8 3 None)
                   (state_after (quantize echo_kernels t322 8 3 false false)
                                (fresh cfg2 false))) = false
  /\ result_of (selective_dequantize echo_kernels t322 [0; 2] None 8 3 None)
               (state_after (quantize echo_kernels t322 8 3 false false) (fresh cfg2 false))
     = Raise NotImplemented
  /\ quantize_fallback echo_kernels t22 t22 2 false 4 1 (fresh cfg2 false)
     = (Raise NotImplemented, fresh cfg2 false)
  /\ is_ok (result_of (quantize echo_kernels t22 8 2 false false) (fresh cfg2 false)) = false
  /\ is_ok (result_of (quantize echo_kernels t22 12 3 false false) (fresh cfg2 false)) = false.
Proof.
  pose proof (fallback_unimplemented_paths echo_kernels
                (state_after (quantize echo_kernels t322 8 3 false false) (fresh cfg2 false))
                t22 t22 t22 t22 t22 t322 [0; 2] None 2 4 8 3 false false None)
    as [_ [A [B _]]].
  pose proof (fallback_unimplemented_paths echo_kernels (fresh cfg2 false)
                t22 t22 t22 t22 t22 t322 [0; 2] None 2 4 4 1 false false None)
    as [_ [_ [_ [C _]]]].
  pose proof (fallback_unimplemented_paths echo_kernels (fresh cfg2 false)
                t22 t22 t22 t22 t22 t322 [0; 2] None 2 4 8 2 false false None)
    as [_ [_ [_ [_ D]]]].
  pose proof (fallback_unimplemented_paths echo_kernels (fresh cfg2 false)
                t22 t22 t22 t22 t22 t322 [0; 2] None 2 4 12 3 false false None)
    as [_ [_ [_ [_ E]]]].
  split; [apply A; reflexivity|].
  split; [apply (B eq_refl bfloat16 [3; 2; 2]); reflexivity|].
  split; [apply C; left; discriminate|].
  split; [apply D; [reflexivity|right; discriminate]|].
  apply E; [reflexivity|left; discriminate].
Defined.

(** ** The shape of a selective dequantization *)

Ltac run_in H := repeat (autorewrite with run in H; cbn [self trace negb fst snd] in H).

Ltac attrs_in H :=
  cbn [self trace q_config is_fallback orig_dtype orig_shape num_groups input_q scale
       set_orig_dtype set_orig_shape set_num_groups set_input_q set_scale] in H.

Lemma bind_inv_ok {A B} (c : M A) (k : A -> M B) w b :
  fst (bind c k w) = Ok b -> exists a w', c w = (Ok a, w') /\ fst (k a w') = Ok b.
Proof.
  unfold bind. destruct (c w) as [[a|e] w']; simpl; intros H.
  - exists a, w'. auto.
  - discriminate.
Qed.

Lemma run_torch_empty_neg {B} s d (k : tensor -> M B) w :
  nonneg_shape s = false ->
  bind (torch_empty s d) k w = (Raise TorchRuntimeError, w).
Proof. intros H. unfold torch_empty. rewrite H. reflexivity. Qed.

Lemma selective_dequantize_func_shape K fp_out input_q idx gs m e w t :
  fst (selective_dequantize_func K fp_out input_q idx gs m e w) = Ok t ->
  shape t = shape fp_out /\ elt t = elt fp_out.
Proof.
  unfold selective_dequantize_func, selective_dequantize_fallback. run.
  destruct (is_fallback (self w)); run; [discriminate|].
  destruct (acc_selective_dequantize _ _ _ _ _ _ _); run; [|discriminate].
  cbv. intros H. injection H as <-. auto.
Qed.

Lemma selective_dequantize_rank K input_q idx fp_out q_bits m sc w s :
  orig_shape (self w) = Some s -> length s <> 3%nat ->
  selective_dequantize K input_q idx fp_out q_bits m sc w = (Raise ShapeMismatch, w).
Proof.
  intros Hs Hl. unfold selective_dequantize. rewrite run_get, Hs.
  destruct (Nat.eqb (length s) 3) eqn:E.
  - apply Nat.eqb_eq in E. contradiction.
  - now run.
Qed.

Lemma selective_dequantize_result_shape K input_q idx q_bits m sc w s d t :
  orig_shape (self w) = Some s -> orig_dtype (self w) = Some d ->
  result_of (selective_dequantize K input_q idx None q_bits m sc) w = Ok t ->
  shape t = Z.of_nat (length idx) :: tl s /\ elt t = d.
Proof.
  intros Hs Hd. unfold result_of, selective_dequantize.
  rewrite run_get, Hs.
  destruct (Nat.eqb (length s) 3); run; [|discriminate].
  rewrite Hd. run.
  destruct (nonneg_shape (Z.of_nat (length idx) :: tl s)) eqn:Hn.
  - rewrite run_torch_empty by assumption. intros H.
    apply bind_inv_ok in H as [m' [w1 [_ H]]]. run_in H.
    apply bind_inv_ok in H as [iq [w2 [_ H]]].
    apply selective_dequantize_func_shape in H. exact H.
  - rewrite run_torch_empty_neg by assumption. discriminate.
Qed.

Lemma selective_dequantize_returns K input_q idx q_bits m w s d :
  is_fallback (self w) = false ->
  orig_shape (self w) = Some s -> orig_dtype (self w) = Some d ->
  length s = 3%nat -> nonneg_shape (tl s) = true ->
  supported_q_bits q_bits = true ->
  (forall o i x g a b, acc_selective_dequantize K o i x g a b <> None) ->
  exists t, result_of (selective_dequantize K input_q idx None q_bits m None) w = Ok t.
Proof.
  intros Hf Hs Hd Hl Hn Hq HK. unfold result_of, selective_dequantize.
  rewrite run_get, Hs, Hl. cbn [Nat.eqb]. run. rewrite Hd. run.
  rewrite run_torch_empty by now apply nonneg_cons_length.
  rewrite (bind_ok _ _ _ _ _ (resolve_supported _ _ _ Hq)). run.
  unfold selective_dequantize_func. run. rewrite Hf.
  match goal with
  | |- context [acc_selective_dequantize K ?o ?i ?x ?g ?a ?b] =>
    destruct (acc_selective_dequantize K o i x g a b) as [l|] eqn:E;
      [|destruct (HK _ _ _ _ _ _ E)]
  end.
  run. eexists. reflexivity.
Qed.

(** C9. [selective_dequantize] raises the shape error, and changes
    nothing, when the tensor that was quantized is not of rank 3.  When it
    is of rank 3 and no output tensor is passed, the tensor it returns has
    the shape [len(indexes), *orig_shape[1:]] and the original element type;
    on the accelerated backend, with a supported [q_bits], no explicit scale
    and a kernel that does not fail, it does return. *)
Theorem selective_dequantize_shape :
  forall K input_q idx fp_out q_bits m sc w s d,
    orig_shape (self w) = Some s -> orig_dtype (self w) = Some d ->
    (length s <> 3%nat ->
     selective_dequantize K input_q idx fp_out q_bits m sc w = (Raise ShapeMismatch, w))
    /\ (forall t,
           result_of (selective_dequantize K input_q idx None q_bits m sc) w = Ok t ->
           shape t = Z.of_nat (length idx) :: tl s /\ elt t = d)
    /\ (length s = 3%nat -> nonneg_shape (tl s) = true ->
        is_fallback (self w) = false -> supported_q_bits q_bits = true ->
        (forall o i x g a b, acc_selective_dequantize K o i x g a b <> None) ->
        exists t,
          result_of (selective_dequantize K input_q idx None q_bits m None) w = Ok t
          /\ shape t = Z.of_nat (length idx) :: tl s /\ elt t = d).
Proof.
  intros K input_q idx fp_out q_bits m sc w s d Hs Hd.
  split; [now apply selective_dequantize_rank|].
  split; [intros t; now apply selective_dequantize_result_shape|].
  intros Hl Hn Hf Hq HK.
  destruct (selective_dequantize_returns K input_q idx q_bits m w s d) as [t Ht];
    try assumption.
  exists t. split; [exact Ht|].
  now apply (selective_dequantize_result_shape K input_q idx q_bits m None w s d).
Qed.

Lemma selective_dequantize_shape_witness :
  selective_dequantize echo_kernels t22 [0; 1] None 8 3 None (after_quantize true)
  = (Raise ShapeMismatch, after_quantize true)
  /\ exists t,
      result_of (selective_dequantize echo_kernels t322 [2; 0; 2; 1] None 8 3 None)
                (state_after (quantize echo_kernels t322 8 3 false false) (fresh cfg2 true))
      = Ok t
      /\ shape t = [4; 2; 2] /\ elt t = bfloat16.
Proof.
  split.
  - apply (selective_dequantize_shape echo_kernels t22 [0; 1] None 8 3 None
                                      (after_quantize true) [2; 2] bfloat16);
      [reflexivity|reflexivity|discriminate].
  - apply (selective_dequantize_shape echo_kernels t322 [2; 0; 2; 1] None 8 3 None
             (state_after (quantize echo_kernels t322 8 3 false false) (fresh cfg2 true))
             [3; 2; 2] bfloat16);
      try reflexivity.
    intros; discriminate.
Defined.

(** ** The element-count check of the meta-tensor mode *)

Lemma dequantize_func_no_shape_mismatch K fp_out input_q gs m e :
  never_raises ShapeMismatch (dequantize_func K fp_out input_q gs m e).
Proof.
  unfold dequantize_func, dequantize_fallback. repeat nr_step.
Qed.

(** The element count of the tensor [dequantize] writes into. *)
Lemma dequantize_numel_mismatch K input_q fp_out q_bits m sc w d s :
  is_fallback (self w) = false ->
  orig_dtype (self w) = Some d -> orig_shape (self w) = Some s ->
  nonneg_shape s = true -> supported_q_bits q_bits = true ->
  numel input_q <> output_numel fp_out s ->
  result_of (dequantize K input_q fp_out q_bits m (Some sc)) w = Raise ShapeMismatch.
Proof.
  intros Hf Hd Hs Hn Hq Hne. unfold output_numel in Hne. unfold result_of, dequantize.
  rewrite run_get, Hd. run.
  destruct fp_out as [t|]; run.
  - rewrite (bind_ok _ _ _ _ _ (resolve_supported _ _ _ Hq)). run. rewrite Hf. run.
    destruct (numel input_q =? numel t) eqn:E; [apply Z.eqb_eq in E; contradiction|].
    now run.
  - rewrite Hs. run. rewrite run_torch_empty by assumption.
    rewrite (bind_ok _ _ _ _ _ (resolve_supported _ _ _ Hq)). run. rewrite Hf. run.
    unfold numel at 2. cbn [shape].
    destruct (numel input_q =? prod_shape s) eqn:E; [apply Z.eqb_eq in E; contradiction|].
    now run.
Qed.

Lemma dequantize_numel_match K input_q fp_out q_bits m sc w d s :
  orig_dtype (self w) = Some d -> orig_shape (self w) = Some s ->
  numel input_q = output_numel fp_out s ->
  result_of (dequantize K input_q fp_out q_bits m (Some sc)) w <> Raise ShapeMismatch.
Proof.
  intros Hd Hs He. unfold output_numel in He. unfold result_of, dequantize.
  rewrite run_get, Hd. run.
  destruct fp_out as [t|]; run.
  - match goal with |- fst (?c w) <> _ => enough (never_raises ShapeMismatch c) as N by apply N end.
    apply nr_bind; [apply nr_resolve; discriminate|intros m'].
    apply nr_bind; [apply nr_get|intros fb].
    apply nr_bind; [apply nr_get|intros cfg].
    apply nr_bind; [|intros iq; apply dequantize_func_no_shape_mismatch].
    destruct (negb fb); [|nr_torch].
    rewrite He, Z.eqb_refl. repeat nr_step.
  - rewrite Hs. run.
    destruct (nonneg_shape s) eqn:Hn;
      [rewrite run_torch_empty by assumption
      |rewrite run_torch_empty_neg by assumption; discriminate].
    match goal with |- fst (?c ?w') <> _ =>
      enough (never_raises ShapeMismatch c) as N by apply N end.
    apply nr_bind; [apply nr_resolve; discriminate|intros m'].
    apply nr_bind; [apply nr_get|intros fb].
    apply nr_bind; [apply nr_get|intros cfg].
    apply nr_bind; [|intros iq; apply dequantize_func_no_shape_mismatch].
    destruct (negb fb); [|nr_torch].
    unfold numel at 2. cbn [shape]. rewrite He, Z.eqb_refl. repeat nr_step.
Qed.

Lemma selective_dequantize_numel_mismatch K input_q idx fp_out q_bits m sc w d s :
  is_fallback (self w) = false ->
  orig_dtype (self w) = Some d -> orig_shape (self w) = Some s ->
  length s = 3%nat -> nonneg_shape (tl s) = true -> supported_q_bits q_bits = true ->
  numel input_q <> output_numel fp_out (Z.of_nat (length idx) :: tl s) ->
  result_of (selective_dequantize K input_q idx fp_out q_bits m (Some sc)) w
  = Raise ShapeMismatch.
Proof.
  intros Hf Hd Hs Hl Hn Hq Hne. unfold output_numel in Hne.
  unfold result_of, selective_dequantize.
  rewrite run_get, Hs, Hl. cbn [Nat.eqb]. run. rewrite Hd. run.
  destruct fp_out as [t|]; run.
  - rewrite (bind_ok _ _ _ _ _ (resolve_supported _ _ _ Hq)). run. rewrite Hf. run.
    destruct (numel input_q =? numel t) eqn:E; [apply Z.eqb_eq in E; contradiction|].
    now run.
  - rewrite run_torch_empty by now apply nonneg_cons_length.
    rewrite (bind_ok _ _ _ _ _ (resolve_supported _ _ _ Hq)). run. rewrite Hf. run.
    unfold numel at 2. cbn [shape].
    destruct (numel input_q =? _) eqn:E; [apply Z.eqb_eq in E; contradiction|].
    now run.
Qed.

Lemma dequantize_fallback_no_shape_mismatch K input_q fp_out q_bits m sc w :
  is_fallback (self w) = true ->
  result_of (dequantize K input_q fp_out q_bits m sc) w <> Raise ShapeMismatch.
Proof.
  intros Hf. unfold result_of, dequantize. rewrite run_get.
  destruct (orig_dtype (self w)) as [d|]; run; [|discriminate].
  assert (forall fo w', is_fallback (self w') = true ->
            fst (bind (resolve_q_mantisa_bits q_bits m)
                  (fun m' =>
                     bind (get is_fallback) (fun fb =>
                     bind (get q_config) (fun cfg =>
                     bind (match sc with
                           | Some sc0 =>
                             if negb fb
                             then
                               bind (assert (numel input_q =? numel fo) ShapeMismatch)
                                    (fun _ =>
                                       bind (lift (reshape_rows input_q (group_size cfg)))
                                            (fun r => lift (cat_last r sc0)))
                             else
                               lift (reshape_rows input_q
                                       (Z.min (group_size cfg) (numel input_q) * q_bits / 8))
                           | None => ret input_q
                           end)
                          (fun iq => dequantize_func K fo iq (group_size cfg) m'
                                                     (q_bits - m' - 1))))) w')
            <> Raise ShapeMismatch) as Tail.
  { intros fo w' Hf'.
    destruct (supported_q_bits q_bits) eqn:Hq.
    - rewrite (bind_ok _ _ _ _ _ (resolve_supported _ _ _ Hq)). run. rewrite Hf'. run.
      match goal with |- fst (?c w') <> _ =>
        enough (never_raises ShapeMismatch c) as N by apply N end.
      apply nr_bind; [|intros iq; apply dequantize_func_no_shape_mismatch].
      destruct sc; repeat nr_step.
    - rewrite (bind_raise _ _ _ _ _ (resolve_unsupported _ _ _ Hq)). discriminate. }
  destruct fp_out as [t|]; run.
  - now apply Tail.
  - destruct (orig_shape (self w)) as [s|]; run; [|discriminate].
    destruct (nonneg_shape s) eqn:Hn.
    + rewrite run_torch_empty by assumption. now apply Tail.
    + rewrite run_torch_empty_neg by assumption. discriminate.
Qed.

(** C4, as the code has it.  On the accelerated backend, once a quantize
    call has been recorded and [q_bits] is supported, a [dequantize] call
    (and a [selective_dequantize] call) with an explicit scale raises the
    shape error exactly when the element count of the quantized input
    differs from that of the output tensor.  On the fallback backend the
    counts are not compared: [dequantize] never raises the shape error. *)
Theorem scale_numel_check :
  forall K input_q idx fp_out q_bits m sc w d s,
    orig_dtype (self w) = Some d -> orig_shape (self w) = Some s ->
    nonneg_shape s = true -> supported_q_bits q_bits = true ->
    (is_fallback (self w) = false ->
     numel input_q <> output_numel fp_out s ->
     result_of (dequantize K input_q fp_out q_bits m (Some sc)) w = Raise ShapeMismatch)
    /\ (numel input_q = output_numel fp_out s ->
        result_of (dequantize K input_q fp_out q_bits m (Some sc)) w <> Raise ShapeMismatch)
    /\ (is_fallback (self w) = false -> length s = 3%nat ->
        numel input_q <> output_numel fp_out (Z.of_nat (length idx) :: tl s) ->
        result_of (selective_dequantize K input_q idx fp_out q_bits m (Some sc)) w
        = Raise ShapeMismatch)
    /\ (is_fallback (self w) = true ->
        result_of (dequantize K input_q fp_out q_bits m (Some sc)) w <> Raise ShapeMismatch).
Proof.
  intros K input_q idx fp_out q_bits m sc w d s Hd Hs Hn Hq.
  split; [intros; now apply (dequantize_numel_mismatch _ _ _ _ _ _ _ d s)|].
  split; [intros; now apply (dequantize_numel_match _ _ _ _ _ _ _ d s)|].
  split; [|intros; now apply dequantize_fallback_no_shape_mismatch].
  intros Hf Hl Hne.
  apply (selective_dequantize_numel_mismatch _ _ _ _ _ _ _ _ d s); try assumption.
  destruct s as [|x s']; [discriminate|]. simpl in Hn. simpl.
  apply andb_true_iff in Hn. apply Hn.
Qed.

Lemma scale_numel_check_witness :
  result_of (dequantize echo_kernels q22 (Some out222) 8 3 (Some scale21)) (after_quantize true)
  = Raise ShapeMismatch
  /\ result_of (dequantize echo_kernels q22 None 8 3 (Some scale21)) (after_quantize true)
     <> Raise ShapeMismatch
  /\ result_of (selective_dequantize echo_kernels q22 [0; 1] None 8 3 (Some scale21))
               (state_after (quantize echo_kernels t322 8 3 false false) (fresh cfg2 true))
     = Raise ShapeMismatch
  /\ result_of (dequantize echo_kernels q22 (Some out222) 8 3 (Some scale21))
               (after_quantize false)
     <> Raise ShapeMismatch.
Proof.
  pose proof (scale_numel_check echo_kernels q22 [0; 1] (Some out222) 8 3 scale21
                                (after_quantize true) bfloat16 [2; 2]
                                eq_refl eq_refl eq_refl eq_refl) as [A _].
  pose proof (scale_numel_check echo_kernels q22 [0; 1] None 8 3 scale21
                                (after_quantize true) bfloat16 [2; 2]
                                eq_refl eq_refl eq_refl eq_refl) as [_ [B _]].
  pose proof (scale_numel_check echo_kernels q22 [0; 1] None 8 3 scale21
                (state_after (quantize echo_kernels t322 8 3 false false) (fresh cfg2 true))
                bfloat16 [3; 2; 2] eq_refl eq_refl eq_refl eq_refl) as [_ [_ [C _]]].
  pose proof (scale_numel_check echo_kernels q22 [0; 1] (Some out222) 8 3 scale21
                                (after_quantize false) bfloat16 [2; 2]
                                eq_refl eq_refl eq_refl eq_refl) as [_ [_ [_ D]]].
  split; [apply A; [reflexivity|vm_compute; discriminate]|].
  split; [apply B; reflexivity|].
  split; [apply C; [reflexivity|reflexivity|vm_compute; discriminate]|].
  apply D; reflexivity.
Defined.

(** C4, as the claim words it, fails on the fallback backend: a quantized
    input of 4 elements, an explicit scale and an output tensor of 8 elements
    make [dequantize] return, the 4 values broadcast over the output. *)
Lemma fallback_dequantize_accepts_numel_mismatch :
  is_fallback (self (after_quantize false)) = true
  /\ numel q22 = 4 /\ numel out222 = 8
  /\ is_ok (result_of (dequantize echo_kernels q22 (Some out222) 8 3 (Some scale21))
                      (after_quantize false)) = true
  /\ result_of (dequantize echo_kernels q22 (Some out222) 8 3 (Some scale21))
               (after_quantize false)
     = Ok (mkTensor [2; 2; 2] bfloat16 (data t22 ++ data t22)).
Proof. repeat split; reflexivity. Qed.

(** ** Group count and buffer shape *)

Lemma obeys_invariant {A} Inv P (Q : A -> Prop) (c : M A) w :
  obeys Inv P Q c -> Inv (self w) -> Inv (self (snd (c w))).
Proof. intros H Hw. apply (H w Hw). Qed.

Lemma obeys_grows {A} Inv P (Q : A -> Prop) (c : M A) w :
  obeys Inv P Q c -> Inv (self w) -> exists l, trace (snd (c w)) = trace w ++ l.
Proof.
  intros H Hw. destruct (H w Hw) as [_ [[l [Hl _]] _]]. exists l. exact Hl.
Qed.

Lemma ceil_div_bounds N G :
  0 < G -> G * ((N + G - 1) / G - 1) < N <= G * ((N + G - 1) / G).
Proof.
  intros HG.
  pose proof (Z.div_mod (N + G - 1) G ltac:(lia)) as E.
  pose proof (Z.mod_pos_bound (N + G - 1) G HG) as B.
  set (q := (N + G - 1) / G) in *. lia.
Qed.

Lemma floor_div_bounds a : 8 * (a / 8) <= a < 8 * (a / 8) + 8.
Proof.
  pose proof (Z.div_mod a 8 ltac:(lia)) as E.
  pose proof (Z.mod_pos_bound a 8 ltac:(lia)) as B. lia.
Qed.

Lemma supported_q_bits_pos q_bits : supported_q_bits q_bits = true -> 0 < q_bits.
Proof. intros H. apply supported_q_bits_table in H. simpl in H. lia. Qed.

(** What follows the allocation in [quantize] keeps the group count. *)
Lemma quantize_tail_keeps_num_groups K ng buf input gs st q_bits m (meta fb : bool) :
  obeys (fun e => num_groups e = Some ng) no_event anything
        (bind (modify (set_input_q (Has buf))) (fun _ =>
         bind (quantize_func K buf input gs st q_bits m) (fun out =>
         bind (modify (set_input_q (Has out))) (fun _ =>
         if meta then
           bind (if negb fb then
                   bind (lift (split_last out gs)) (fun chunks =>
                   bind (unpack2 chunks) (fun p =>
                   bind (modify (set_scale (Some (snd p)))) (fun _ =>
                   lift (reshape (contiguous (fst p)) (shape input)))))
                 else lift (reshape (contiguous out) (shape input))) (fun data_q =>
           bind (get scale) (fun sc =>
           bind (match sc with
                 | Some s => ret (contiguous s)
                 | None => raise AttributeError
                 end) (fun sc =>
           bind (modify (set_scale (Some sc))) (fun _ =>
           bind (modify (set_input_q Missing)) (fun _ =>
           bind (emit EvGcCollect) (fun _ =>
           bind (emit EvEmptyCache) (fun _ =>
           ret (Meta data_q sc))))))))
         else ret (Packed out))))).
Proof.
  unfold quantize_func, quantize_fallback, unpack2.
  repeat obeys_step.
  all: exact I.
Qed.

Lemma quantize_allocation K input q_bits m st meta w :
  elt input = bfloat16 ->
  supported_q_bits q_bits = true ->
  (meta = true -> q_bits = 8) ->
  0 < group_size (q_config (self w)) ->
  1 <= numel input ->
  num_groups (self (state_after (quantize K input q_bits m st meta) w))
  = Some ((numel input + group_size (q_config (self w)) - 1) / group_size (q_config (self w)))
  /\ exists rest,
      trace (state_after (quantize K input q_bits m st meta) w)
      = trace w
        ++ EvAlloc
             [(numel input + group_size (q_config (self w)) - 1)
              / group_size (q_config (self w));
              if is_fallback (self w)
              then Z.min (group_size (q_config (self w))) (numel input) * q_bits / 8
              else Z.min (group_size (q_config (self w))) (numel input) * q_bits / 8 + 4]
             (q_dtype (q_config (self w)))
        :: rest.
Proof.
  intros Hb Hq Hm HG HN. unfold state_after.
  set (G := group_size (q_config (self w))) in *.
  set (N := numel input) in *.
  pose proof (ceil_div_bounds N G HG) as Hc.
  pose proof (floor_div_bounds (Z.min G N * q_bits)) as Hf.
  pose proof (supported_q_bits_pos _ Hq) as Hp.
  assert (0 <= (N + G - 1) / G) as Hng by nia.
  assert (0 <= Z.min G N * q_bits / 8) as HW by nia.
  unfold quantize. rewrite Hb. cbn [dtype_eqb]. run.
  assert (bind (if meta then assert (q_bits =? 8) MetaTensorPrecision else ret tt)
          = bind (ret tt)) as ->.
  { destruct meta; [|reflexivity]. rewrite (Hm eq_refl). reflexivity. }
  run. rewrite (bind_ok _ _ _ _ _ (resolve_supported _ _ _ Hq)). run.
  unfold floordiv. attrs. fold G. fold N.
  assert ((G =? 0) = false) as -> by (apply Z.eqb_neq; lia).
  run. attrs. fold G.
  rewrite run_torch_ones.
  2:{ simpl. destruct (is_fallback (self w)); cbn [negb];
      repeat match goal with
             | |- context [?a <=? ?b] =>
               let E := fresh in destruct (a <=? b) eqn:E; [|apply Z.leb_gt in E; lia]
             end; reflexivity. }
  attrs.
  match goal with
  | |- context [quantize_func K ?buf input ?gs _ _ _] =>
    pose proof (quantize_tail_keeps_num_groups
                  K ((N + G - 1) / G) buf input gs st q_bits
                  (spec_mantissa_bits q_bits m) meta (is_fallback (self w))) as HT
  end.
  split.
  - apply (obeys_invariant _ _ _ _ _ HT). reflexivity.
  - match goal with
    | |- context [snd (?c ?w1)] =>
      destruct (obeys_grows _ _ _ c w1 HT eq_refl) as [l Hl]
    end.
    exists l. rewrite Hl. cbn [trace]. rewrite <- app_assoc.
    destruct (is_fallback (self w)); reflexivity.
Qed.

(** C5. For a bfloat16 input of [N >= 1] elements, a group size [G > 0]
    and a supported [q_bits], [quantize] stores [ceil(N / G)] as the group
    count and its first allocation is the quantized buffer, of shape
    [num_groups, W] on the fallback and [num_groups, W + 4] on the
    accelerated backend, where [W = floor(min(G, N) * q_bits / 8)].  The group
    count and the allocation stand whatever the backend does afterwards. *)
Theorem quantize_buffer_shape :
  forall K input q_bits m st meta w,
    elt input = bfloat16 ->
    supported_q_bits q_bits = true ->
    (meta = true -> q_bits = 8) ->
    0 < group_size (q_config (self w)) ->
    1 <= numel input ->
    exists ng W rest,
      group_size (q_config (self w)) * (ng - 1) < numel input
      /\ numel input <= group_size (q_config (self w)) * ng
      /\ 8 * W <= Z.min (group_size (q_config (self w))) (numel input) * q_bits
      /\ Z.min (group_size (q_config (self w))) (numel input) * q_bits < 8 * W + 8
      /\ num_groups (self (state_after (quantize K input q_bits m st meta) w)) = Some ng
      /\ new_events (quantize K input q_bits m st meta) w
         = EvAlloc [ng; if is_fallback (self w) then W else W + 4]
                   (q_dtype (q_config (self w)))
           :: rest.
Proof.
  intros K input q_bits m st meta w Hb Hq Hm HG HN.
  destruct (quantize_allocation K input q_bits m st meta w Hb Hq Hm HG HN)
    as [Hng [rest Ht]].
  exists ((numel input + group_size (q_config (self w)) - 1) / group_size (q_config (self w))).
  exists (Z.min (group_size (q_config (self w))) (numel input) * q_bits / 8).
  exists rest.
  pose proof (ceil_div_bounds (numel input) _ HG) as Hc.
  pose proof (floor_div_bounds (Z.min (group_size (q_config (self w))) (numel input) * q_bits))
    as Hf.
  repeat split; try tauto.
  now apply new_events_app.
Qed.

Lemma quantize_buffer_shape_witness :
  exists ng W rest,
    2 * (ng - 1) < 12 /\ 12 <= 2 * ng
    /\ 8 * W <= 2 * 6 /\ 2 * 6 < 8 * W + 8
    /\ num_groups (self (state_after (quantize echo_kernels t322 6 3 false false)
                                     (fresh cfg2 true))) = Some ng
    /\ new_events (quantize echo_kernels t322 6 3 false false) (fresh cfg2 true)
       = EvAlloc [ng; W + 4] float8_e4m3fn :: rest.
Proof.
  apply (quantize_buffer_shape echo_kernels t322 6 3 false false (fresh cfg2 true)).
  - reflexivity.
  - reflexivity.
  - discriminate.
  - reflexivity.
  - vm_compute. discriminate.
Defined.

(** The scenario of the specification: 1024 elements in groups of 512 at 4
    bits give 2 groups of 256 bytes, and 4 more bytes per row on the
    accelerated backend. *)
Example quantize_1024_elements_4_bits :
  new_events (quantize echo_kernels (mkTensor [1024] bfloat16 []) 4 3 false false)
             (fresh (mkConfig 512 uint8 float8_e4m3fn) false)
  = [EvAlloc [2; 256] uint8; EvQuantize 256 false 4 1]
  /\ hd EvGcCollect
        (new_events (quantize echo_kernels (mkTensor [1024] bfloat16 []) 4 3 false false)
                    (fresh (mkConfig 512 uint8 float8_e4m3fn) true))
     = EvAlloc [2; 260] uint8.
Proof. split; reflexivity. Qed.

(** ** The scale of the fallback *)

Lemma length_rows_of {A} r c (l : list A) : length (rows_of r c l) = r.
Proof. revert l. induction r; intros l; simpl; [reflexivity|]. now rewrite IHr. Qed.

Lemma nth_rows_of {A} r c (l : list A) i :
  (i < r)%nat -> nth i (rows_of r c l) [] = firstn c (skipn (i * c) l).
Proof.
  revert l i. induction r as [|r IH]; intros l i Hi; [lia|].
  destruct i as [|i]; simpl.
  - reflexivity.
  - rewrite IH by lia. rewrite skipn_skipn. f_equal. f_equal. lia.
Qed.

Lemma rows_of_map {A B} (f : A -> B) r c l :
  rows_of r c (map f l) = map (map f) (rows_of r c l).
Proof.
  revert l. induction r as [|r IH]; intros l; simpl; [reflexivity|].
  rewrite firstn_map, skipn_map, IH. reflexivity.
Qed.

Lemma rows_of_full {A} r c (l : list A) x :
  (r * c <= length l)%nat -> In x (rows_of r c l) -> length x = c.
Proof.
  revert l. induction r as [|r IH]; intros l Hl Hin; simpl in *; [contradiction|].
  destruct Hin as [<-|Hin].
  - rewrite length_firstn. lia.
  - apply (IH (skipn c l)); [|exact Hin]. rewrite length_skipn. lia.
Qed.

Lemma max_abs_map_float row :
  max_abs (map (fun v => Flt (to_f32 v)) row) = max_abs row.
Proof.
  unfold max_abs. rewrite map_map. reflexivity.
Qed.

Lemma max_abs_nonempty row : row <> [] -> max_abs row = Some (max_abs_or_nan row).
Proof.
  unfold max_abs_or_nan, max_abs. destruct row; [congruence|]. reflexivity.
Qed.

Lemma sequence_opt_max_abs rows :
  (forall r, In r rows -> r <> []) ->
  sequence_opt (map max_abs rows) = Some (map max_abs_or_nan rows).
Proof.
  induction rows as [|r rows IH]; intros H; simpl; [reflexivity|].
  rewrite (max_abs_nonempty r) by (apply H; now left).
  rewrite IH by (intros x Hx; apply H; now right). reflexivity.
Qed.

(** *** The maximum of a group *)

Ltac float_cases x y :=
  destruct x as [[|]|[|]| |[|] ? ?], y as [[|]|[|]| |[|] ? ?];
  simpl; intros Hx Hy; try discriminate; try contradiction.

Lemma SFleb_key x y :
  magnitude x -> magnitude y ->
  (SFleb x y = true <-> key_le (float_key x) (float_key y)).
Proof.
  unfold SFleb. revert x y. intros x y. float_cases x y;
    try (split; intros; try lia; try reflexivity; discriminate).
  destruct (Z.compare_spec e e0) as [E|E|E].
  - subst. change (Pos.compare_cont Eq m m0) with (m ?= m0)%positive.
    destruct (Pos.compare_spec m m0) as [E|E|E]; split; intros H;
      try reflexivity; try discriminate; try lia.
  - split; intros; [lia|reflexivity].
  - split; intros; [discriminate|lia].
Qed.

Lemma SFltb_key x y :
  magnitude x -> magnitude y ->
  (SFltb x y = true <-> ~ key_le (float_key y) (float_key x)).
Proof.
  unfold SFltb. float_cases x y;
    try (split; intros; try lia; try reflexivity; discriminate).
  destruct (Z.compare_spec e e0) as [E|E|E].
  - subst. change (Pos.compare_cont Eq m m0) with (m ?= m0)%positive.
    destruct (Pos.compare_spec m m0) as [E|E|E]; split; intros H;
      try reflexivity; try discriminate; try lia.
  - split; intros; [lia|reflexivity].
  - split; intros; [discriminate|lia].
Qed.

Lemma SFeqb_refl x : magnitude x -> SFeqb x x = true.
Proof.
  unfold SFeqb. destruct x as [[|]|[|]| |[|] m e]; simpl; intros H;
    try discriminate; try contradiction; try reflexivity.
  rewrite Z.compare_refl. change (Pos.compare_cont Eq m m) with (m ?= m)%positive.
  now rewrite Pos.compare_refl.
Qed.

Lemma key_le_refl k : key_le k k.
Proof. destruct k as [[a b] c]. simpl. lia. Qed.

Lemma key_le_trans a b c : key_le a b -> key_le b c -> key_le a c.
Proof. destruct a as [[? ?] ?], b as [[? ?] ?], c as [[? ?] ?]. simpl. lia. Qed.

Lemma key_le_total a b : key_le a b \/ key_le b a.
Proof. destruct a as [[? ?] ?], b as [[? ?] ?]. simpl. lia. Qed.

Lemma f32_max_magnitude x y :
  magnitude x -> magnitude y ->
  magnitude (f32_max x y)
  /\ (f32_max x y = x \/ f32_max x y = y)
  /\ key_le (float_key x) (float_key (f32_max x y))
  /\ key_le (float_key y) (float_key (f32_max x y)).
Proof.
  intros Hx Hy.
  assert (f32_max x y = if SFltb x y then y else x) as ->.
  { destruct x, y; try contradiction; reflexivity. }
  destruct (SFltb x y) eqn:E.
  - apply SFltb_key in E; [|assumption..].
    repeat split; auto using key_le_refl.
    destruct (key_le_total (float_key x) (float_key y)); tauto.
  - repeat split; auto using key_le_refl.
    destruct (key_le_total (float_key y) (float_key x)) as [H|H]; [exact H|].
    assert (SFltb x y <> true) as N by congruence.
    rewrite SFltb_key in N by assumption.
    destruct (float_key x) as [[? ?] ?], (float_key y) as [[? ?] ?]. simpl in *. lia.
Qed.

(** The fold of [max_abs] over magnitudes: the result is one of them and
    no other is larger. *)
Lemma fold_f32_max_magnitude r : forall x,
  magnitude x -> Forall magnitude r ->
  magnitude (fold_left f32_max r x)
  /\ In (fold_left f32_max r x) (x :: r)
  /\ forall y, In y (x :: r) -> key_le (float_key y) (float_key (fold_left f32_max r x)).
Proof.
  induction r as [|z r IH]; intros x Hx Hr.
  - simpl. repeat split; auto. intros y [<-|[]]. apply key_le_refl.
  - inversion Hr as [|? ? Hz Hr']; subst.
    destruct (f32_max_magnitude x z Hx Hz) as [Hm [Hc [Hlx Hlz]]].
    destruct (IH _ Hm Hr') as [Hm' [Hin Hle]].
    cbn [fold_left]. split; [exact Hm'|split].
    + destruct Hin as [Hin|Hin]; [|right; right; exact Hin].
      rewrite <- Hin. destruct Hc as [->| ->]; [left|right; left]; reflexivity.
    + intros y [<-|[<-|Hy]].
      * eapply key_le_trans; [exact Hlx|]. apply Hle. now left.
      * eapply key_le_trans; [exact Hlz|]. apply Hle. now left.
      * apply Hle. now right.
Qed.

Lemma fold_f32_max_nan r : fold_left f32_max r S754_nan = S754_nan.
Proof. induction r; simpl; auto. Qed.

Lemma f32_max_is_nan x y : is_nan (f32_max x y) = is_nan x || is_nan y.
Proof.
  destruct x, y; try reflexivity; unfold f32_max; destruct (SFltb _ _); reflexivity.
Qed.

Lemma fold_f32_max_has_nan r : forall x,
  existsb is_nan (x :: r) = true -> fold_left f32_max r x = S754_nan.
Proof.
  induction r as [|z r IH]; intros x H.
  - simpl in *. destruct x; try discriminate. reflexivity.
  - cbn [fold_left]. apply IH. cbn [existsb] in *.
    rewrite f32_max_is_nan, <- orb_assoc. exact H.
Qed.

Lemma SFabs_magnitude x : is_nan x = false -> magnitude (SFabs x).
Proof. destruct x; simpl; intros; try discriminate; reflexivity. Qed.

Lemma SFabs_nan x : is_nan (SFabs x) = is_nan x.
Proof. destruct x; reflexivity. Qed.

(** [max_abs] computes the maximum of the absolute values: a NaN when the
    row holds one, and otherwise the absolute value of an element of the row
    that no other exceeds. *)
Lemma max_abs_spec row mx : max_abs row = Some mx -> is_max_abs row mx = true.
Proof.
  unfold max_abs, is_max_abs.
  destruct (map (fun v => SFabs (to_f32 v)) row) as [|x r] eqn:El; [discriminate|].
  intros H. injection H as <-.
  assert (existsb is_nan (x :: r) = existsb (fun v => is_nan (to_f32 v)) row) as En.
  { rewrite <- El. clear. induction row as [|v row IH]; [reflexivity|].
    cbn [map existsb]. rewrite SFabs_nan, IH. reflexivity. }
  destruct (existsb (fun v => is_nan (to_f32 v)) row) eqn:E.
  - rewrite fold_f32_max_has_nan by exact En. reflexivity.
  - assert (Forall magnitude (x :: r)) as Hall.
    { rewrite <- El. apply Forall_forall. intros y Hy.
      apply in_map_iff in Hy as [v [<- Hv]]. apply SFabs_magnitude.
      destruct (is_nan (to_f32 v)) eqn:Ev; [|reflexivity].
      assert (existsb (fun v => is_nan (to_f32 v)) row = true) as C
        by (apply existsb_exists; eauto). congruence. }
    inversion Hall as [|? ? Hx Hr]; subst.
    destruct (fold_f32_max_magnitude r x Hx Hr) as [Hm [Hin Hle]].
    apply andb_true_iff. split.
    + rewrite <- El in Hin. apply in_map_iff in Hin as [v [Hv Hin]].
      apply existsb_exists. exists v. split; [exact Hin|].
      rewrite Hv. now apply SFeqb_refl.
    + apply forallb_forall. intros v Hv.
      assert (In (SFabs (to_f32 v)) (x :: r)) as Hi
        by (rewrite <- El; now apply (in_map (fun v => SFabs (to_f32 v)))).
      apply SFleb_key; [|exact Hm|now apply Hle].
      rewrite Forall_forall in Hall. now apply Hall.
Qed.

(** *** Views *)

(** A view that succeeds shows the elements of the tensor in the new shape. *)
Lemma view_ok_inv t s :
  is_ok (view t s) = true ->
  nonneg_shape s = true /\ prod_shape s = numel t
  /\ exists lay, view t s = Ok (mkTensorL s (elt t) (data t) lay).
Proof.
  unfold view. destruct (nonneg_shape s) eqn:E1; [|discriminate].
  destruct (prod_shape s =? numel t) eqn:E2; [|discriminate].
  apply Z.eqb_eq in E2. cbn [andb]. intros H. split; [reflexivity|split; [exact E2|]].
  destruct (layout t); [eexists; reflexivity|].
  destruct (view_strides _ _ _); [eexists; reflexivity|discriminate].
Qed.

(** A contiguous tensor can be viewed in every shape of its size. *)
Lemma view_contiguous t s :
  layout t = Contiguous -> nonneg_shape s = true -> prod_shape s = numel t ->
  view t s = Ok (mkTensor s (elt t) (data t)).
Proof.
  intros Hl Hs Hn. unfold view. rewrite Hs, Hn, Z.eqb_refl, Hl. reflexivity.
Qed.

(** A contiguous input of [N] elements can be viewed as the groups of
    [quantize] when [N] is not above the group size or is a multiple of it. *)
Lemma contiguous_input_views input G ng :
  layout input = Contiguous ->
  0 < G -> 1 <= numel input ->
  G * (ng - 1) < numel input -> numel input <= G * ng ->
  numel input <= G \/ numel input mod G = 0 ->
  is_ok (view input [ng; Z.min G (numel input)]) = true.
Proof.
  intros Hl HG HN Hlo Hhi Hcase.
  rewrite view_contiguous; [reflexivity|exact Hl| |].
  - simpl. destruct (0 <=? ng) eqn:E1; [|apply Z.leb_gt in E1; nia].
    destruct (0 <=? Z.min G (numel input)) eqn:E2; [|apply Z.leb_gt in E2; lia].
    reflexivity.
  - cbn [prod_shape fold_right]. rewrite Z.mul_1_r.
    destruct Hcase as [Hle|Hmod].
    + assert (ng = 1) as -> by nia. lia.
    + apply Z.div_exact in Hmod; [|lia].
      destruct (Z.le_gt_cases (numel input) G) as [Hle|Hgt].
      * assert (ng = 1) as -> by nia. lia.
      * rewrite Z.min_l by lia.
        assert (ng = numel input / G) as -> by nia. lia.
Qed.

Lemma fallback_scale_nth qmax ng gs l i :
  (i < Z.to_nat ng)%nat ->
  nth i (data (fallback_scale qmax ng gs l)) (Flt S754_nan)
  = Flt (rtruediv qmax (max_abs_or_nan (group_of (Z.to_nat gs) l i))).
Proof.
  intros Hi. unfold fallback_scale, rdiv. cbn [data]. rewrite !map_map. cbn [to_f32].
  rewrite (nth_indep _ _ (Flt (rtruediv qmax (max_abs_or_nan []))))
    by (now rewrite length_map, length_rows_of).
  rewrite (map_nth (fun r => Flt (rtruediv qmax (max_abs_or_nan r)))).
  rewrite nth_rows_of by assumption. reflexivity.
Qed.

(** The largest absolute values of the rows of a view in [ng] full rows. *)
Lemma abs_max_dim1_of_view ng gs d l lay :
  0 <= ng -> 0 < gs -> length l = Z.to_nat (ng * gs) ->
  abs_max_dim1 (float_ (mkTensorL [ng; gs] d l lay))
  = Ok (mkTensor [ng; 1] float32
                 (map Flt (map max_abs_or_nan (rows_of (Z.to_nat ng) (Z.to_nat gs) l)))).
Proof.
  intros Hn Hg Hlen. unfold abs_max_dim1, float_. cbn [shape data elt].
  assert ((gs =? 0) = false) as -> by (apply Z.eqb_neq; lia).
  rewrite rows_of_map, map_map.
  rewrite (map_ext _ max_abs max_abs_map_float).
  rewrite sequence_opt_max_abs; [reflexivity|].
  intros r Hr E. apply rows_of_full in Hr; [|rewrite Hlen; nia].
  subst r. simpl in Hr. lia.
Qed.

(** [quantize_fallback] on a [val] that can be viewed as [ng] groups of [gs]
    elements: the scale is stored, then the cast kernel runs on the widened
    view and the scale, and its output is copied into [out]. *)
Lemma quantize_fallback_run K out val gs st w ng qmax v :
  num_groups (self w) = Some ng ->
  0 < gs ->
  view val [ng; gs] = Ok v ->
  length (data val) = Z.to_nat (numel val) ->
  (device_is_gaudi2 K = true -> q_range_dtype (q_config (self w)) = float8_e4m3fnuz) ->
  finfo_max (q_range_dtype (q_config (self w))) = Ok qmax ->
  quantize_fallback K out val gs st 8 3 w
  = (match hpu_cast_to_fp8_v2 K (float_ v) (fallback_scale qmax ng gs (data val)) st
                              (q_dtype (q_config (self w))) with
     | Some q => copy_ out (mkTensor [ng; gs] (q_dtype (q_config (self w))) q)
     | None => Raise BackendError
     end,
     mkWorld (set_scale (Some (fallback_scale qmax ng gs (data val))) (self w)) (trace w)).
Proof.
  intros Hng Hg Hv Hlen Hdev Hmax. unfold quantize_fallback.
  cbn [Z.eqb Pos.eqb]. run.
  assert (bind (if device_is_gaudi2 K
                then assert (dtype_eqb (q_range_dtype (q_config (self w))) float8_e4m3fnuz)
                            Gaudi2Dtype
                else ret tt) = bind (ret tt)) as ->.
  { destruct (device_is_gaudi2 K); [|reflexivity]. rewrite (Hdev eq_refl). reflexivity. }
  run. rewrite Hng. run.
  assert (is_ok (view val [ng; gs]) = true) as Hok by (now rewrite Hv).
  destruct (view_ok_inv _ _ Hok) as [Hs [Hnum [lay Hv']]].
  rewrite Hv in Hv'. injection Hv' as ->. rewrite Hv.
  cbn [prod_shape fold_right] in Hnum. rewrite Z.mul_1_r in Hnum.
  simpl in Hs. apply andb_true_iff in Hs as [Hs _]. apply Z.leb_le in Hs.
  run. rewrite abs_max_dim1_of_view by (rewrite ?Hlen, ?Hnum; lia).
  run. rewrite Hmax. run.
  fold (fallback_scale qmax ng gs (data val)).
  match goal with
  | |- context [of_kernel ?o] => destruct o
  end; run; reflexivity.
Qed.

(** The scale tensor that [quantize_fallback] stores, for a [val] that can
    be viewed as [ng] groups of [gs] elements. *)
Lemma quantize_fallback_scale K out val gs st w ng qmax :
  num_groups (self w) = Some ng ->
  0 < gs ->
  is_ok (view val [ng; gs]) = true ->
  length (data val) = Z.to_nat (numel val) ->
  (device_is_gaudi2 K = true -> q_range_dtype (q_config (self w)) = float8_e4m3fnuz) ->
  finfo_max (q_range_dtype (q_config (self w))) = Ok qmax ->
  scale (self (state_after (quantize_fallback K out val gs st 8 3) w))
  = Some (fallback_scale qmax ng gs (data val)).
Proof.
  intros Hng Hg Hview Hlen Hdev Hmax. unfold state_after.
  destruct (view val [ng; gs]) as [v|] eqn:Hv; [|discriminate].
  rewrite (quantize_fallback_run K out val gs st w ng qmax v) by assumption.
  reflexivity.
Qed.

Lemma bind_keeps {A B} (Inv : FP_Quantize -> Prop) P (Q : B -> Prop)
      (c : M A) (k : A -> M B) w :
  Inv (self (snd (c w))) -> (forall a, obeys Inv P Q (k a)) ->
  Inv (self (snd (bind c k w))).
Proof.
  intros Hc Hk. unfold bind. destruct (c w) as [[a|e] w'] eqn:E; simpl in *.
  - apply (obeys_invariant _ _ _ _ _ (Hk a) Hc).
  - exact Hc.
Qed.

Lemma contiguous_id t : layout t = Contiguous -> contiguous t = t.
Proof. destruct t as [s d l lay]. unfold contiguous. simpl. now intros ->. Qed.

(** What follows the backend call in [quantize], on the fallback, keeps the
    scale the backend stored. *)
Lemma quantize_after_fallback_keeps_scale sc input (meta : bool) out :
  layout sc = Contiguous ->
  obeys (fun e => scale e = Some sc) no_event anything
        (bind (modify (set_input_q (Has out))) (fun _ =>
         if meta then
           bind (lift (reshape (contiguous out) (shape input))) (fun data_q =>
           bind (get scale) (fun s =>
           bind (match s with
                 | Some s => ret (contiguous s)
                 | None => raise AttributeError
                 end) (fun s =>
           bind (modify (set_scale (Some s))) (fun _ =>
           bind (modify (set_input_q Missing)) (fun _ =>
           bind (emit EvGcCollect) (fun _ =>
           bind (emit EvEmptyCache) (fun _ =>
           ret (Meta data_q s))))))))
         else ret (Packed out))).
Proof.
  intros Hsc.
  obeys_step. destruct meta; [|apply obeys_ret; exact I].
  obeys_step. apply obeys_get_bind. intros e He. rewrite He.
  apply obeys_ret_bind. rewrite (contiguous_id _ Hsc).
  eapply obeys_then; [apply obeys_modify; intros e' _; reflexivity|intros ?].
  repeat obeys_step. all: exact I.
Qed.

(** The group count of [quantize]: the least [ng] with [N <= G * ng]. *)
Lemma ceil_div_unique N G ng :
  0 < G -> G * (ng - 1) < N -> N <= G * ng -> (N + G - 1) / G = ng.
Proof.
  intros HG H1 H2. symmetry. apply (Z.div_unique_pos _ _ _ (N + G - 1 - G * ng)); lia.
Qed.

(** C7. On the fallback backend [quantize], at 8 bits with 3 mantissa
    bits, stores one scale per group, for every input that can be viewed as
    [num_groups] rows of [min(group_size, N)] elements (a contiguous input
    of a size below the group size, or a multiple of it): the scale of
    group [i] is [q_range / max_vals] at row [i], where [q_range] is the
    largest finite value of the configured [q_range_dtype] and [max_vals]
    the largest absolute value of the group widened to 32-bit floats.  The
    quotient is the one torch computes for a number divided by a tensor:
    the rounded reciprocal of the maximum, times [q_range], rounded.  The
    scale is stored before the values are cast, so it is there whatever the
    cast does. *)
Theorem fallback_scale_per_group :
  forall K input st meta w ng qmax,
    is_fallback (self w) = true ->
    elt input = bfloat16 ->
    0 < group_size (q_config (self w)) ->
    1 <= numel input ->
    group_size (q_config (self w)) * (ng - 1) < numel input ->
    numel input <= group_size (q_config (self w)) * ng ->
    is_ok (view input [ng; Z.min (group_size (q_config (self w))) (numel input)]) = true ->
    length (data input) = Z.to_nat (numel input) ->
    (device_is_gaudi2 K = true -> q_range_dtype (q_config (self w)) = float8_e4m3fnuz) ->
    finfo_max (q_range_dtype (q_config (self w))) = Ok qmax ->
    exists sc,
      scale (self (state_after (quantize K input 8 3 st meta) w)) = Some sc
      /\ shape sc = [ng; 1] /\ elt sc = float32
      /\ forall i, (i < Z.to_nat ng)%nat ->
           exists mx,
             max_abs (group_of (Z.to_nat (Z.min (group_size (q_config (self w)))
                                                (numel input)))
                               (data input) i) = Some mx
             /\ is_max_abs (group_of (Z.to_nat (Z.min (group_size (q_config (self w)))
                                                      (numel input)))
                                     (data input) i) mx = true
             /\ nth i (data sc) (Flt S754_nan) = Flt (rtruediv qmax mx).
Proof.
  intros K input st meta w ng qmax Hf Hb HG HN Hlo Hhi Hview Hlen Hdev Hmax.
  set (G := group_size (q_config (self w))) in *.
  set (gs := Z.min G (numel input)) in *.
  assert (0 < gs) as Hgs by (unfold gs; lia).
  destruct (view_ok_inv _ _ Hview) as [Hs [Hnum _]].
  cbn [prod_shape fold_right] in Hnum. rewrite Z.mul_1_r in Hnum.
  assert (1 <= ng) as Hn by nia.
  exists (fallback_scale qmax ng gs (data input)).
  split; [|split; [reflexivity|split; [reflexivity|]]].
  - unfold state_after, quantize. rewrite Hb. cbn [dtype_eqb]. run.
    assert (bind (if meta then assert (8 =? 8) MetaTensorPrecision else ret tt)
            = bind (ret tt)) as -> by (destruct meta; reflexivity).
    run. cbn [resolve_q_mantisa_bits Z.eqb Pos.eqb]. run.
    unfold floordiv. attrs. fold G.
    assert ((G =? 0) = false) as -> by (apply Z.eqb_neq; lia).
    run. attrs. fold G. rewrite Hf. cbn [negb].
    rewrite (ceil_div_unique _ _ ng) by assumption.
    fold gs. rewrite Z.div_mul by lia.
    rewrite run_torch_ones.
    2:{ simpl. destruct (0 <=? ng) eqn:E1; [|apply Z.leb_gt in E1; lia].
        destruct (0 <=? gs) eqn:E2; [|apply Z.leb_gt in E2; lia]. reflexivity. }
    run. unfold quantize_func. run. attrs. rewrite Hf.
    apply (bind_keeps (fun e => scale e = Some _) no_event anything).
    + apply (quantize_fallback_scale K _ input gs st _ ng qmax); attrs; auto.
    + intros out. now apply quantize_after_fallback_keeps_scale.
  - intros i Hi.
    exists (max_abs_or_nan (group_of (Z.to_nat gs) (data input) i)).
    assert (length (group_of (Z.to_nat gs) (data input) i) = Z.to_nat gs) as Hrow.
    { unfold group_of. rewrite length_firstn, length_skipn, Hlen, <- Hnum. nia. }
    assert (max_abs (group_of (Z.to_nat gs) (data input) i)
            = Some (max_abs_or_nan (group_of (Z.to_nat gs) (data input) i))) as Hm.
    { apply max_abs_nonempty. intros E. rewrite E in Hrow. simpl in Hrow. lia. }
    split; [exact Hm|split].
    + now apply max_abs_spec.
    + now apply fallback_scale_nth.
Qed.

Lemma fallback_scale_per_group_witness :
  exists sc,
    scale (self (state_after (quantize echo_kernels t22 8 3 false false) (fresh cfg2 false)))
    = Some sc
    /\ shape sc = [2; 1] /\ elt sc = float32
    /\ forall i, (i < 2)%nat ->
         exists mx,
           max_abs (group_of 2 (data t22) i) = Some mx
           /\ is_max_abs (group_of 2 (data t22) i) mx = true
           /\ nth i (data sc) (Flt S754_nan) = Flt (rtruediv (f32_of_Z 448) mx).
Proof.
  apply (fallback_scale_per_group echo_kernels t22 false false (fresh cfg2 false)
                                  2 (f32_of_Z 448)).
  - reflexivity.
  - reflexivity.
  - reflexivity.
  - vm_compute. discriminate.
  - reflexivity.
  - vm_compute. discriminate.
  - reflexivity.
  - reflexivity.
  - discriminate.
  - reflexivity.
Defined.

(** An input shorter than the group size makes one group of its own size. *)
Example scale_of_a_short_input :
  scale (self (state_after
                 (quantize echo_kernels
                           (mkTensor [3] bfloat16
                                     [Flt (f32_of_Z 2); Flt (f32_of_Z (-8)); Flt (f32_of_Z 4)])
                           8 3 false false)
                 (fresh (mkConfig 512 float8_e4m3fn float8_e4m3fn) false)))
  = Some (mkTensor [1; 1] float32 [Flt (f32_of_Z 56)]).
Proof. reflexivity. Qed.

(** The groups (1, -3) and (0, 7) of [t22] get the scales 448/3 and
    448/7 = 64.  With the reciprocal rounded first, the scale of the first
    group is 9786710 * 2^-16, one unit in the last place above the correctly
    rounded quotient; a group of zeros gets an infinite scale. *)
Example scale_of_t22 :
  scale (self (after_quantize false))
  = Some (mkTensor [2; 1] float32
                   [Flt (S754_finite false 9786710 (-16)); Flt (f32_of_Z 64)])
  /\ f32_div (f32_of_Z 448) (f32_of_Z 3) = S754_finite false 9786709 (-16)
  /\ rtruediv (f32_of_Z 448) (S754_zero false) = S754_infinity false.
Proof. repeat split; reflexivity. Qed.

(** A transposed input has the size of a contiguous one, but its strides
    admit no view in rows of two: [quantize] raises and stores no scale. *)
Example quantize_of_a_transposed_input :
  is_ok (view (mkTensorL [2; 4] bfloat16 (repeat (Flt f32_one) 8) (Strided [1; 2])) [4; 2])
  = false
  /\ quantize echo_kernels (mkTensorL [2; 4] bfloat16 (repeat (Flt f32_one) 8) (Strided [1; 2]))
              8 3 false false (fresh cfg2 false)
     = (Raise TorchRuntimeError,
        mkWorld (mkEngine true cfg2 (Some bfloat16) (Some [2; 4]) (Some 4)
                          (Has (mkTensor [4; 2] float8_e4m3fn (repeat (Flt f32_one) 8)))
                          None)
                [EvAlloc [4; 2] float8_e4m3fn; EvQuantize 2 false 8 3]).
Proof. split; reflexivity. Qed.

(** ** The meta-tensor mode *)

(** Splitting a buffer at its own width yields a single chunk. *)
Lemma split_last_whole t r sz chunks :
  shape t = [r; sz] -> 0 <= sz ->
  split_last t sz = Ok chunks -> length chunks = 1%nat.
Proof.
  intros Hs Hz. unfold split_last. rewrite Hs. unfold last_dim. cbn [last].
  destruct (sz <? 0) eqn:E; [apply Z.ltb_lt in E; lia|].
  destruct (sz =? 0) eqn:E0.
  - cbn [andb negb]. intros H. injection H as <-. reflexivity.
  - cbn [andb]. apply Z.eqb_neq in E0.
    assert ((sz + sz - 1) / sz = 1) as ->.
    { symmetry. apply (Z.div_unique_pos _ _ 1 (sz - 1)); lia. }
    intros H. injection H as <-. reflexivity.
Qed.

Lemma quantize_meta_never_returns_on_accelerated K cfg input q_bits m st :
  obeys (configured cfg false) no_event (fun _ => False)
        (quantize K input q_bits m st true).
Proof.
  unfold quantize, quantize_func, floordiv, unpack2.
  repeat obeys_step.
  all: try exact I.
  all: exfalso; cbv beta in *;
    match goal with
    | Hn : nonneg_shape [_; ?gs] = true, H : split_last _ ?gs = Ok _ |- _ =>
      subst;
      eapply (split_last_whole _ _ gs) in H; [discriminate H|reflexivity|];
      simpl in Hn; apply andb_true_iff in Hn as [_ Hn];
      apply andb_true_iff in Hn as [Hn _]; now apply Z.leb_le
    end.
Qed.

(** C2, on the accelerated backend: [quantize] with [return_meta_tensor]
    never returns a pair.  The buffer is [group_size] columns wide, with
    [group_size] already counting the 4 scale bytes, and splitting it every
    [group_size] columns gives one chunk where the assignment expects two. *)
Theorem quantize_meta_fails_on_accelerated :
  forall K input q_bits m st w,
    is_fallback (self w) = false ->
    is_ok (result_of (quantize K input q_bits m st true) w) = false.
Proof.
  intros K input q_bits m st w Hf. eapply obeys_not_ok.
  - apply quantize_meta_never_returns_on_accelerated.
  - rewrite <- Hf. apply configured_self.
Qed.

Lemma quantize_meta_fails_on_accelerated_witness :
  is_ok (result_of (quantize echo_kernels t22 8 3 false true) (fresh cfg2 true)) = false.
Proof.
  apply (quantize_meta_fails_on_accelerated echo_kernels t22 8 3 false (fresh cfg2 true)).
  reflexivity.
Defined.

(** The failing call: a 2 x 2 bfloat16 tensor in groups of 2 on the
    accelerated backend.  The buffer is 2 x 6, the split yields one chunk,
    and the unpacking raises. *)
Example quantize_meta_t22_accelerated :
  result_of (quantize echo_kernels t22 8 3 false true) (fresh cfg2 true) = Raise ValueError
  /\ new_events (quantize echo_kernels t22 8 3 false true) (fresh cfg2 true)
     = [EvAlloc [2; 6] float8_e4m3fn; EvQuantize 6 false 8 3]
  /\ option_map (@length tensor)
                (match split_last (mkTensor [2; 6] uint8 (repeat (Int 1) 12)) 6 with
                 | Ok l => Some l
                 | Raise _ => None
                 end) = Some 1%nat
  /\ option_map (map shape)
                (match split_last (mkTensor [2; 6] uint8 (repeat (Int 1) 12)) 2 with
                 | Ok l => Some l
                 | Raise _ => None
                 end) = Some [[2; 2]; [2; 2]; [2; 2]].
Proof. repeat split; reflexivity. Qed.

(** On the fallback the meta-tensor mode does return: the data has the shape
    of the input, the scale has one row per group, and [dequantize] with that
    pair gives back a tensor of the original shape and element type. *)
Example quantize_meta_t22_fallback :
  match result_of (quantize echo_kernels t22 8 3 false true) (fresh cfg2 false) with
  | Ok (Meta d sc) =>
    shape d = shape t22 /\ shape sc = [2; 1]
    /\ option_map (fun t => (shape t, elt t))
                  (match result_of (dequantize echo_kernels d None 8 3 (Some sc))
                                   (state_after (quantize echo_kernels t22 8 3 false true)
                                                (fresh cfg2 false)) with
                   | Ok t => Some t
                   | Raise _ => None
                   end)
       = Some ([2; 2], bfloat16)
  | _ => False
  end.
Proof. repeat split; reflexivity. Qed.

(** * Further properties of the quantizer *)

(** ** What the methods leave alone *)

Lemma obeys_get_scales K Inv :
  obeys Inv no_event anything (get_scales K).
Proof.
  unfold get_scales, get_scales_fallback. repeat obeys_step.
  all: try exact I. intros; exact I.
Qed.

(** X1. The backend chosen at construction and the configuration are never
    reassigned: after [quantize], [dequantize], [selective_dequantize] or
    [get_scales], returned or raised, [is_fallback] and [q_config] are what
    they were. *)
Theorem configuration_is_fixed :
  forall K w input input_q idx fp_out q_bits m st meta sc,
    (q_config (self (state_after (quantize K input q_bits m st meta) w)) = q_config (self w)
     /\ is_fallback (self (state_after (quantize K input q_bits m st meta) w))
        = is_fallback (self w))
    /\ (q_config (self (state_after (dequantize K input_q fp_out q_bits m sc) w))
        = q_config (self w)
        /\ is_fallback (self (state_after (dequantize K input_q fp_out q_bits m sc) w))
           = is_fallback (self w))
    /\ (q_config (self (state_after (selective_dequantize K input_q idx fp_out q_bits m sc) w))
        = q_config (self w)
        /\ is_fallback
             (self (state_after (selective_dequantize K input_q idx fp_out q_bits m sc) w))
           = is_fallback (self w))
    /\ (q_config (self (state_after (get_scales K) w)) = q_config (self w)
        /\ is_fallback (self (state_after (get_scales K) w)) = is_fallback (self w)).
Proof.
  intros K w input input_q idx fp_out q_bits m st meta sc.
  split; [|split; [|split]].
  - apply (obeys_invariant _ _ _ _ _ (obeys_quantize K _ _ input q_bits m st meta)),
      configured_self.
  - apply (obeys_invariant _ _ _ _ _ (obeys_dequantize K _ _ input_q fp_out q_bits m sc)),
      configured_self.
  - apply (obeys_invariant _ _ _ _ _
             (obeys_selective_dequantize K _ _ input_q idx fp_out q_bits m sc)),
      configured_self.
  - apply (obeys_invariant _ _ _ _ _
             (obeys_get_scales K (configured (q_config (self w)) (is_fallback (self w))))),
      configured_self.
Qed.

Lemma dequantize_reads_only K e0 input_q fp_out q_bits m sc :
  obeys (eq e0) no_event anything (dequantize K input_q fp_out q_bits m sc).
Proof.
  unfold dequantize, dequantize_func, dequantize_fallback.
  repeat obeys_step. all: try exact I. all: intros; exact I.
Qed.

Lemma selective_dequantize_reads_only K e0 input_q idx fp_out q_bits m sc :
  obeys (eq e0) no_event anything (selective_dequantize K input_q idx fp_out q_bits m sc).
Proof.
  unfold selective_dequantize, selective_dequantize_func, selective_dequantize_fallback.
  repeat obeys_step. all: exact I.
Qed.

(** X2. The dequantizers and [get_scales] read the session and never write
    it: whatever they return or raise, every attribute of the engine is as
    before the call. *)
Theorem dequantizers_keep_the_session :
  forall K w input_q idx fp_out q_bits m sc,
    self (state_after (dequantize K input_q fp_out q_bits m sc) w) = self w
    /\ self (state_after (selective_dequantize K input_q idx fp_out q_bits m sc) w) = self w
    /\ self (state_after (get_scales K) w) = self w.
Proof.
  intros K w input_q idx fp_out q_bits m sc. repeat split; symmetry.
  - apply (obeys_invariant _ _ _ _ _ (dequantize_reads_only K (self w) _ _ _ _ _)).
    reflexivity.
  - apply (obeys_invariant _ _ _ _ _ (selective_dequantize_reads_only K (self w) _ _ _ _ _ _)).
    reflexivity.
  - apply (obeys_invariant _ _ _ _ _ (obeys_get_scales K (eq (self w)))). reflexivity.
Qed.

(** ** The tensor [dequantize] returns *)

Lemma dequantize_func_shape K fp_out input_q gs m e w t :
  fst (dequantize_func K fp_out input_q gs m e w) = Ok t ->
  shape t = shape fp_out /\ elt t = elt fp_out.
Proof.
  intros H.
  destruct (obeys_dequantize_func K (q_config (self w)) (is_fallback (self w)) no_event
                                  fp_out input_q gs m e I w (configured_self w))
    as [_ [_ Hq]].
  now apply Hq.
Qed.

Lemma dequantize_result_shape K input_q fp_out q_bits m sc w s d t :
  orig_shape (self w) = Some s -> orig_dtype (self w) = Some d ->
  result_of (dequantize K input_q fp_out q_bits m sc) w = Ok t ->
  shape t = match fp_out with Some o => shape o | None => s end
  /\ elt t = match fp_out with Some o => elt o | None => d end.
Proof.
  intros Hs Hd. unfold result_of, dequantize. rewrite run_get, Hd. run.
  destruct fp_out as [o|]; run.
  - intros H. apply bind_inv_ok in H as [m' [w1 [_ H]]]. run_in H.
    apply bind_inv_ok in H as [iq [w2 [_ H]]].
    now apply dequantize_func_shape in H.
  - rewrite Hs. run. destruct (nonneg_shape s) eqn:Hn.
    + rewrite run_torch_empty by assumption. intros H.
      apply bind_inv_ok in H as [m' [w1 [_ H]]]. run_in H.
      apply bind_inv_ok in H as [iq [w2 [_ H]]].
      now apply dequantize_func_shape in H.
    + rewrite run_torch_empty_neg by assumption. discriminate.
Qed.

Lemma dequantize_returns K input_q q_bits m w s d :
  is_fallback (self w) = false ->
  orig_shape (self w) = Some s -> orig_dtype (self w) = Some d ->
  nonneg_shape s = true -> supported_q_bits q_bits = true ->
  (forall o i g a b, acc_dequantize K o i g a b <> None) ->
  exists t, result_of (dequantize K input_q None q_bits m None) w = Ok t.
Proof.
  intros Hf Hs Hd Hn Hq HK. unfold result_of, dequantize.
  rewrite run_get, Hd. run. rewrite Hs. run.
  rewrite run_torch_empty by assumption.
  rewrite (bind_ok _ _ _ _ _ (resolve_supported _ _ _ Hq)). run.
  unfold dequantize_func. run. rewrite Hf.
  match goal with
  | |- context [acc_dequantize K ?o ?i ?g ?a ?b] =>
    destruct (acc_dequantize K o i g a b) as [l|] eqn:E; [|destruct (HK _ _ _ _ _ E)]
  end.
  run. eexists. reflexivity.
Qed.

(** X3. Whenever [dequantize] returns, the tensor has the shape and the
    element type of the output tensor the caller passed or, when none was
    passed, the shape and the element type recorded by the last [quantize].
    On the accelerated backend, with a supported [q_bits], no explicit scale
    and a kernel that does not fail, it does return. *)
Theorem dequantize_shape :
  forall K input_q fp_out q_bits m sc w s d,
    orig_shape (self w) = Some s -> orig_dtype (self w) = Some d ->
    (forall t, result_of (dequantize K input_q fp_out q_bits m sc) w = Ok t ->
               shape t = match fp_out with Some o => shape o | None => s end
               /\ elt t = match fp_out with Some o => elt o | None => d end)
    /\ (is_fallback (self w) = false -> nonneg_shape s = true ->
        supported_q_bits q_bits = true ->
        (forall o i g a b, acc_dequantize K o i g a b <> None) ->
        exists t, result_of (dequantize K input_q None q_bits m None) w = Ok t
                  /\ shape t = s /\ elt t = d).
Proof.
  intros K input_q fp_out q_bits m sc w s d Hs Hd. split.
  - intros t. now apply dequantize_result_shape.
  - intros Hf Hn Hq HK.
    destruct (dequantize_returns K input_q q_bits m w s d) as [t Ht]; try assumption.
    exists t. split; [exact Ht|].
    now apply (dequantize_result_shape K input_q None q_bits m None w s d).
Qed.

Lemma dequantize_shape_witness :
  exists t, result_of (dequantize echo_kernels q22 None 8 3 None) (after_quantize true) = Ok t
            /\ shape t = [2; 2] /\ elt t = bfloat16.
Proof.
  pose proof (dequantize_shape echo_kernels q22 None 8 3 None (after_quantize true)
                               [2; 2] bfloat16 eq_refl eq_refl) as [_ H].
  apply H; try reflexivity. intros; discriminate.
Defined.

(** ** What [quantize] records *)

(** [obeys_step] for an invariant that an assignment has to be shown to keep. *)
Ltac obeys_step_inv :=
  first
    [ obeys_step
    | lazymatch goal with
      | |- obeys _ _ _ (bind (modify _) _) =>
        eapply obeys_then; [apply obeys_modify|intros ?]
      end ].

Lemma quantize_keeps_record K (Inv : FP_Quantize -> Prop) input q_bits m st meta w :
  (forall e v, Inv e -> Inv (set_num_groups v e)) ->
  (forall e v, Inv e -> Inv (set_input_q v e)) ->
  (forall e v, Inv e -> Inv (set_scale v e)) ->
  elt input = bfloat16 -> (meta = true -> q_bits = 8) ->
  Inv (self (record_input input w)) ->
  Inv (self (state_after (quantize K input q_bits m st meta) w)).
Proof.
  intros Hng Hiq Hsc Hb Hm Hw. unfold state_after, quantize.
  rewrite Hb. cbn [dtype_eqb]. run.
  assert (bind (if meta then assert (q_bits =? 8) MetaTensorPrecision else ret tt)
          = bind (ret tt)) as ->.
  { destruct meta; [|reflexivity]. rewrite (Hm eq_refl). reflexivity. }
  run.
  match goal with
  | |- Inv (self (snd (?c ?w1))) =>
    apply (obeys_invariant Inv no_event anything c w1)
  end.
  - unfold quantize_func, quantize_fallback, floordiv, unpack2.
    repeat obeys_step_inv.
    all: try exact I.
    all: try (intros e' He'; auto).
  - unfold record_input in Hw. rewrite Hb in Hw. exact Hw.
Qed.

(** X5. Every [quantize] call that gets past its two preconditions records
    the element type and the shape of its input, and they are still recorded
    when the call ends, whatever the backend did: the session describes the
    latest input, not an earlier one. *)
Theorem quantize_records_latest_input :
  forall K input q_bits m st meta w,
    elt input = bfloat16 -> (meta = true -> q_bits = 8) ->
    orig_dtype (self (state_after (quantize K input q_bits m st meta) w)) = Some bfloat16
    /\ orig_shape (self (state_after (quantize K input q_bits m st meta) w))
       = Some (shape input).
Proof.
  intros K input q_bits m st meta w Hb Hm.
  apply (quantize_keeps_record K
           (fun e => orig_dtype e = Some bfloat16 /\ orig_shape e = Some (shape input)));
    auto.
  simpl. now rewrite Hb.
Qed.

Lemma quantize_records_latest_input_witness :
  orig_dtype (self (state_after (quantize echo_kernels t322 4 3 false false)
                                (after_quantize false))) = Some bfloat16
  /\ orig_shape (self (state_after (quantize echo_kernels t322 4 3 false false)
                                   (after_quantize false))) = Some [3; 2; 2].
Proof.
  apply (quantize_records_latest_input echo_kernels t322 4 3 false false
                                       (after_quantize false)).
  - reflexivity.
  - discriminate.
Defined.

(** X6. With a group size of 0 in the configuration, [quantize] on a
    bfloat16 input with a supported [q_bits] raises the division error of
    the group count: the input is recorded, nothing is allocated and no
    backend is called. *)
Theorem quantize_zero_group_size :
  forall K input q_bits m st meta w,
    elt input = bfloat16 -> (meta = true -> q_bits = 8) ->
    supported_q_bits q_bits = true ->
    group_size (q_config (self w)) = 0 ->
    quantize K input q_bits m st meta w = (Raise ZeroDivisionError, record_input input w).
Proof.
  intros K input q_bits m st meta w Hb Hm Hq HG. unfold quantize.
  rewrite Hb. cbn [dtype_eqb]. run.
  assert (bind (if meta then assert (q_bits =? 8) MetaTensorPrecision else ret tt)
          = bind (ret tt)) as ->.
  { destruct meta; [|reflexivity]. rewrite (Hm eq_refl). reflexivity. }
  run. rewrite (bind_ok _ _ _ _ _ (resolve_supported _ _ _ Hq)). run.
  unfold floordiv. attrs. rewrite HG. cbn [Z.eqb]. run.
  unfold record_input. rewrite Hb. reflexivity.
Qed.

Lemma quantize_zero_group_size_witness :
  quantize echo_kernels t22 8 3 false false (fresh (mkConfig 0 uint8 float8_e4m3fn) true)
  = (Raise ZeroDivisionError, record_input t22 (fresh (mkConfig 0 uint8 float8_e4m3fn) true)).
Proof.
  apply quantize_zero_group_size.
  - reflexivity.
  - discriminate.
  - reflexivity.
  - reflexivity.
Defined.

(** ** Short and empty inputs *)

(** The group count and the first allocation, for an input of any size. *)
Lemma quantize_allocation_any K input q_bits m st meta w :
  elt input = bfloat16 ->
  supported_q_bits q_bits = true ->
  (meta = true -> q_bits = 8) ->
  0 < group_size (q_config (self w)) ->
  0 <= numel input ->
  num_groups (self (state_after (quantize K input q_bits m st meta) w))
  = Some ((numel input + group_size (q_config (self w)) - 1) / group_size (q_config (self w)))
  /\ exists rest,
      new_events (quantize K input q_bits m st meta) w
      = EvAlloc
          [(numel input + group_size (q_config (self w)) - 1)
           / group_size (q_config (self w));
           if is_fallback (self w)
           then Z.min (group_size (q_config (self w))) (numel input) * q_bits / 8
           else Z.min (group_size (q_config (self w))) (numel input) * q_bits / 8 + 4]
          (q_dtype (q_config (self w)))
        :: rest.
Proof.
  intros Hb Hq Hm HG HN.
  destruct (Z.eq_dec (numel input) 0) as [H0|H0].
  - unfold state_after.
    set (G := group_size (q_config (self w))) in *.
    pose proof (supported_q_bits_pos _ Hq) as Hp.
    assert ((numel input + G - 1) / G = 0) as Hng.
    { rewrite H0. apply Z.div_small. lia. }
    assert (Z.min G (numel input) * q_bits / 8 = 0) as HW.
    { rewrite H0. rewrite Z.min_r by lia. reflexivity. }
    rewrite Hng, HW.
    unfold new_events, state_after.
    unfold quantize. rewrite Hb. cbn [dtype_eqb]. run.
    assert (bind (if meta then assert (q_bits =? 8) MetaTensorPrecision else ret tt)
            = bind (ret tt)) as ->.
    { destruct meta; [|reflexivity]. rewrite (Hm eq_refl). reflexivity. }
    run. rewrite (bind_ok _ _ _ _ _ (resolve_supported _ _ _ Hq)). run.
    unfold floordiv. attrs. fold G.
    assert ((G =? 0) = false) as -> by (apply Z.eqb_neq; lia).
    run. attrs. fold G. rewrite Hng, HW.
    rewrite run_torch_ones by (destruct (is_fallback (self w)); reflexivity).
    attrs.
    match goal with
    | |- context [quantize_func K ?buf input ?gs _ _ _] =>
      pose proof (quantize_tail_keeps_num_groups
                    K 0 buf input gs st q_bits
                    (spec_mantissa_bits q_bits m) meta (is_fallback (self w))) as HT
    end.
    split.
    + apply (obeys_invariant _ _ _ _ _ HT). reflexivity.
    + match goal with
      | |- context [snd (?c ?w1)] =>
        destruct (obeys_grows _ _ _ c w1 HT eq_refl) as [l Hl]
      end.
      exists l. rewrite Hl. cbn [trace]. rewrite <- app_assoc.
      rewrite skipn_app, skipn_all, Nat.sub_diag.
      destruct (is_fallback (self w)); reflexivity.
  - destruct (quantize_allocation K input q_bits m st meta w Hb Hq Hm HG ltac:(lia))
      as [A [rest B]].
    split; [exact A|]. exists rest. now apply new_events_app.
Qed.

(** X7. An input that is not longer than the group size forms a single
    group of its own length: [quantize] stores 1 as the group count and
    allocates a buffer of one row of [floor(N * q_bits / 8)] bytes, 4 more on
    the accelerated backend. *)
Theorem quantize_single_group :
  forall K input q_bits m st meta w,
    elt input = bfloat16 ->
    supported_q_bits q_bits = true ->
    (meta = true -> q_bits = 8) ->
    1 <= numel input <= group_size (q_config (self w)) ->
    num_groups (self (state_after (quantize K input q_bits m st meta) w)) = Some 1
    /\ exists rest,
        new_events (quantize K input q_bits m st meta) w
        = EvAlloc [1; if is_fallback (self w)
                      then numel input * q_bits / 8
                      else numel input * q_bits / 8 + 4]
                  (q_dtype (q_config (self w)))
          :: rest.
Proof.
  intros K input q_bits m st meta w Hb Hq Hm HN.
  destruct (quantize_allocation_any K input q_bits m st meta w Hb Hq Hm) as [A B];
    try lia.
  assert ((numel input + group_size (q_config (self w)) - 1)
          / group_size (q_config (self w)) = 1) as E.
  { symmetry. apply (Z.div_unique_pos _ _ 1 (numel input - 1)); lia. }
  rewrite E in A, B. rewrite Z.min_r in B by lia. auto.
Qed.

Lemma quantize_single_group_witness :
  num_groups (self (state_after (quantize echo_kernels t22 6 3 false false)
                                (fresh (mkConfig 512 uint8 float8_e4m3fn) true))) = Some 1
  /\ exists rest,
      new_events (quantize echo_kernels t22 6 3 false false)
                 (fresh (mkConfig 512 uint8 float8_e4m3fn) true)
      = EvAlloc [1; 7] uint8 :: rest.
Proof.
  apply (quantize_single_group echo_kernels t22 6 3 false false
                               (fresh (mkConfig 512 uint8 float8_e4m3fn) true)).
  - reflexivity.
  - reflexivity.
  - discriminate.
  - vm_compute. split; discriminate.
Defined.

(** X8. An empty input gives no group: [quantize] stores 0 as the group
    count and allocates a buffer without rows, of width 0 on the fallback and
    4 on the accelerated backend. *)
Theorem quantize_empty_input :
  forall K input q_bits m st meta w,
    elt input = bfloat16 ->
    supported_q_bits q_bits = true ->
    (meta = true -> q_bits = 8) ->
    0 < group_size (q_config (self w)) ->
    numel input = 0 ->
    num_groups (self (state_after (quantize K input q_bits m st meta) w)) = Some 0
    /\ exists rest,
        new_events (quantize K input q_bits m st meta) w
        = EvAlloc [0; if is_fallback (self w) then 0 else 4] (q_dtype (q_config (self w)))
          :: rest.
Proof.
  intros K input q_bits m st meta w Hb Hq Hm HG HN.
  destruct (quantize_allocation_any K input q_bits m st meta w Hb Hq Hm) as [A B];
    try lia.
  rewrite HN in A, B. rewrite Z.min_r in B by lia.
  replace ((0 + group_size (q_config (self w)) - 1) / group_size (q_config (self w)))
    with 0 in A, B by (symmetry; apply Z.div_small; lia).
  auto.
Qed.

Lemma quantize_empty_input_witness :
  num_groups (self (state_after (quantize echo_kernels (mkTensor [0; 3] bfloat16 [])
                                          8 3 false false)
                                (fresh cfg2 true))) = Some 0
  /\ exists rest,
      new_events (quantize echo_kernels (mkTensor [0; 3] bfloat16 []) 8 3 false false)
                 (fresh cfg2 true)
      = EvAlloc [0; 4] float8_e4m3fn :: rest.
Proof.
  apply (quantize_empty_input echo_kernels (mkTensor [0; 3] bfloat16 []) 8 3 false false
                              (fresh cfg2 true)).
  - reflexivity.
  - reflexivity.
  - discriminate.
  - reflexivity.
  - reflexivity.
Defined.

(** ** A whole run of the fallback *)

Lemma sequence_opt_map_some {A B} (f : A -> option B) l :
  (forall x, exists y, f x = Some y) -> exists ys, sequence_opt (map f l) = Some ys.
Proof.
  intros H. induction l as [|x l [ys IH]]; simpl.
  - exists []. reflexivity.
  - destruct (H x) as [y ->]. rewrite IH. eexists. reflexivity.
Qed.

Lemma broadcast_same s : forall l, exists l', broadcast s s l = Some l'.
Proof.
  induction s as [|a s IH]; intros l; simpl.
  - exists l. reflexivity.
  - rewrite Z.eqb_refl.
    destruct (sequence_opt_map_some (broadcast s s)
                (rows_of (Z.to_nat a) (Z.to_nat (prod_shape s)) l) IH) as [ys ->].
    eexists. reflexivity.
Qed.

(** Copying between tensors of the same shape succeeds. *)
Lemma copy_same_shape dst src :
  shape dst = shape src ->
  exists l, copy_ dst src = Ok (mkTensorL (shape dst) (elt dst) l (layout dst)).
Proof.
  intros H. unfold copy_. rewrite H, Nat.leb_refl, Nat.sub_diag. cbn [repeat app].
  destruct (broadcast_same (shape src) (data src)) as [l ->].
  exists l. reflexivity.
Qed.

Lemma quantize_on_fallback_run :
  forall K input st meta w cfg ng gs qmax,
    is_fallback (self w) = true ->
    q_config (self w) = cfg ->
    elt input = bfloat16 ->
    nonneg_shape (shape input) = true ->
    0 < group_size cfg ->
    1 <= numel input ->
    group_size cfg * (ng - 1) < numel input ->
    numel input <= group_size cfg * ng ->
    gs = Z.min (group_size cfg) (numel input) ->
    is_ok (view input [ng; gs]) = true ->
    length (data input) = Z.to_nat (numel input) ->
    (device_is_gaudi2 K = true -> q_range_dtype cfg = float8_e4m3fnuz) ->
    finfo_max (q_range_dtype cfg) = Ok qmax ->
    (forall v s b d, hpu_cast_to_fp8_v2 K v s b d <> None) ->
    exists v q out,
      view input [ng; gs] = Ok v
      /\ hpu_cast_to_fp8_v2 K (float_ v) (fallback_scale qmax ng gs (data input)) st
                            (q_dtype cfg) = Some q
      /\ copy_ (mkTensor [ng; gs] (q_dtype cfg)
                         (repeat (one_of (q_dtype cfg)) (Z.to_nat (prod_shape [ng; gs]))))
               (mkTensor [ng; gs] (q_dtype cfg) q) = Ok out
      /\ result_of (quantize K input 8 3 st meta) w
         = Ok (if meta
               then Meta (mkTensor (shape input) (q_dtype cfg) (data out))
                         (fallback_scale qmax ng gs (data input))
               else Packed out)
      /\ input_q (self (state_after (quantize K input 8 3 st meta) w))
         = (if meta then Missing else Has out)
      /\ new_events (quantize K input 8 3 st meta) w
         = [EvAlloc [ng; gs] (q_dtype cfg); EvQuantize gs st 8 3]
           ++ (if meta then [EvGcCollect; EvEmptyCache] else [])
      /\ result_of (get_scales K) (state_after (quantize K input 8 3 st meta) w)
         = Ok (Some (fallback_scale qmax ng gs (data input)))
      /\ scale (self (state_after (quantize K input 8 3 st meta) w))
         = Some (fallback_scale qmax ng gs (data input))
      /\ orig_dtype (self (state_after (quantize K input 8 3 st meta) w)) = Some bfloat16
      /\ orig_shape (self (state_after (quantize K input 8 3 st meta) w))
         = Some (shape input)
      /\ is_fallback (self (state_after (quantize K input 8 3 st meta) w)) = true
      /\ q_config (self (state_after (quantize K input 8 3 st meta) w)) = cfg.
Proof.
  intros K input st meta w cfg ng gs qmax Hf Hcfg Hb Hsh HG HN Hlo Hhi Hgs Hview Hlen
         Hdev Hmax HK.
  assert (0 < gs) as Hpos by lia.
  destruct (view input [ng; gs]) as [v|] eqn:Hv; [|discriminate].
  destruct (view_ok_inv input [ng; gs]) as [Hs [Hnum _]]; [now rewrite Hv|].
  cbn [prod_shape fold_right] in Hnum. rewrite Z.mul_1_r in Hnum.
  assert (1 <= ng) as Hn by nia.
  destruct (hpu_cast_to_fp8_v2 K (float_ v) (fallback_scale qmax ng gs (data input)) st
                               (q_dtype cfg)) as [q|] eqn:Eq; [|destruct (HK _ _ _ _ Eq)].
  destruct (copy_same_shape
              (mkTensor [ng; gs] (q_dtype cfg)
                        (repeat (one_of (q_dtype cfg)) (Z.to_nat (prod_shape [ng; gs]))))
              (mkTensor [ng; gs] (q_dtype cfg) q) eq_refl) as [l Hl].
  cbn [shape elt layout] in Hl.
  exists v, q, (mkTensor [ng; gs] (q_dtype cfg) l).
  split; [reflexivity|]. split; [exact Eq|]. split; [exact Hl|]. cbn [data].
  unfold result_of, new_events, state_after.
  unfold quantize. rewrite Hb. cbn [dtype_eqb]. run.
  assert (bind (if meta then assert (8 =? 8) MetaTensorPrecision else ret tt)
          = bind (ret tt)) as -> by (destruct meta; reflexivity).
  run. cbn [resolve_q_mantisa_bits Z.eqb Pos.eqb]. run.
  unfold floordiv. attrs. rewrite Hcfg.
  assert ((group_size cfg =? 0) = false) as -> by (apply Z.eqb_neq; lia).
  run. attrs. rewrite ?Hcfg, Hf. cbn [negb].
  rewrite (ceil_div_unique _ _ ng) by assumption.
  rewrite <- Hgs, Z.div_mul by lia.
  rewrite run_torch_ones.
  2:{ simpl. destruct (0 <=? ng) eqn:E1; [|apply Z.leb_gt in E1; lia].
      destruct (0 <=? gs) eqn:E2; [|apply Z.leb_gt in E2; lia]. reflexivity. }
  run. unfold quantize_func. run. attrs. rewrite Hf.
  match goal with
  | |- context [bind (quantize_fallback K ?buf input gs st 8 3) _ ?w2] =>
    pose proof (quantize_fallback_run K buf input gs st w2 ng qmax v) as Hrun
  end.
  attrs_in Hrun. rewrite Hcfg in Hrun.
  specialize (Hrun eq_refl Hpos Hv Hlen Hdev Hmax).
  rewrite Eq, Hl in Hrun.
  rewrite (bind_ok _ _ _ _ _ Hrun). run. attrs.
  assert (reshape (contiguous (mkTensor [ng; gs] (q_dtype cfg) l)) (shape input)
          = Ok (mkTensor (shape input) (q_dtype cfg) l)) as Hre.
  { unfold reshape, view, contiguous, numel. cbn [shape elt data layout prod_shape fold_right].
    fold (prod_shape (shape input)). fold (numel input).
    rewrite Hsh, Z.mul_1_r, <- Hnum, Z.eqb_refl. reflexivity. }
  rewrite ?Hcfg.
  destruct meta.
  - rewrite Hre. run. attrs.
    rewrite (contiguous_id (fallback_scale qmax ng gs (data input))) by reflexivity.
    run. attrs. unfold ret. cbn [fst snd]. attrs.
    unfold get_scales, get_scales_fallback. run. attrs. rewrite Hf.
    rewrite <- !app_assoc, skipn_app, skipn_all, Nat.sub_diag.
    repeat split; try reflexivity; assumption.
  - unfold ret. cbn [fst snd]. attrs.
    unfold get_scales, get_scales_fallback. run. attrs. rewrite Hf.
    rewrite <- !app_assoc, skipn_app, skipn_all, Nat.sub_diag.
    repeat split; try reflexivity; assumption.
Qed.

(** X9. On the fallback backend, at 8 bits with 3 mantissa bits, a
    bfloat16 input that can be viewed as [num_groups] rows of
    [min(group_size, N)] elements is quantized whenever the cast kernel does
    not fail.  The codes are what the kernel makes of the widened view and of
    the stored scale, copied into the buffer of ones.  Without the
    meta-tensor mode the call returns that buffer, which [self.input_q]
    holds; with it, the call returns the codes in the shape of the input
    together with the scale and deletes [self.input_q].  The calls that leave
    the quantizer are one [torch.ones], one backend call and, in the
    meta-tensor mode, the two requests to reclaim memory.  Either way
    [get_scales] then returns the scale of one row per group. *)
Theorem quantize_on_fallback :
  forall K input st meta w cfg ng gs qmax,
    is_fallback (self w) = true ->
    q_config (self w) = cfg ->
    elt input = bfloat16 ->
    nonneg_shape (shape input) = true ->
    0 < group_size cfg ->
    1 <= numel input ->
    group_size cfg * (ng - 1) < numel input ->
    numel input <= group_size cfg * ng ->
    gs = Z.min (group_size cfg) (numel input) ->
    is_ok (view input [ng; gs]) = true ->
    length (data input) = Z.to_nat (numel input) ->
    (device_is_gaudi2 K = true -> q_range_dtype cfg = float8_e4m3fnuz) ->
    finfo_max (q_range_dtype cfg) = Ok qmax ->
    (forall v s b d, hpu_cast_to_fp8_v2 K v s b d <> None) ->
    exists v q out,
      view input [ng; gs] = Ok v
      /\ hpu_cast_to_fp8_v2 K (float_ v) (fallback_scale qmax ng gs (data input)) st
                            (q_dtype cfg) = Some q
      /\ copy_ (mkTensor [ng; gs] (q_dtype cfg)
                         (repeat (one_of (q_dtype cfg)) (Z.to_nat (prod_shape [ng; gs]))))
               (mkTensor [ng; gs] (q_dtype cfg) q) = Ok out
      /\ result_of (quantize K input 8 3 st meta) w
         = Ok (if meta
               then Meta (mkTensor (shape input) (q_dtype cfg) (data out))
                         (fallback_scale qmax ng gs (data input))
               else Packed out)
      /\ input_q (self (state_after (quantize K input 8 3 st meta) w))
         = (if meta then Missing else Has out)
      /\ new_events (quantize K input 8 3 st meta) w
         = [EvAlloc [ng; gs] (q_dtype cfg); EvQuantize gs st 8 3]
           ++ (if meta then [EvGcCollect; EvEmptyCache] else [])
      /\ result_of (get_scales K) (state_after (quantize K input 8 3 st meta) w)
         = Ok (Some (fallback_scale qmax ng gs (data input))).
Proof.
  intros K input st meta w cfg ng gs qmax Hf Hcfg Hb Hsh HG HN Hlo Hhi Hgs Hview Hlen
         Hdev Hmax HK.
  destruct (quantize_on_fallback_run K input st meta w cfg ng gs qmax
              Hf Hcfg Hb Hsh HG HN Hlo Hhi Hgs Hview Hlen Hdev Hmax HK)
    as [v [q [out [A [B [C [D [E [F [G _]]]]]]]]]].
  exists v, q, out. auto 10.
Qed.

Lemma quantize_on_fallback_witness :
  exists v q out,
    view t22 [2; 2] = Ok v
    /\ hpu_cast_to_fp8_v2 echo_kernels (float_ v)
                          (fallback_scale (f32_of_Z 448) 2 2 (data t22)) false
                          float8_e4m3fn = Some q
    /\ copy_ (mkTensor [2; 2] float8_e4m3fn
                       (repeat (one_of float8_e4m3fn) (Z.to_nat (prod_shape [2; 2]))))
             (mkTensor [2; 2] float8_e4m3fn q) = Ok out
    /\ result_of (quantize echo_kernels t22 8 3 false true) (fresh cfg2 false)
       = Ok (Meta (mkTensor [2; 2] float8_e4m3fn (data out))
                  (fallback_scale (f32_of_Z 448) 2 2 (data t22)))
    /\ input_q (self (state_after (quantize echo_kernels t22 8 3 false true)
                                  (fresh cfg2 false))) = Missing
    /\ new_events (quantize echo_kernels t22 8 3 false true) (fresh cfg2 false)
       = [EvAlloc [2; 2] float8_e4m3fn; EvQuantize 2 false 8 3; EvGcCollect; EvEmptyCache]
    /\ result_of (get_scales echo_kernels)
                 (state_after (quantize echo_kernels t22 8 3 false true) (fresh cfg2 false))
       = Ok (Some (fallback_scale (f32_of_Z 448) 2 2 (data t22))).
Proof.
  apply (quantize_on_fallback echo_kernels t22 false true (fresh cfg2 false) cfg2 2 2
                              (f32_of_Z 448)).
  - reflexivity.
  - reflexivity.
  - reflexivity.
  - reflexivity.
  - reflexivity.
  - vm_compute. discriminate.
  - reflexivity.
  - vm_compute. discriminate.
  - reflexivity.
  - reflexivity.
  - reflexivity.
  - discriminate.
  - reflexivity.
  - intros; discriminate.
Defined.

(** X10. The fallback does not pad: at 8 bits with 3 mantissa bits, a
    bfloat16 input longer than the group size whose length is not a multiple
    of it makes [quantize] raise inside torch, when the input is viewed as
    [num_groups] rows of [group_size] elements.  The buffer has been
    allocated by then; the scale is untouched. *)
Theorem quantize_on_fallback_needs_multiple :
  forall K input st meta w,
    is_fallback (self w) = true ->
    elt input = bfloat16 ->
    0 < group_size (q_config (self w)) < numel input ->
    numel input mod group_size (q_config (self w)) <> 0 ->
    (device_is_gaudi2 K = true -> q_range_dtype (q_config (self w)) = float8_e4m3fnuz) ->
    result_of (quantize K input 8 3 st meta) w = Raise TorchRuntimeError
    /\ scale (self (state_after (quantize K input 8 3 st meta) w)) = scale (self w)
    /\ new_events (quantize K input 8 3 st meta) w
       = [EvAlloc [(numel input + group_size (q_config (self w)) - 1)
                   / group_size (q_config (self w));
                   group_size (q_config (self w))]
                  (q_dtype (q_config (self w)));
          EvQuantize (group_size (q_config (self w))) st 8 3].
Proof.
  intros K input st meta w Hf Hb HG Hmod Hdev.
  set (G := group_size (q_config (self w))) in *.
  set (N := numel input) in *.
  pose proof (ceil_div_bounds N G ltac:(lia)) as Hc.
  unfold result_of, new_events, state_after.
  unfold quantize. rewrite Hb. cbn [dtype_eqb]. run.
  assert (bind (if meta then assert (8 =? 8) MetaTensorPrecision else ret tt)
          = bind (ret tt)) as -> by (destruct meta; reflexivity).
  run. cbn [resolve_q_mantisa_bits Z.eqb Pos.eqb]. run.
  unfold floordiv. attrs. fold G. fold N.
  assert ((G =? 0) = false) as -> by (apply Z.eqb_neq; lia).
  run. attrs. fold G. rewrite Hf. cbn [negb].
  assert (Z.min G N * 8 / 8 = G) as ->.
  { rewrite Z.div_mul by lia. lia. }
  rewrite run_torch_ones.
  2:{ simpl. destruct (0 <=? (N + G - 1) / G) eqn:E1; [|apply Z.leb_gt in E1; nia].
      destruct (0 <=? G) eqn:E2; [|apply Z.leb_gt in E2; lia]. reflexivity. }
  run. unfold quantize_func. run. attrs. rewrite Hf.
  unfold quantize_fallback. cbn [Z.eqb Pos.eqb]. run. attrs.
  assert (bind (if device_is_gaudi2 K
                then assert (dtype_eqb (q_range_dtype (q_config (self w))) float8_e4m3fnuz)
                            Gaudi2Dtype
                else ret tt) = bind (ret tt)) as ->.
  { destruct (device_is_gaudi2 K); [|reflexivity]. rewrite (Hdev eq_refl). reflexivity. }
  run. attrs. run.
  assert (view input [(N + G - 1) / G; G] = Raise TorchRuntimeError) as ->.
  { unfold view. cbn [prod_shape fold_right]. fold N.
    destruct (_ * (G * 1) =? N) eqn:E; [|now rewrite andb_false_r].
    apply Z.eqb_eq in E. exfalso. apply Hmod.
    rewrite <- E, Z.mul_1_r. apply Z.mod_mul. lia. }
  run. attrs.
  rewrite <- !app_assoc, skipn_app, skipn_all, Nat.sub_diag.
  repeat split; reflexivity.
Qed.

Lemma quantize_on_fallback_needs_multiple_witness :
  result_of (quantize echo_kernels (mkTensor [3] bfloat16 (repeat (Flt f32_one) 3))
                      8 3 false false) (fresh cfg2 false)
  = Raise TorchRuntimeError
  /\ scale (self (state_after
                    (quantize echo_kernels (mkTensor [3] bfloat16 (repeat (Flt f32_one) 3))
                              8 3 false false) (fresh cfg2 false))) = None
  /\ new_events (quantize echo_kernels (mkTensor [3] bfloat16 (repeat (Flt f32_one) 3))
                          8 3 false false) (fresh cfg2 false)
     = [EvAlloc [2; 2] float8_e4m3fn; EvQuantize 2 false 8 3].
Proof.
  apply (quantize_on_fallback_needs_multiple echo_kernels
           (mkTensor [3] bfloat16 (repeat (Flt f32_one) 3)) false false (fresh cfg2 false)).
  - reflexivity.
  - reflexivity.
  - vm_compute. split; reflexivity.
  - vm_compute. discriminate.
  - discriminate.
Defined.

(** X11. On a Gaudi2 device the fallback insists on the range type
    [float8_e4m3fnuz]: with any other [q_range_dtype], [quantize] at 8 bits
    with 3 mantissa bits raises the device assertion after the buffer has
    been allocated and before any scale is computed. *)
Theorem quantize_on_gaudi2_checks_range_type :
  forall K input st meta w,
    is_fallback (self w) = true ->
    elt input = bfloat16 ->
    0 < group_size (q_config (self w)) ->
    0 <= numel input ->
    device_is_gaudi2 K = true ->
    q_range_dtype (q_config (self w)) <> float8_e4m3fnuz ->
    result_of (quantize K input 8 3 st meta) w = Raise Gaudi2Dtype
    /\ scale (self (state_after (quantize K input 8 3 st meta) w)) = scale (self w)
    /\ exists gs,
        new_events (quantize K input 8 3 st meta) w
        = [EvAlloc [(numel input + group_size (q_config (self w)) - 1)
                    / group_size (q_config (self w)); gs]
                   (q_dtype (q_config (self w)));
           EvQuantize gs st 8 3].
Proof.
  intros K input st meta w Hf Hb HG HN Hdev Hty.
  set (G := group_size (q_config (self w))) in *.
  set (N := numel input) in *.
  unfold result_of, new_events, state_after.
  unfold quantize. rewrite Hb. cbn [dtype_eqb]. run.
  assert (bind (if meta then assert (8 =? 8) MetaTensorPrecision else ret tt)
          = bind (ret tt)) as -> by (destruct meta; reflexivity).
  run. cbn [resolve_q_mantisa_bits Z.eqb Pos.eqb]. run.
  unfold floordiv. attrs. fold G. fold N.
  assert ((G =? 0) = false) as -> by (apply Z.eqb_neq; lia).
  run. attrs. fold G. rewrite Hf. cbn [negb].
  rewrite Z.div_mul by lia.
  rewrite run_torch_ones.
  2:{ simpl. assert (0 <= (N + G - 1) / G) by (apply Z.div_pos; lia).
      destruct (0 <=? (N + G - 1) / G) eqn:E1; [|apply Z.leb_gt in E1; lia].
      destruct (0 <=? Z.min G N) eqn:E2; [|apply Z.leb_gt in E2; lia]. reflexivity. }
  run. unfold quantize_func. run. attrs. rewrite Hf.
  unfold quantize_fallback. cbn [Z.eqb Pos.eqb]. run. attrs.
  rewrite Hdev.
  destruct (dtype_eqb (q_range_dtype (q_config (self w))) float8_e4m3fnuz) eqn:E.
  { apply dtype_eqb_eq in E. contradiction. }
  run. attrs.
  rewrite <- !app_assoc, skipn_app, skipn_all, Nat.sub_diag.
  split; [reflexivity|]. split; [reflexivity|]. eexists. reflexivity.
Qed.

Lemma quantize_on_gaudi2_checks_range_type_witness :
  result_of (quantize (mkKernels (acc_quantize echo_kernels) (acc_dequantize echo_kernels)
                                 (acc_selective_dequantize echo_kernels)
                                 (acc_get_scales echo_kernels)
                                 (hpu_cast_to_fp8_v2 echo_kernels)
                                 (hpu_cast_from_fp8 echo_kernels) true)
                      t22 8 3 false false) (fresh cfg2 false)
  = Raise Gaudi2Dtype.
Proof.
  apply (quantize_on_gaudi2_checks_range_type
           (mkKernels (acc_quantize echo_kernels) (acc_dequantize echo_kernels)
                      (acc_selective_dequantize echo_kernels)
                      (acc_get_scales echo_kernels)
                      (hpu_cast_to_fp8_v2 echo_kernels)
                      (hpu_cast_from_fp8 echo_kernels) true)
           t22 false false (fresh cfg2 false)).
  - reflexivity.
  - reflexivity.
  - reflexivity.
  - vm_compute. discriminate.
  - reflexivity.
  - discriminate.
Defined.

(** ** The explicit scale on the fallback *)

(** X12. On the fallback the explicit scale only selects the reshaping of
    the quantized input: its contents are never read, the scale of the
    session is used instead.  Two calls of [dequantize] that differ only in
    the scale tensor they pass give the same result and the same state. *)
Theorem fallback_dequantize_ignores_scale_contents :
  forall K input_q fp_out q_bits m sc1 sc2 w,
    is_fallback (self w) = true ->
    dequantize K input_q fp_out q_bits m (Some sc1) w
    = dequantize K input_q fp_out q_bits m (Some sc2) w.
Proof.
  intros K input_q fp_out q_bits m sc1 sc2 w Hf. unfold dequantize.
  rewrite !run_get.
  destruct (orig_dtype (self w)) as [d|]; run; [|reflexivity].
  assert (forall fo w', is_fallback (self w') = true ->
            bind (resolve_q_mantisa_bits q_bits m)
                 (fun m' =>
                    bind (get is_fallback) (fun fb =>
                    bind (get q_config) (fun cfg =>
                    bind (if negb fb
                          then
                            bind (assert (numel input_q =? numel fo) ShapeMismatch)
                                 (fun _ =>
                                    bind (lift (reshape_rows input_q (group_size cfg)))
                                         (fun r => lift (cat_last r sc1)))
                          else
                            lift (reshape_rows input_q
                                    (Z.min (group_size cfg) (numel input_q) * q_bits / 8)))
                         (fun iq => dequantize_func K fo iq (group_size cfg) m'
                                                    (q_bits - m' - 1))))) w'
            = bind (resolve_q_mantisa_bits q_bits m)
                 (fun m' =>
                    bind (get is_fallback) (fun fb =>
                    bind (get q_config) (fun cfg =>
                    bind (if negb fb
                          then
                            bind (assert (numel input_q =? numel fo) ShapeMismatch)
                                 (fun _ =>
                                    bind (lift (reshape_rows input_q (group_size cfg)))
                                         (fun r => lift (cat_last r sc2)))
                          else
                            lift (reshape_rows input_q
                                    (Z.min (group_size cfg) (numel input_q) * q_bits / 8)))
                         (fun iq => dequantize_func K fo iq (group_size cfg) m'
                                                    (q_bits - m' - 1))))) w') as Tail.
  { intros fo w' Hf'.
    destruct (supported_q_bits q_bits) eqn:Hq.
    - rewrite !(bind_ok _ _ _ _ _ (resolve_supported _ _ _ Hq)). run.
      rewrite Hf'. reflexivity.
    - rewrite !(bind_raise _ _ _ _ _ (resolve_unsupported _ _ _ Hq)). reflexivity. }
  destruct fp_out as [t|]; run.
  - now apply Tail.
  - destruct (orig_shape (self w)) as [s|]; run; [|reflexivity].
    destruct (nonneg_shape s) eqn:Hn.
    + rewrite !run_torch_empty by assumption. now apply Tail.
    + rewrite !run_torch_empty_neg by assumption. reflexivity.
Qed.

Lemma fallback_dequantize_ignores_scale_contents_witness :
  dequantize echo_kernels q22 None 8 3 (Some scale21) (after_quantize false)
  = dequantize echo_kernels q22 None 8 3 (Some t322) (after_quantize false).
Proof.
  apply fallback_dequantize_ignores_scale_contents. reflexivity.
Defined.

(** ** The packed buffer [quantize] returns *)

Lemma bind_inv {A B} (c : M A) (k : A -> M B) w b w2 :
  bind c k w = (Ok b, w2) -> exists a w1, c w = (Ok a, w1) /\ k a w1 = (Ok b, w2).
Proof.
  unfold bind. destruct (c w) as [[a|e] w1]; intros H.
  - exists a, w1. auto.
  - discriminate.
Qed.

Lemma run_torch_ones_neg {B} s d (k : tensor -> M B) w :
  nonneg_shape s = false ->
  bind (torch_ones s d) k w = (Raise TorchRuntimeError, w).
Proof. intros H. unfold torch_ones. rewrite H. reflexivity. Qed.

Lemma copy_shape dst src r :
  copy_ dst src = Ok r -> shape r = shape dst /\ elt r = elt dst.
Proof.
  unfold copy_. destruct (_ <=? _)%nat; [|discriminate].
  destruct (broadcast _ _ _); [|discriminate].
  intros H. injection H as <-. auto.
Qed.

(** A backend call keeps the buffer attribute and the group count, and
    returns a tensor of the shape and element type of the buffer. *)
Lemma quantize_func_keeps K iq ng out val gs st q_bits m :
  obeys (fun e => input_q e = iq /\ num_groups e = ng) no_event
        (fun t => shape t = shape out /\ elt t = elt out)
        (quantize_func K out val gs st q_bits m).
Proof.
  unfold quantize_func, quantize_fallback.
  repeat obeys_step_inv.
  all: try exact I.
  all: try (intros e' He'; exact He').
  all: try (intros r Hr; now apply copy_shape in Hr).
  all: auto.
Qed.

Lemma quantize_packed K input q_bits m st w r w' :
  quantize K input q_bits m st false w = (Ok r, w') ->
  exists out,
    r = Packed out
    /\ input_q (self w') = Has out
    /\ num_groups (self w')
       = Some ((numel input + group_size (q_config (self w)) - 1)
               / group_size (q_config (self w)))
    /\ shape out
       = [(numel input + group_size (q_config (self w)) - 1) / group_size (q_config (self w));
          if is_fallback (self w)
          then Z.min (group_size (q_config (self w))) (numel input) * q_bits / 8
          else Z.min (group_size (q_config (self w))) (numel input) * q_bits / 8 + 4]
    /\ elt out = q_dtype (q_config (self w)).
Proof.
  unfold quantize. intros H.
  destruct (dtype_eqb (elt input) bfloat16); run_in H; [|discriminate].
  destruct (supported_q_bits q_bits) eqn:Hq.
  2:{ rewrite (bind_raise _ _ _ _ _ (resolve_unsupported _ _ _ Hq)) in H. discriminate. }
  rewrite (bind_ok _ _ _ _ _ (resolve_supported _ _ _ Hq)) in H. run_in H.
  unfold floordiv in H. attrs_in H.
  destruct (group_size (q_config (self w)) =? 0); run_in H; [discriminate|].
  attrs_in H.
  match type of H with
  | context [torch_ones ?s _] => destruct (nonneg_shape s) eqn:Hn
  end.
  2:{ rewrite run_torch_ones_neg in H by assumption. discriminate. }
  rewrite run_torch_ones in H by assumption. run_in H. attrs_in H.
  apply bind_inv in H as (out & w1 & H1 & H). run_in H.
  injection H as <- <-.
  match type of H1 with
  | quantize_func K ?buf input ?gs st q_bits ?m' ?w0 = _ =>
    destruct (quantize_func_keeps K (input_q (self w0)) (num_groups (self w0))
                                  buf input gs st q_bits m' w0 (conj eq_refl eq_refl))
      as [[_ Hng] [_ Hsh]];
      unfold state_after, result_of in Hng, Hsh; rewrite H1 in Hng, Hsh;
      cbn [fst snd] in Hng, Hsh;
      destruct (Hsh out eq_refl) as [Hs He]
  end.
  exists out. attrs. attrs_in Hng. cbn [shape elt] in Hs, He.
  repeat split; try assumption.
  rewrite Hs. destruct (is_fallback (self w)); reflexivity.
Qed.

Lemma quantize_returns_on_accelerated K input q_bits m st w :
  is_fallback (self w) = false ->
  elt input = bfloat16 ->
  supported_q_bits q_bits = true ->
  0 < group_size (q_config (self w)) ->
  0 <= numel input ->
  (forall o v g b q a, acc_quantize K o v g b q a <> None) ->
  is_ok (result_of (quantize K input q_bits m st false) w) = true.
Proof.
  intros Hf Hb Hq HG HN HK.
  set (G := group_size (q_config (self w))) in *.
  set (N := numel input) in *.
  pose proof (supported_q_bits_pos _ Hq) as Hp.
  unfold result_of, quantize. rewrite Hb. cbn [dtype_eqb]. run.
  rewrite (bind_ok _ _ _ _ _ (resolve_supported _ _ _ Hq)). run.
  unfold floordiv. attrs. fold G. fold N.
  assert ((G =? 0) = false) as -> by (apply Z.eqb_neq; lia).
  run. attrs. fold G. rewrite Hf. cbn [negb].
  rewrite run_torch_ones.
  2:{ simpl. assert (0 <= (N + G - 1) / G) by (apply Z.div_pos; lia).
      assert (0 <= Z.min G N * q_bits / 8) by (apply Z.div_pos; nia).
      destruct (0 <=? (N + G - 1) / G) eqn:E1; [|apply Z.leb_gt in E1; lia].
      destruct (0 <=? Z.min G N * q_bits / 8 + 4) eqn:E2; [|apply Z.leb_gt in E2; lia].
      reflexivity. }
  run. unfold quantize_func. run. attrs. rewrite Hf.
  match goal with
  | |- context [acc_quantize K ?o ?v ?g ?b ?q ?a] =>
    destruct (acc_quantize K o v g b q a) as [l|] eqn:E; [|destruct (HK _ _ _ _ _ _ E)]
  end.
  run. reflexivity.
Qed.

(** X13. When [quantize] returns without the meta-tensor mode, what it
    returns is the buffer that [self.input_q] holds: a tensor of the
    configured [q_dtype] and of shape [num_groups, W], with [num_groups] the
    stored group count and [W] the byte width of a group, 4 more on the
    accelerated backend.  On the accelerated backend it returns for every
    bfloat16 input, supported [q_bits] and positive group size, provided the
    kernel does not fail. *)
Theorem quantize_returns_its_buffer :
  forall K input q_bits m st w,
    (forall r w',
        quantize K input q_bits m st false w = (Ok r, w') ->
        exists out,
          r = Packed out
          /\ input_q (self w') = Has out
          /\ num_groups (self w')
             = Some ((numel input + group_size (q_config (self w)) - 1)
                     / group_size (q_config (self w)))
          /\ shape out
             = [(numel input + group_size (q_config (self w)) - 1)
                / group_size (q_config (self w));
                if is_fallback (self w)
                then Z.min (group_size (q_config (self w))) (numel input) * q_bits / 8
                else Z.min (group_size (q_config (self w))) (numel input) * q_bits / 8 + 4]
          /\ elt out = q_dtype (q_config (self w)))
    /\ (is_fallback (self w) = false ->
        elt input = bfloat16 ->
        supported_q_bits q_bits = true ->
        0 < group_size (q_config (self w)) ->
        0 <= numel input ->
        (forall o v g b q a, acc_quantize K o v g b q a <> None) ->
        is_ok (result_of (quantize K input q_bits m st false) w) = true).
Proof.
  intros K input q_bits m st w. split.
  - intros r w'. apply quantize_packed.
  - apply quantize_returns_on_accelerated.
Qed.

Lemma quantize_returns_its_buffer_witness :
  (exists out,
      input_q (self (state_after (quantize echo_kernels t322 4 3 false false)
                                 (fresh cfg2 true))) = Has out
      /\ shape out = [6; 5] /\ elt out = float8_e4m3fn)
  /\ is_ok (result_of (quantize echo_kernels t322 4 3 false false) (fresh cfg2 true)) = true.
Proof.
  pose proof (quantize_returns_its_buffer echo_kernels t322 4 3 false (fresh cfg2 true))
    as [A B].
  split.
  - destruct (A (Packed (mkTensor [6; 5] float8_e4m3fn (repeat (Flt f32_one) 30)))
                (state_after (quantize echo_kernels t322 4 3 false false) (fresh cfg2 true))
                eq_refl)
      as [out [_ [H2 [_ [H3 H4]]]]].
    exists out. repeat split; assumption.
  - apply B; try reflexivity.
    + vm_compute. discriminate.
    + intros; discriminate.
Defined.

Lemma quantize_plain_never_reclaims K cfg fb input q_bits m st :
  obeys (configured cfg fb) not_reclaim anything (quantize K input q_bits m st false).
Proof.
  unfold quantize, quantize_func, quantize_fallback, floordiv, unpack2. cbv beta iota.
  repeat obeys_step.
  all: try exact I.
  all: try (split; discriminate).
  all: intros; exact I.
Qed.

(** X14. [quantize] asks the garbage collector and the accelerator cache
    to reclaim memory only in the meta-tensor mode: without it, no such
    request is made, whether the call returns or raises. *)
Theorem quantize_reclaims_only_in_meta_mode :
  forall K input q_bits m st w ev,
    In ev (new_events (quantize K input q_bits m st false) w) ->
    ev <> EvGcCollect /\ ev <> EvEmptyCache.
Proof.
  intros K input q_bits m st w ev Hin.
  eapply (obeys_new_events _ not_reclaim);
    [apply quantize_plain_never_reclaims|apply configured_self|exact Hin].
Qed.

Lemma quantize_reclaims_only_in_meta_mode_witness :
  EvQuantize 6 false 8 3 <> EvGcCollect /\ EvQuantize 6 false 8 3 <> EvEmptyCache.
Proof.
  apply (quantize_reclaims_only_in_meta_mode echo_kernels t22 8 3 false (fresh cfg2 true)).
  vm_compute. right. left. reflexivity.
Defined.

(** ** The sign and the extremes of the scale *)

Lemma finfo_max_finite d q :
  finfo_max d = Ok q -> exists m e, q = S754_finite false m e.
Proof.
  destruct d; intros H; try discriminate; injection H as <-;
    eexists; eexists; vm_compute; reflexivity.
Qed.

Lemma binary_round_aux_sign prec emax mx ex lx :
  sign_clear (binary_round_aux prec emax false mx ex lx).
Proof.
  unfold binary_round_aux.
  destruct (shr_fexp prec emax mx ex lx) as [mrs' e'].
  destruct (shr_fexp prec emax _ e' loc_Exact) as [mrs'' e''].
  destruct (shr_m mrs''); simpl; auto.
  destruct (Z.leb _ _); simpl; reflexivity.
Qed.

Lemma f32_div_sign_clear q x :
  sign_clear q -> sign_clear x -> sign_clear (f32_div q x).
Proof.
  unfold f32_div, SFdiv. intros Hq Hx.
  destruct q as [sq|sq| |sq mq eq], x as [sx|sx| |sx mx ex]; simpl in *; subst; auto.
  destruct (SFdiv_core_binary _ _ _ _ _ _) as [[mz ez] lz].
  apply binary_round_aux_sign.
Qed.

Lemma f32_max_sign_clear x y : sign_clear x -> sign_clear y -> sign_clear (f32_max x y).
Proof.
  unfold f32_max. intros Hx Hy.
  destruct x, y; simpl in *; auto; destruct (SFltb _ _); simpl; auto.
Qed.

Lemma fold_f32_max_sign_clear l :
  forall x, sign_clear x -> Forall sign_clear l -> sign_clear (fold_left f32_max l x).
Proof.
  induction l as [|y l IH]; intros x Hx Hl; simpl; [exact Hx|].
  inversion Hl; subst. apply IH; [|assumption]. now apply f32_max_sign_clear.
Qed.

Lemma SFabs_sign_clear x : sign_clear (SFabs x).
Proof. destruct x; simpl; auto. Qed.

Lemma max_abs_or_nan_sign_clear row : sign_clear (max_abs_or_nan row).
Proof.
  unfold max_abs_or_nan, max_abs. destruct row as [|v row]; simpl; [exact I|].
  apply fold_f32_max_sign_clear; [apply SFabs_sign_clear|].
  apply Forall_forall. intros x Hx. apply in_map_iff in Hx as [y [<- _]].
  apply SFabs_sign_clear.
Qed.

Lemma f32_mul_sign_clear x y : sign_clear x -> sign_clear y -> sign_clear (f32_mul x y).
Proof.
  unfold f32_mul, SFmul. intros Hx Hy.
  destruct x as [sx|sx| |sx mx ex], y as [sy|sy| |sy my ey]; simpl in *; subst; auto.
  apply binary_round_aux_sign.
Qed.

Lemma rtruediv_sign_clear q x : sign_clear q -> sign_clear x -> sign_clear (rtruediv q x).
Proof.
  intros Hq Hx. unfold rtruediv.
  apply f32_mul_sign_clear; [|exact Hq]. apply f32_div_sign_clear; [reflexivity|exact Hx].
Qed.

(** X15. A scale the fallback stores, for a [val] that can be viewed as
    [num_groups] rows of [group_size] elements, is never negative: every
    element is a 32-bit float whose sign bit is clear, or a NaN. *)
Theorem fallback_scale_sign :
  forall K out val gs st w ng qmax,
    num_groups (self w) = Some ng ->
    0 < gs ->
    is_ok (view val [ng; gs]) = true ->
    length (data val) = Z.to_nat (numel val) ->
    (device_is_gaudi2 K = true -> q_range_dtype (q_config (self w)) = float8_e4m3fnuz) ->
    finfo_max (q_range_dtype (q_config (self w))) = Ok qmax ->
    exists sc,
      scale (self (state_after (quantize_fallback K out val gs st 8 3) w)) = Some sc
      /\ Forall (fun v => exists x, v = Flt x /\ sign_clear x) (data sc).
Proof.
  intros K out val gs st w ng qmax Hng Hg Hview Hlen Hdev Hmax.
  eexists. split.
  - now apply (quantize_fallback_scale K out val gs st w ng qmax).
  - unfold fallback_scale, rdiv. cbn [data]. rewrite !map_map. cbn [to_f32].
    apply Forall_forall. intros v Hv.
    apply in_map_iff in Hv as [r [<- _]]. eexists. split; [reflexivity|].
    destruct (finfo_max_finite _ _ Hmax) as [mq [eq ->]].
    apply rtruediv_sign_clear; [reflexivity|apply max_abs_or_nan_sign_clear].
Qed.

Lemma fallback_scale_sign_witness :
  exists sc,
    scale (self (state_after (quantize_fallback echo_kernels q22 t22 2 false 8 3)
                             (mkWorld (set_num_groups (Some 2) (init cfg2 false)) [])))
    = Some sc
    /\ Forall (fun v => exists x, v = Flt x /\ sign_clear x) (data sc).
Proof.
  apply (fallback_scale_sign echo_kernels q22 t22 2 false
           (mkWorld (set_num_groups (Some 2) (init cfg2 false)) []) 2 (f32_of_Z 448)).
  - reflexivity.
  - reflexivity.
  - reflexivity.
  - reflexivity.
  - discriminate.
  - reflexivity.
Defined.

Lemma fold_f32_max_zeros l :
  Forall (fun x => x = S754_zero false) l ->
  fold_left f32_max l (S754_zero false) = S754_zero false.
Proof.
  induction l as [|y l IH]; intros H; simpl; [reflexivity|].
  inversion H; subst. simpl. now apply IH.
Qed.

Lemma max_abs_or_nan_zeros row :
  row <> [] -> Forall is_zero row -> max_abs_or_nan row = S754_zero false.
Proof.
  intros Hne H. unfold max_abs_or_nan, max_abs.
  destruct row as [|v row]; [congruence|]. simpl.
  inversion H as [|? ? [s Hs] Hrow]; subst. rewrite Hs. simpl.
  apply fold_f32_max_zeros. apply Forall_forall. intros x Hx.
  apply in_map_iff in Hx as [y [<- Hy]].
  rewrite Forall_forall in Hrow. destruct (Hrow y Hy) as [s' ->]. reflexivity.
Qed.

(** X16. The fallback divides by the largest absolute value of a group
    without a guard: in a [val] that can be viewed as [num_groups] rows of
    [group_size] elements, a group that holds only zeros gets the scale plus
    infinity. *)
Theorem fallback_scale_of_zero_group :
  forall K out val gs st w ng qmax i,
    num_groups (self w) = Some ng ->
    0 < gs ->
    is_ok (view val [ng; gs]) = true ->
    length (data val) = Z.to_nat (numel val) ->
    (device_is_gaudi2 K = true -> q_range_dtype (q_config (self w)) = float8_e4m3fnuz) ->
    finfo_max (q_range_dtype (q_config (self w))) = Ok qmax ->
    (i < Z.to_nat ng)%nat ->
    Forall is_zero (group_of (Z.to_nat gs) (data val) i) ->
    exists sc,
      scale (self (state_after (quantize_fallback K out val gs st 8 3) w)) = Some sc
      /\ nth i (data sc) (Flt S754_nan) = Flt (S754_infinity false).
Proof.
  intros K out val gs st w ng qmax i Hng Hg Hview Hlen Hdev Hmax Hi Hz.
  destruct (view_ok_inv _ _ Hview) as [_ [Hnum _]].
  cbn [prod_shape fold_right] in Hnum. rewrite Z.mul_1_r in Hnum.
  eexists. split.
  - now apply (quantize_fallback_scale K out val gs st w ng qmax).
  - rewrite fallback_scale_nth by assumption.
    rewrite max_abs_or_nan_zeros; [|intros E|assumption].
    + destruct (finfo_max_finite _ _ Hmax) as [mq [eq ->]]. reflexivity.
    + assert (length (group_of (Z.to_nat gs) (data val) i) = Z.to_nat gs) as Hrow.
      { unfold group_of. rewrite length_firstn, length_skipn, Hlen, <- Hnum. nia. }
      rewrite E in Hrow. simpl in Hrow. lia.
Qed.

Lemma fallback_scale_of_zero_group_witness :
  exists sc,
    scale (self (state_after
                   (quantize_fallback echo_kernels q22
                      (mkTensor [2; 2] bfloat16
                                [Flt (f32_of_Z 5); Flt (f32_of_Z 1);
                                 Flt (S754_zero false); Flt (S754_zero true)])
                      2 false 8 3)
                   (mkWorld (set_num_groups (Some 2) (init cfg2 false)) [])))
    = Some sc
    /\ nth 1 (data sc) (Flt S754_nan) = Flt (S754_infinity false).
Proof.
  apply (fallback_scale_of_zero_group echo_kernels q22
           (mkTensor [2; 2] bfloat16
                     [Flt (f32_of_Z 5); Flt (f32_of_Z 1);
                      Flt (S754_zero false); Flt (S754_zero true)])
           2 false (mkWorld (set_num_groups (Some 2) (init cfg2 false)) []) 2
           (f32_of_Z 448) 1%nat).
  - reflexivity.
  - reflexivity.
  - reflexivity.
  - reflexivity.
  - discriminate.
  - reflexivity.
  - vm_compute. auto.
  - repeat constructor; eexists; reflexivity.
Defined.

(** ** Quantizing and dequantizing on the fallback *)

Lemma dequantize_func_on_fallback K fp_out iq gs m e w sc0 d s :
  is_fallback (self w) = true ->
  scale (self w) = Some sc0 ->
  orig_dtype (self w) = Some d -> orig_shape (self w) = Some s ->
  nonneg_shape s = true ->
  numel iq = prod_shape s ->
  shape fp_out = s ->
  (forall a b c, hpu_cast_from_fp8 K a b c <> None) ->
  is_ok (fst (dequantize_func K fp_out iq gs m e w)) = true.
Proof.
  intros Hf Hsc Hd Hs Hn Hnum Hout HK.
  unfold dequantize_func. run. rewrite Hf.
  unfold dequantize_fallback. run. rewrite Hsc. run. rewrite Hd. run.
  match goal with
  | |- context [hpu_cast_from_fp8 K ?a ?b ?c] =>
    destruct (hpu_cast_from_fp8 K a b c) as [l|] eqn:E; [|destruct (HK _ _ _ E)]
  end.
  run. rewrite Hs. run.
  assert (view (mkTensor (shape iq) d l) s = Ok (mkTensor s d l)) as ->.
  { unfold view. rewrite Hn. unfold numel at 1. cbn [shape].
    fold (numel iq). rewrite Hnum, Z.eqb_refl. reflexivity. }
  run.
  destruct (copy_same_shape fp_out (mkTensor s d l)) as [l' Hl']; [exact Hout|].
  unfold lift. rewrite Hl'. reflexivity.
Qed.

Lemma view_shape t s v :
  view t s = Ok v -> shape v = s /\ elt v = elt t /\ data v = data t.
Proof.
  intros H. destruct (view_ok_inv t s) as [_ [_ [lay H']]]; [now rewrite H|].
  rewrite H in H'. injection H' as ->. auto.
Qed.

Lemma reshape_rows_ok t k :
  0 < k -> numel t mod k = 0 ->
  exists r, reshape_rows t k = Ok r /\ shape r = [numel t / k; k].
Proof.
  intros Hk Hm. unfold reshape_rows. rewrite Hm.
  destruct (0 <? k) eqn:E; [|apply Z.ltb_ge in E; lia]. cbn [andb Z.eqb].
  destruct (view t [numel t / k; k]) as [v|e] eqn:Hv.
  - exists v. split; [reflexivity|]. now apply view_shape in Hv.
  - eexists. split; reflexivity.
Qed.

Lemma dequantize_on_fallback K iq q_bits m (sc : option tensor) w sc0 d s :
  is_fallback (self w) = true ->
  scale (self w) = Some sc0 ->
  orig_dtype (self w) = Some d -> orig_shape (self w) = Some s ->
  nonneg_shape s = true ->
  supported_q_bits q_bits = true ->
  numel iq = prod_shape s ->
  (sc <> None ->
   q_bits = 8 /\ 0 < group_size (q_config (self w)) /\ 1 <= numel iq
   /\ numel iq mod Z.min (group_size (q_config (self w))) (numel iq) = 0) ->
  (forall a b c, hpu_cast_from_fp8 K a b c <> None) ->
  is_ok (result_of (dequantize K iq None q_bits m sc) w) = true.
Proof.
  intros Hf Hsc Hd Hs Hn Hq Hnum Hsome HK.
  unfold result_of, dequantize. rewrite run_get, Hd. run. rewrite Hs. run.
  rewrite run_torch_empty by assumption.
  rewrite (bind_ok _ _ _ _ _ (resolve_supported _ _ _ Hq)). run. attrs. rewrite Hf.
  cbn [negb].
  destruct sc as [sc1|].
  - destruct (Hsome ltac:(discriminate)) as [-> [HG [H1 HN]]].
    set (G := group_size (q_config (self w))) in *.
    rewrite Z.div_mul by lia.
    destruct (reshape_rows_ok iq (Z.min G (numel iq))) as [r [-> Hr]]; [lia|exact HN|].
    run.
    apply (dequantize_func_on_fallback K _ _ _ _ _ _ sc0 d s); attrs; auto.
    unfold numel at 1. rewrite Hr. cbn [prod_shape fold_right].
    apply Z.div_exact in HN; [|lia]. rewrite <- Hnum. lia.
  - run. apply (dequantize_func_on_fallback K _ _ _ _ _ _ sc0 d s); attrs; auto.
Qed.

(** X17. On the fallback backend, quantizing at 8 bits with 3 mantissa
    bits a bfloat16 tensor that can be viewed as [num_groups] rows of
    [min(group_size, N)] elements, and dequantizing what [quantize]
    returned, gives a tensor of the shape and the element type of the
    original, provided the two cast kernels do not fail: the packed buffer
    without an explicit scale, or the codes of the meta-tensor mode with the
    scale that came with them. *)
Theorem fallback_round_trip_shape :
  forall K input st meta w cfg ng gs qmax,
    is_fallback (self w) = true ->
    q_config (self w) = cfg ->
    elt input = bfloat16 ->
    nonneg_shape (shape input) = true ->
    0 < group_size cfg ->
    1 <= numel input ->
    group_size cfg * (ng - 1) < numel input ->
    numel input <= group_size cfg * ng ->
    gs = Z.min (group_size cfg) (numel input) ->
    is_ok (view input [ng; gs]) = true ->
    length (data input) = Z.to_nat (numel input) ->
    (device_is_gaudi2 K = true -> q_range_dtype cfg = float8_e4m3fnuz) ->
    finfo_max (q_range_dtype cfg) = Ok qmax ->
    (forall v s b d, hpu_cast_to_fp8_v2 K v s b d <> None) ->
    (forall a b c, hpu_cast_from_fp8 K a b c <> None) ->
    exists codes sc t,
      result_of (quantize K input 8 3 st meta) w
      = Ok (if meta then Meta codes sc else Packed codes)
      /\ result_of (dequantize K codes None 8 3 (if meta then Some sc else None))
                   (state_after (quantize K input 8 3 st meta) w)
         = Ok t
      /\ shape t = shape input /\ elt t = bfloat16.
Proof.
  intros K input st meta w cfg ng gs qmax Hf Hcfg Hb Hsh HG HN Hlo Hhi Hgs Hview Hlen
         Hdev Hmax HK HK'.
  destruct (view_ok_inv _ _ Hview) as [_ [Hnum _]].
  cbn [prod_shape fold_right] in Hnum. rewrite Z.mul_1_r in Hnum.
  destruct (quantize_on_fallback_run K input st meta w cfg ng gs qmax
              Hf Hcfg Hb Hsh HG HN Hlo Hhi Hgs Hview Hlen Hdev Hmax HK)
    as [v [q [out [_ [_ [Hout [R [_ [_ [_ [Hsc [Hd [Hs [Hf' Hcfg']]]]]]]]]]]]]].
  apply copy_shape in Hout as [Hout _]. cbn [shape] in Hout.
  set (w' := state_after (quantize K input 8 3 st meta) w) in *.
  set (codes := if meta then mkTensor (shape input) (q_dtype cfg) (data out) else out).
  set (sc := fallback_scale qmax ng gs (data input)) in *.
  assert (numel codes = numel input) as Hcodes.
  { unfold codes. destruct meta; unfold numel; cbn [shape]; [reflexivity|].
    rewrite Hout. cbn [prod_shape fold_right]. fold (prod_shape (shape input)).
    fold (numel input). lia. }
  assert (is_ok (result_of (dequantize K codes None 8 3 (if meta then Some sc else None)) w')
          = true) as Hok.
  { apply (dequantize_on_fallback K codes 8 3 _ w' sc bfloat16 (shape input)); auto.
    rewrite Hcfg', Hcodes. intros _. repeat split; try lia.
    rewrite <- Hgs, <- Hnum. apply Z.mod_mul. lia. }
  destruct (result_of (dequantize K codes None 8 3 (if meta then Some sc else None)) w')
    as [t|] eqn:Ht; [|discriminate].
  exists codes, sc, t.
  split; [rewrite R; unfold codes; destruct meta; reflexivity|].
  split; [exact Ht|].
  now apply (dequantize_result_shape K codes None 8 3 (if meta then Some sc else None)
               w' (shape input) bfloat16 t).
Qed.

Lemma fallback_round_trip_shape_witness :
  exists codes sc t,
    result_of (quantize echo_kernels t22 8 3 false true) (fresh cfg2 false)
    = Ok (Meta codes sc)
    /\ result_of (dequantize echo_kernels codes None 8 3 (Some sc))
                 (state_after (quantize echo_kernels t22 8 3 false true) (fresh cfg2 false))
       = Ok t
    /\ shape t = [2; 2] /\ elt t = bfloat16.
Proof.
  apply (fallback_round_trip_shape echo_kernels t22 false true (fresh cfg2 false)
                                   cfg2 2 2 (f32_of_Z 448)).
  - reflexivity.
  - reflexivity.
  - reflexivity.
  - reflexivity.
  - reflexivity.
  - vm_compute. discriminate.
  - reflexivity.
  - vm_compute. discriminate.
  - reflexivity.
  - reflexivity.
  - reflexivity.
  - discriminate.
  - reflexivity.
  - intros; discriminate.
  - intros; discriminate.
Defined.

(** ** What the fallback dequantizer needs *)

(** X18. On the fallback [dequantize] reads the scale of the session: when
    no scale has been stored, a call past the session and precision checks
    raises a type error on [1.0 / self.scale], after the backend has been
    entered and before any kernel runs. *)
Theorem fallback_dequantize_needs_session_scale :
  forall K input_q fp_out q_bits m w d s,
    is_fallback (self w) = true ->
    scale (self w) = None ->
    orig_dtype (self w) = Some d -> orig_shape (self w) = Some s ->
    nonneg_shape s = true ->
    supported_q_bits q_bits = true ->
    result_of (dequantize K input_q fp_out q_bits m None) w = Raise TypeError
    /\ self (state_after (dequantize K input_q fp_out q_bits m None) w) = self w.
Proof.
  intros K input_q fp_out q_bits m w d s Hf Hsc Hd Hs Hn Hq.
  unfold result_of, state_after, dequantize. rewrite run_get, Hd. run.
  destruct fp_out as [o|]; run.
  - rewrite (bind_ok _ _ _ _ _ (resolve_supported _ _ _ Hq)). run.
    unfold dequantize_func. run. attrs. rewrite Hf.
    unfold dequantize_fallback. run. attrs. rewrite Hsc. run. auto.
  - rewrite Hs. run. rewrite run_torch_empty by assumption.
    rewrite (bind_ok _ _ _ _ _ (resolve_supported _ _ _ Hq)). run.
    unfold dequantize_func. run. attrs. rewrite Hf.
    unfold dequantize_fallback. run. attrs. rewrite Hsc. run. auto.
Qed.

Lemma fallback_dequantize_needs_session_scale_witness :
  result_of (dequantize echo_kernels q22 None 8 3 None)
            (state_after (quantize echo_kernels t22 4 3 false false) (fresh cfg2 false))
  = Raise TypeError.
Proof.
  apply (fallback_dequantize_needs_session_scale echo_kernels q22 None 8 3
           (state_after (quantize echo_kernels t22 4 3 false false) (fresh cfg2 false))
           bfloat16 [2; 2]); reflexivity.
Defined.

(** X19. On the fallback the quantized input must hold as many elements as
    the original tensor: otherwise [dequantize], called without an explicit
    scale, raises inside torch when the cast values are viewed in the
    original shape. *)
Theorem fallback_dequantize_needs_original_numel :
  forall K input_q fp_out q_bits m w sc0 d s,
    is_fallback (self w) = true ->
    scale (self w) = Some sc0 ->
    orig_dtype (self w) = Some d -> orig_shape (self w) = Some s ->
    nonneg_shape s = true ->
    supported_q_bits q_bits = true ->
    numel input_q <> prod_shape s ->
    (forall a b c, hpu_cast_from_fp8 K a b c <> None) ->
    result_of (dequantize K input_q fp_out q_bits m None) w = Raise TorchRuntimeError.
Proof.
  intros K input_q fp_out q_bits m w sc0 d s Hf Hsc Hd Hs Hn Hq Hne HK.
  assert (forall l, view (mkTensor (shape input_q) d l) s = Raise TorchRuntimeError) as Hv.
  { intros l. unfold view. unfold numel at 1. cbn [shape]. fold (numel input_q).
    destruct (prod_shape s =? numel input_q) eqn:E;
      [apply Z.eqb_eq in E; congruence|now rewrite andb_false_r]. }
  unfold result_of, dequantize. rewrite run_get, Hd. run.
  destruct fp_out as [o|]; run.
  - rewrite (bind_ok _ _ _ _ _ (resolve_supported _ _ _ Hq)). run.
    unfold dequantize_func. run. attrs. rewrite Hf.
    unfold dequantize_fallback. run. attrs. rewrite Hsc. run. rewrite Hd. run.
    match goal with
    | |- context [hpu_cast_from_fp8 K ?a ?b ?c] =>
      destruct (hpu_cast_from_fp8 K a b c) as [l|] eqn:E; [|destruct (HK _ _ _ E)]
    end.
    run. attrs. rewrite Hs. run. rewrite Hv. now run.
  - rewrite Hs. run. rewrite run_torch_empty by assumption.
    rewrite (bind_ok _ _ _ _ _ (resolve_supported _ _ _ Hq)). run.
    unfold dequantize_func. run. attrs. rewrite Hf.
    unfold dequantize_fallback. run. attrs. rewrite Hsc. run. rewrite Hd. run.
    match goal with
    | |- context [hpu_cast_from_fp8 K ?a ?b ?c] =>
      destruct (hpu_cast_from_fp8 K a b c) as [l|] eqn:E; [|destruct (HK _ _ _ E)]
    end.
    run. attrs. rewrite Hs. run. rewrite Hv. now run.
Qed.

Lemma fallback_dequantize_needs_original_numel_witness :
  result_of (dequantize echo_kernels t322 None 8 3 None) (after_quantize false)
  = Raise TorchRuntimeError.
Proof.
  apply (fallback_dequantize_needs_original_numel echo_kernels t322 None 8 3
           (after_quantize false)
           (fallback_scale (f32_of_Z 448) 2 2 (data t22))
           bfloat16 [2; 2]); try reflexivity.
  - vm_compute. discriminate.
  - intros; discriminate.
Defined.
